(** * SCEPTER / ORION TX strategy engine: simulation core

    A shallow embedding of the simulation-and-evaluation engine of
    [src/App.jsx] (periodic-switch variant, leaderboard of 10) and of the
    ORION TX file (continuous-exploration variant, leaderboard of 50):
    the steering model [getStrategyBehavior], [findNearest], the two tick
    engines [updateMultiTheater] and [updateStandardMode], the metrics
    engine [updateMissionMetrics] and the leaderboard update of
    [evaluateCurrentStrategy].

    Number model.  A JavaScript number is modelled by a real number: the
    arithmetic of the engine is read as exact arithmetic and IEEE rounding is
    not modelled.  The one division whose divisor can be zero
    ([timeToObjective]) is modelled with the IEEE special values
    ([jsnumber]).  [Math.random()] is an oracle [rand : nat -> R] read
    through a counter, so that the order in which the code draws random
    numbers is part of the model. *)

From Stdlib Require Import Reals Lra Lia List String Ascii ZArith NArith Bool.
From Stdlib Require Import Sorting.Sorted Sorting.Permutation DecimalString.
Import ListNotations.

Local Open Scope R_scope.

(* ------------------------------------------------------------------ *)
(** ** JavaScript numbers and [Math] *)

(** [a < b] as a JavaScript boolean. *)
Definition Rltb (a b : R) : bool := if Rlt_dec a b then true else false.

Module JsMath.

Definition max (a b : R) : R := Rmax a b.
Definition min (a b : R) : R := Rmin a b.
Definition PI : R := Rtrigo1.PI.

(** [Math.sqrt(Math.pow(dx, 2) + Math.pow(dy, 2))] in [App.jsx],
    [Math.hypot(dx, dy)] in the ORION TX file. *)
Definition hypot (dx dy : R) : R := sqrt (dx * dx + dy * dy).

(** [Math.atan2(y, x)] on finite arguments (signed zeros are not
    modelled; [atan2(0, 0)] is [0]). *)
Definition atan2 (y x : R) : R :=
  if Rlt_dec 0 x then atan (y / x)
  else if Rlt_dec x 0 then
    (if Rle_dec 0 y then atan (y / x) + Rtrigo1.PI else atan (y / x) - Rtrigo1.PI)
  else if Rlt_dec 0 y then Rtrigo1.PI / 2
  else if Rlt_dec y 0 then - (Rtrigo1.PI / 2)
  else 0.

(** [Math.floor] on a finite number. *)
Definition floor (r : R) : Z := Int_part r.

End JsMath.

(** A number that may be one of the IEEE special values. *)
Inductive jsnumber : Type :=
| Finite (r : R)
| PosInfinity
| NegInfinity
| NaN.

(** [a / b] where [b] may be zero ([b] is [+0] when it is zero). *)
Definition js_div (a b : R) : jsnumber :=
  if Req_dec_T b 0 then
    (if Rlt_dec 0 a then PosInfinity
     else if Rlt_dec a 0 then NegInfinity else NaN)
  else Finite (a / b).

(** [Math.floor] on a number that may be special: the special values are
    returned unchanged. *)
Definition js_floor (v : jsnumber) : jsnumber :=
  match v with
  | Finite r => Finite (IZR (JsMath.floor r))
  | other => other
  end.

(* ------------------------------------------------------------------ *)
(** ** Configuration constants *)

Module SIMULATION_CONFIG.
Definition GRID_SIZE : R := 400.
Definition NUM_THEATERS : nat := 4.
Definition STRATEGY_SWITCH_TIME_min : R := 3.
Definition STRATEGY_SWITCH_TIME_max : R := 5.
Definition ENGAGEMENT_DISTANCE : R := 35.
Definition HIT_DAMAGE : R := 2.
Definition BASE_SUCCESS_PROBABILITY : R := 50.
End SIMULATION_CONFIG.
Import SIMULATION_CONFIG.

(* ------------------------------------------------------------------ *)
(** ** Data model *)

Inductive team_t : Type := blue | red.

(** The team-specific fields of an agent object: a blue agent carries
    [vx], [vy], [active] (and [fuel], [ammo] in multi-theater mode); a red
    agent carries [health]. *)
Inductive attrs : Type :=
| BlueAttrs (vx vy : R) (active : bool) (fuel ammo : option R)
| RedAttrs (health : R).

Module Agent.
Record t : Type := mk { id : string; x : R; y : R; attrs_of : attrs }.

Definition team (a : t) : team_t :=
  match attrs_of a with BlueAttrs _ _ _ _ _ => blue | RedAttrs _ => red end.

(** [a.team === 'blue' && a.active] *)
Definition is_active_blue (a : t) : bool :=
  match attrs_of a with BlueAttrs _ _ act _ _ => act | RedAttrs _ => false end.

(** [a.team === 'red' && a.health > 0] *)
Definition is_live_red (a : t) : bool :=
  match attrs_of a with BlueAttrs _ _ _ _ _ => false | RedAttrs h => Rltb 0 h end.

(** [{ ...agent, vx, vy, x, y }]; the engine builds it for active blue
    agents only. *)
Definition with_motion (a : t) (nvx nvy nx ny : R) : t :=
  match attrs_of a with
  | BlueAttrs _ _ act fuel ammo =>
      mk (id a) nx ny (BlueAttrs nvx nvy act fuel ammo)
  | RedAttrs h => mk (id a) nx ny (RedAttrs h)
  end.

(** [{ ...agent, health }]; the engine builds it for red agents only. *)
Definition with_health (a : t) (h : R) : t :=
  match attrs_of a with
  | RedAttrs _ => mk (id a) (x a) (y a) (RedAttrs h)
  | BlueAttrs _ _ _ _ _ => a
  end.

Definition health (a : t) : option R :=
  match attrs_of a with RedAttrs h => Some h | BlueAttrs _ _ _ _ _ => None end.

Definition velocity (a : t) : option (R * R) :=
  match attrs_of a with
  | BlueAttrs vx vy _ _ _ => Some (vx, vy)
  | RedAttrs _ => None
  end.
End Agent.

Module Theater.
Record t : Type :=
  mk { id : nat; name : string; agents : list Agent.t; priority : R }.
End Theater.

Inductive roe_t : Type := defensive | standard | aggressive.

Module Policy.
Record t : Type :=
  mk { forceLevel : R; roe : roe_t; commanderIntent : string; riskTolerance : R }.
End Policy.

Module Logistics.
Record t : Type :=
  mk { supplyRate : R; maintenanceLevel : R;
       commsReliability : R; transportCapacity : R }.
End Logistics.

Inductive mode_t : Type := multi_theater | standard_mode.

Module Strategy.
Record t : Type := mk { name : string; approach : string; speed : R }.
End Strategy.

(** The strategy table ([coordination] of [App.jsx] is never read). *)
Definition direct_assault : Strategy.t := Strategy.mk "Direct Assault" "direct" 2.5.

Definition strategies : list Strategy.t :=
  [ direct_assault;
    Strategy.mk "Flanking Maneuver" "flank" 2;
    Strategy.mk "Pincer Movement" "pincer" 2;
    Strategy.mk "Dispersed Engagement" "dispersed" 1.8;
    Strategy.mk "Concentrated Strike" "concentrated" 3;
    Strategy.mk "Hit and Run" "hitrun" 3.5 ].

(* ------------------------------------------------------------------ *)
(** ** Agent numbers: [parseInt(agent.id.match(/\d+/)?.[0] || 0)] *)

Definition is_digit (c : ascii) : bool :=
  let n := nat_of_ascii c in (48 <=? n)%nat && (n <=? 57)%nat.

(** The longest prefix made of digits. *)
Fixpoint take_digits (s : string) : string :=
  match s with
  | EmptyString => EmptyString
  | String c rest => if is_digit c then String c (take_digits rest) else EmptyString
  end.

(** [id.match(/\d+/)?.[0]]: the first (leftmost, longest) run of digits,
    [None] when the string has no digit. *)
Fixpoint first_digit_run (s : string) : option string :=
  match s with
  | EmptyString => None
  | String c rest =>
      if is_digit c then Some (String c (take_digits rest))
      else first_digit_run rest
  end.

(** [parseInt] on a string of decimal digits (exact below 2^53, which
    covers every id the engine creates). *)
Definition parseInt_digits (s : string) : N :=
  let fix go (acc : N) (s : string) : N :=
    match s with
    | EmptyString => acc
    | String c rest => go (acc * 10 + (N_of_ascii c - 48))%N rest
    end in
  go 0%N s.

Definition agentNum (id : string) : N :=
  match first_digit_run id with
  | Some digits => parseInt_digits digits
  | None => 0%N
  end.

(* ------------------------------------------------------------------ *)
(** ** The random source *)

(** A computation that draws from [Math.random()]: it is given the number
    of draws made so far and returns its result with the new count. *)
Definition Rand (A : Type) : Type := nat -> A * nat.

Definition ret {A} (a : A) : Rand A := fun n => (a, n).

Definition bind {A B} (c : Rand A) (k : A -> Rand B) : Rand B :=
  fun n => let (a, n') := c n in k a n'.

Notation "x <- c ;; k" := (bind c (fun x => k))
  (at level 61, c at next level, right associativity).

(** [xs.map(f)] where [f] may draw random numbers: left to right. *)
Fixpoint mapM {A B} (f : A -> Rand B) (xs : list A) : Rand (list B) :=
  match xs with
  | [] => ret []
  | a :: rest => b <- f a ;; bs <- mapM f rest ;; ret (b :: bs)
  end.

(** [for (const x of xs) acc = f(acc, x)] where [f] may draw. *)
Fixpoint foldM {A B} (f : B -> A -> Rand B) (xs : list A) (acc : B) : Rand B :=
  match xs with
  | [] => ret acc
  | a :: rest => acc' <- f acc a ;; foldM f rest acc'
  end.

(* ------------------------------------------------------------------ *)
(** ** findNearest *)

Definition distance (a b : Agent.t) : R :=
  JsMath.hypot (Agent.x b - Agent.x a) (Agent.y b - Agent.y a).

(** One iteration of the loop; [minDistance] is [None] while it is
    [Infinity]. *)
Definition nearest_step (agent : Agent.t) (st : Agent.t * option R)
    (target : Agent.t) : Agent.t * option R :=
  let d := distance agent target in
  match snd st with
  | None => (target, Some d)
  | Some minDistance => if Rltb d minDistance then (target, Some d) else st
  end.

Definition findNearest (agent : Agent.t) (targets : list Agent.t) : option Agent.t :=
  match targets with
  | [] => None
  | first :: _ => Some (fst (fold_left (nearest_step agent) targets (first, None)))
  end.

(** An active blue agent of standard mode at rest, and a red agent. *)
Definition blue_at (id : string) (x y : R) : Agent.t :=
  Agent.mk id x y (BlueAttrs 0 0 true None None).

Definition red_at (id : string) (x y health : R) : Agent.t :=
  Agent.mk id x y (RedAttrs health).

(** What the control loop hands to one tick: the policy, the logistics and
    the active strategy at that tick. *)
Record tick_settings : Type :=
  mkTick { tick_policy : Policy.t; tick_logistics : Logistics.t; tick_strategy : string }.

(* ------------------------------------------------------------------ *)
(** ** The steering model and the tick engines *)

Record behavior : Type := mkBehavior { vx : R; vy : R }.

Section Engine.

(** The successive results of [Math.random()]. *)
Variable rand : nat -> R.

Definition Math_random : Rand R := fun n => (rand n, S n).

(** [getStrategyBehavior(agent, nearest, strategyApproach, timeElapsed = 0)]:
    [timeElapsed] is [None] when the caller does not pass it. *)
Definition getStrategyBehavior (agent : Agent.t) (nearest : option Agent.t)
    (strategyApproach : string) (timeElapsed : option R) : Rand behavior :=
  match nearest with
  | None => ret (mkBehavior 0 0)
  | Some nearest =>
      let timeElapsed := match timeElapsed with Some t => t | None => 0 end in
      let dx := Agent.x nearest - Agent.x agent in
      let dy := Agent.y nearest - Agent.y agent in
      let baseAngle := JsMath.atan2 dy dx in
      let dist := JsMath.hypot dx dy in
      let agentNum := agentNum (Agent.id agent) in
      let strategyConfig :=
        match find (fun s => String.eqb (Strategy.approach s) strategyApproach)
                   strategies with
        | Some s => s
        | None => nth 0 strategies direct_assault
        end in
      let speedMod := Strategy.speed strategyConfig in
      p <- (if String.eqb strategyApproach "flank" then
              ret (baseAngle + (if N.eqb (agentNum mod 2) 0
                                then JsMath.PI / 3 else - JsMath.PI / 3), speedMod)
            else if String.eqb strategyApproach "pincer" then
              ret (baseAngle + (if N.eqb (agentNum mod 2) 0
                                then JsMath.PI / 2.5 else - JsMath.PI / 2.5), speedMod)
            else if String.eqb strategyApproach "dispersed" then
              r <- Math_random ;;
              ret (baseAngle + (r - 0.5) * JsMath.PI / 2, speedMod)
            else if String.eqb strategyApproach "concentrated" then
              ret (baseAngle + sin (timeElapsed + IZR (Z.of_N agentNum)) * 0.3,
                   speedMod)
            else if String.eqb strategyApproach "hitrun" then
              (if Rltb dist 80
               then ret (baseAngle + JsMath.PI, speedMod * 1.5)
               else ret (baseAngle, speedMod))
            else ret (baseAngle, speedMod)) ;;
      ret (mkBehavior (cos (fst p) * snd p) (sin (fst p) * snd p))
  end.

(** The closure of the [useSimulation] hook. *)
Section Simulation.

Variable policy : Policy.t.
Variable logistics : Logistics.t.
Variable currentStrategy : string.

Definition aggressionMod : R :=
  match Policy.roe policy with
  | defensive => 0.5
  | aggressive => 1.5
  | standard => 1
  end.

(** [Math.max(0, Math.min(GRID_SIZE, v))] *)
Definition clamp (v : R) : R := JsMath.max 0 (JsMath.min GRID_SIZE v).

(** *** updateMultiTheater *)

(** The callback of the movement [map]; [snapshot] is [theater.agents]. *)
Definition moveMultiTheater (snapshot : list Agent.t) (agent : Agent.t)
  : Rand Agent.t :=
  if Agent.is_active_blue agent then
    let redTargets := filter Agent.is_live_red snapshot in
    match findNearest agent redTargets with
    | None => ret agent
    | Some nearest =>
        behavior <- getStrategyBehavior agent (Some nearest) currentStrategy None ;;
        let newVx := vx behavior * aggressionMod in
        let newVy := vy behavior * aggressionMod in
        let transportMod := Logistics.transportCapacity logistics / 100 in
        let newX := Agent.x agent + newVx * transportMod in
        let newY := Agent.y agent + newVy * transportMod in
        ret (Agent.with_motion agent newVx newVy (clamp newX) (clamp newY))
    end
  else ret agent.

(** The damage of one hit: [HIT_DAMAGE], halved when defensive, times
    1.5 when aggressive. *)
Definition hitDamage : R :=
  match Policy.roe policy with
  | defensive => HIT_DAMAGE * 0.5
  | aggressive => HIT_DAMAGE * 1.5
  | standard => HIT_DAMAGE
  end.

(** The body of [for (const blueAgent of blueAgents)]. *)
Definition rollDamage (agent : Agent.t) (totalDamage : R) (blueAgent : Agent.t)
  : Rand R :=
  if Rltb (distance agent blueAgent) ENGAGEMENT_DISTANCE then
    let hitChance := Logistics.commsReliability logistics / 100 in
    r <- Math_random ;;
    if Rltb r hitChance then ret (totalDamage + hitDamage) else ret totalDamage
  else ret totalDamage.

(** The callback of the damage [map]; [updatedAgents] is the result of
    the movement [map]. *)
Definition damageMultiTheater (updatedAgents : list Agent.t) (agent : Agent.t)
  : Rand Agent.t :=
  match Agent.attrs_of agent with
  | RedAttrs health =>
      if Rltb 0 health then
        let blueAgents := filter Agent.is_active_blue updatedAgents in
        totalDamage <- foldM (rollDamage agent) blueAgents 0 ;;
        if Rltb 0 totalDamage
        then ret (Agent.with_health agent (JsMath.max 0 (health - totalDamage)))
        else ret agent
      else ret agent
  | BlueAttrs _ _ _ _ _ => ret agent
  end.

Definition updateTheater (theater : Theater.t) : Rand Theater.t :=
  updatedAgents <- mapM (moveMultiTheater (Theater.agents theater))
                        (Theater.agents theater) ;;
  finalAgents <- mapM (damageMultiTheater updatedAgents) updatedAgents ;;
  ret (Theater.mk (Theater.id theater) (Theater.name theater) finalAgents
                  (Theater.priority theater)).

Definition updateMultiTheater (prevTheaters : list Theater.t)
  : Rand (list Theater.t) :=
  mapM updateTheater prevTheaters.

(** *** updateStandardMode *)

Definition moveStandardMode (prevAgents : list Agent.t) (agent : Agent.t)
  : Rand Agent.t :=
  if Agent.is_active_blue agent then
    let redTargets := filter Agent.is_live_red prevAgents in
    match findNearest agent redTargets with
    | None => ret agent
    | Some nearest =>
        behavior <- getStrategyBehavior agent (Some nearest) currentStrategy None ;;
        let newX := Agent.x agent + vx behavior in
        let newY := Agent.y agent + vy behavior in
        ret (Agent.with_motion agent (vx behavior) (vy behavior)
                               (clamp newX) (clamp newY))
    end
  else ret agent.

(** The body of [for (const blueAgent of blueAgents)]: no roll. *)
Definition flatDamage (agent : Agent.t) (totalDamage : R) (blueAgent : Agent.t)
  : R :=
  if Rltb (distance agent blueAgent) ENGAGEMENT_DISTANCE
  then totalDamage + HIT_DAMAGE else totalDamage.

Definition damageStandardMode (updatedAgents : list Agent.t) (agent : Agent.t)
  : Agent.t :=
  match Agent.attrs_of agent with
  | RedAttrs health =>
      if Rltb 0 health then
        let blueAgents := filter Agent.is_active_blue updatedAgents in
        let totalDamage := fold_left (flatDamage agent) blueAgents 0 in
        if Rltb 0 totalDamage
        then Agent.with_health agent (JsMath.max 0 (health - totalDamage))
        else agent
      else agent
  | BlueAttrs _ _ _ _ _ => agent
  end.

Definition updateStandardMode (prevAgents : list Agent.t) : Rand (list Agent.t) :=
  updatedAgents <- mapM (moveStandardMode prevAgents) prevAgents ;;
  ret (map (damageStandardMode updatedAgents) updatedAgents).

End Simulation.

(** *** Initialisation: initMultiTheater and initStandardMode *)

(** [`${n}`] *)
Definition nat_to_string (n : nat) : string :=
  NilEmpty.string_of_uint (Nat.to_uint n).

(** [Math.floor(Math.random() * k)] as a count. *)
Definition random_below (k : R) : Rand nat :=
  r <- Math_random ;; ret (Z.to_nat (JsMath.floor (r * k))).

Definition theater_names : list string :=
  [ "Northern Front"; "Eastern Sector"; "Southern Theater"; "Western Zone" ]%string.

Definition newTheaterBlue (t i : nat) : Rand Agent.t :=
  rx <- Math_random ;;
  ry <- Math_random ;;
  ret (Agent.mk ("t" ++ nat_to_string t ++ "-b" ++ nat_to_string i)%string
                (rx * GRID_SIZE * 0.25) (ry * GRID_SIZE)
                (BlueAttrs 0 0 true (Some 100) (Some 100))).

Definition newTheaterRed (t i : nat) : Rand Agent.t :=
  rx <- Math_random ;;
  ry <- Math_random ;;
  ret (Agent.mk ("t" ++ nat_to_string t ++ "-r" ++ nat_to_string i)%string
                (GRID_SIZE * 0.7 + rx * GRID_SIZE * 0.25) (ry * GRID_SIZE)
                (RedAttrs 100)).

Definition newTheater (t : nat) : Rand Theater.t :=
  k <- random_below 5 ;;
  let numAgents := (8 + k)%nat in
  k' <- random_below 3 ;;
  let numTargets := (2 + k')%nat in
  blues <- mapM (newTheaterBlue t) (seq 0 numAgents) ;;
  reds <- mapM (newTheaterRed t) (seq 0 numTargets) ;;
  p <- Math_random ;;
  ret (Theater.mk t (nth t theater_names ""%string) (blues ++ reds) p).

Definition initMultiTheater : Rand (list Theater.t) :=
  mapM newTheater (seq 0 NUM_THEATERS).

Definition newStandardBlue (i : nat) : Rand Agent.t :=
  rx <- Math_random ;;
  ry <- Math_random ;;
  ret (Agent.mk ("b" ++ nat_to_string i)%string
                (rx * GRID_SIZE * 0.3) (ry * GRID_SIZE)
                (BlueAttrs 0 0 true None None)).

Definition newStandardRed (i : nat) : Rand Agent.t :=
  rx <- Math_random ;;
  ry <- Math_random ;;
  ret (Agent.mk ("r" ++ nat_to_string i)%string
                (GRID_SIZE * 0.7 + rx * GRID_SIZE * 0.2) (ry * GRID_SIZE)
                (RedAttrs 100)).

Definition initStandardMode : Rand (list Agent.t) :=
  blues <- mapM newStandardBlue (seq 0 20) ;;
  reds <- mapM newStandardRed (seq 0 6) ;;
  ret (blues ++ reds).

(** *** A run: initialisation, then one update per tick *)

Definition runMultiTheater (ticks : list tick_settings) (theaters : list Theater.t)
  : Rand (list Theater.t) :=
  foldM (fun w t =>
           updateMultiTheater (tick_policy t) (tick_logistics t) (tick_strategy t) w)
        ticks theaters.

Definition runStandardMode (ticks : list tick_settings) (agents : list Agent.t)
  : Rand (list Agent.t) :=
  foldM (fun w t => updateStandardMode (tick_strategy t) w) ticks agents.

Definition simulateMultiTheater (ticks : list tick_settings) : Rand (list Theater.t) :=
  theaters <- initMultiTheater ;; runMultiTheater ticks theaters.

Definition simulateStandardMode (ticks : list tick_settings) : Rand (list Agent.t) :=
  agents <- initStandardMode ;; runStandardMode ticks agents.

End Engine.

(* ------------------------------------------------------------------ *)
(** ** The metrics engine: updateMissionMetrics *)

Module MissionMetrics.
Record t : Type :=
  mk { successProbability : R;
       predictedCasualties : Z;
       timeToObjective : jsnumber;
       resourceConsumption : Z;
       coverageGaps : list string }.
End MissionMetrics.

(** [mode === 'multi-theater' ? theaters.flatMap(t => t.agents) : agents] *)
Definition allAgents (mode : mode_t) (theaters : list Theater.t)
    (agents : list Agent.t) : list Agent.t :=
  match mode with
  | multi_theater => flat_map Theater.agents theaters
  | standard_mode => agents
  end.

Definition updateMissionMetrics (mode : mode_t) (theaters : list Theater.t)
    (agents : list Agent.t) (policy : Policy.t) (logistics : Logistics.t)
  : MissionMetrics.t :=
  let allAgents := allAgents mode theaters agents in
  let activeBlue := INR (List.length (filter Agent.is_active_blue allAgents)) in
  let activeRed := INR (List.length (filter Agent.is_live_red allAgents)) in
  let forceRatio := activeBlue / JsMath.max activeRed 1 in
  let policyMod := Policy.forceLevel policy / 100 in
  let logisticsMod :=
    (Logistics.supplyRate logistics + Logistics.commsReliability logistics) / 200 in
  let baseProb := BASE_SUCCESS_PROBABILITY + (forceRatio - 1) * 30 in
  let baseProb := baseProb * (policyMod * logisticsMod) in
  let baseProb :=
    match Policy.roe policy with defensive => baseProb * 0.8 | _ => baseProb end in
  let baseProb :=
    match Policy.roe policy with aggressive => baseProb * 1.2 | _ => baseProb end in
  MissionMetrics.mk
    (JsMath.min 100 (JsMath.max 0 baseProb))
    (JsMath.floor (activeBlue * (1 - policyMod) * 0.3))
    (js_floor (js_div 100 (logisticsMod * 2)))
    (JsMath.floor (100 - Logistics.supplyRate logistics))
    (if Rltb (Policy.forceLevel policy) 80
     then [ "Sector B"; "Eastern Flank" ]%string else []).

(* ------------------------------------------------------------------ *)
(** ** The COA explorer: the leaderboard of useStrategyEvaluation *)

Module COA.
(** [strategy] is present in the periodic-switch variant only; [time] is
    the elapsed time (its [toFixed(1)] rendering is not modelled). *)
Record t : Type :=
  mk { id : Z; name : string; strategy : option string; score : R; time : R }.
End COA.

(** [Array.prototype.sort] with the comparator [(a, b) => b.score - a.score]:
    the stable sort in descending order of score, written as the insertion
    of each element, left to right, behind the elements that are not
    smaller. *)
Fixpoint insert_by_score (c : COA.t) (l : list COA.t) : list COA.t :=
  match l with
  | [] => [c]
  | h :: rest =>
      if Rltb (COA.score h) (COA.score c) then c :: h :: rest
      else h :: insert_by_score c rest
  end.

Definition sort_by_score (l : list COA.t) : list COA.t :=
  fold_left (fun sorted c => insert_by_score c sorted) l [].

(** [[...prev, newCOA].sort((a, b) => b.score - a.score).slice(0, capacity)] *)
Definition leaderboard_push (capacity : nat) (prev : list COA.t) (newCOA : COA.t)
  : list COA.t :=
  firstn capacity (sort_by_score (prev ++ [newCOA])).

Record evaluation : Type :=
  mkEvaluation { exploredCOAs : nat; bestCOAs : list COA.t }.

(** [resetEvaluation], also the initial state of the hook. *)
Definition resetEvaluation : evaluation := mkEvaluation 0 [].

(** The arguments of one call of [evaluateCurrentStrategy]; [now] is the
    value of [Date.now()] at the call. *)
Record evaluation_call : Type :=
  mkCall { call_strategy : string;
           call_mode : mode_t;
           call_theaters : list Theater.t;
           call_agents : list Agent.t;
           call_policy : Policy.t;
           call_logistics : Logistics.t;
           call_timeElapsed : R;
           call_now : Z }.

(** *** Periodic-switch variant ([App.jsx]): top 10 *)

Module Periodic.

Definition capacity : nat := 10.

Section Evaluation.

Variable rand : nat -> R.

(** The loop over [blueAgents]: [(totalDistance, validAgents)]. *)
Definition distance_step (redTargets : list Agent.t) (acc : R * nat)
    (agent : Agent.t) : R * nat :=
  match findNearest agent redTargets with
  | Some nearest => (fst acc + distance agent nearest, S (snd acc))
  | None => acc
  end.

Definition evaluateCurrentStrategy (call : evaluation_call) (st : evaluation)
  : Rand evaluation :=
  let allAgents :=
    allAgents (call_mode call) (call_theaters call) (call_agents call) in
  let blueAgents := filter Agent.is_active_blue allAgents in
  let redTargets := filter Agent.is_live_red allAgents in
  if Nat.eqb (List.length blueAgents) 0 then ret st
  else
    let '(totalDistance, validAgents) :=
      fold_left (distance_step redTargets) blueAgents (0, 0%nat) in
    if Nat.eqb validAgents 0 then ret st
    else
      let avgDistToTarget := totalDistance / INR validAgents in
      let proximityScore := JsMath.max 0 (100 - avgDistToTarget / 5) in
      let policyBonus := Policy.forceLevel (call_policy call) / 100 * 20 in
      let logisticsBonus :=
        Logistics.commsReliability (call_logistics call) / 100 * 15 in
      r <- Math_random rand ;;
      let totalScore :=
        IZR (JsMath.floor ((proximityScore * 0.6 + policyBonus + logisticsBonus)
                           * (r * 0.3 + 0.85))) in
      let strategyName :=
        match find (fun s => String.eqb (Strategy.approach s) (call_strategy call))
                   strategies with
        | Some s => Strategy.name s
        | None => "Unknown"%string
        end in
      let newCOA :=
        COA.mk (call_now call)
               ("COA-" ++ nat_to_string (exploredCOAs st))%string
               (Some strategyName)
               (JsMath.min 100 (JsMath.max 0 totalScore))
               (call_timeElapsed call) in
      ret (mkEvaluation (S (exploredCOAs st))
                        (leaderboard_push capacity (bestCOAs st) newCOA)).

(** Any number of evaluations, from the reset state. *)
Definition run (calls : list evaluation_call) : Rand evaluation :=
  foldM (fun st call => evaluateCurrentStrategy call st) calls resetEvaluation.

End Evaluation.

End Periodic.

(** *** Continuous-exploration variant (ORION TX): top 50 *)

Module Continuous.

Definition capacity : nat := 50.

Section Evaluation.

Variable rand : nat -> R.

Definition evaluateCurrentStrategy (call : evaluation_call) (st : evaluation)
  : Rand evaluation :=
  r <- Math_random rand ;;
  let score :=
    (r * 0.5
     + Policy.forceLevel (call_policy call) / 100 * 0.3
     + Logistics.supplyRate (call_logistics call) / 100 * 0.2) * 100 in
  let result :=
    COA.mk (Z.of_nat (exploredCOAs st + 1)) (call_strategy call) None
           score (call_timeElapsed call) in
  ret (mkEvaluation (S (exploredCOAs st))
                    (leaderboard_push capacity (bestCOAs st) result)).

Definition run (calls : list evaluation_call) : Rand evaluation :=
  foldM (fun st call => evaluateCurrentStrategy call st) calls resetEvaluation.

End Evaluation.

End Continuous.

(* ------------------------------------------------------------------ *)
(** ** Predicates and reference formulas used in the statements *)

(** A pass written as a loop that updates the roster in place: the callback
    of an agent reads the roster in which the agents before it are already
    updated ([done]) and the others are not yet ([todo]). *)
Fixpoint in_place (f : list Agent.t -> Agent.t -> Rand Agent.t)
    (done todo : list Agent.t) : Rand (list Agent.t) :=
  match todo with
  | [] => ret done
  | a :: rest => a' <- f (done ++ a :: rest) a ;; in_place f (done ++ [a']) rest
  end.

(** The tick of standard mode as the specification words it: the damage
    pass, too, reads the pre-pass snapshot [prevAgents]. *)
Definition prepass_updateStandardMode (rand : nat -> R) (currentStrategy : string)
    (prevAgents : list Agent.t) : Rand (list Agent.t) :=
  updatedAgents <- mapM (moveStandardMode rand currentStrategy prevAgents) prevAgents ;;
  ret (map (damageStandardMode prevAgents) updatedAgents).

(** The bearing from [agent] to [target]. *)
Definition bearing (agent target : Agent.t) : R :=
  JsMath.atan2 (Agent.y target - Agent.y agent) (Agent.x target - Agent.x agent).

(** The agent is inside the arena. *)
Definition in_arena (a : Agent.t) : Prop :=
  0 <= Agent.x a <= GRID_SIZE /\ 0 <= Agent.y a <= GRID_SIZE.

(** Every agent of the theater is inside the arena. *)
Definition theater_in_arena (theater : Theater.t) : Prop :=
  Forall in_arena (Theater.agents theater).

(** How a damage pass may change one agent: a red agent keeps everything
    but its health, which does not grow and stays non-negative when it was;
    a blue agent is returned as it is. *)
Definition health_step (before after : Agent.t) : Prop :=
  match Agent.health before with
  | Some h =>
      exists h', Agent.health after = Some h' /\ h' <= h /\ (0 <= h -> 0 <= h')
  | None => after = before
  end.

(** The two outcomes of a damage callback: the agent as it was, or a living
    red agent whose health lost a positive total damage, floored at 0. *)
Definition damaged (before after : Agent.t) : Prop :=
  after = before \/
  exists h d, Agent.attrs_of before = RedAttrs h /\ 0 < h /\ 0 < d /\
              after = Agent.with_health before (JsMath.max 0 (h - d)).

(** The health of a red agent is between 0 and 100. *)
Definition health_in_range (a : Agent.t) : Prop :=
  match Agent.health a with
  | Some h => 0 <= h <= 100
  | None => True
  end.

Definition score_desc (a b : COA.t) : Prop := COA.score b <= COA.score a.

(** The leaderboard invariant: sorted in descending order of score and no
    longer than the capacity. *)
Definition leaderboard_ok (capacity : nat) (l : list COA.t) : Prop :=
  StronglySorted score_desc l /\ (List.length l <= capacity)%nat.

(** The success probability as the specification words it, from the two
    counts and the policy and logistics inputs. *)
Definition spec_successProbability (activeBlueCount activeRedCount : nat)
    (forceLevel supplyRate commsReliability : R) (roe : roe_t) : R :=
  let forceRatio := INR activeBlueCount / Rmax 1 (INR activeRedCount) in
  let baseProbability := 50 + (forceRatio - 1) * 30 in
  let scaled :=
    baseProbability * ((forceLevel / 100) * ((supplyRate + commsReliability) / 200)) in
  let scaled :=
    match roe with
    | defensive => scaled * 0.8
    | aggressive => scaled * 1.2
    | standard => scaled
    end in
  if Rlt_dec scaled 0 then 0 else if Rlt_dec 100 scaled then 100 else scaled.

Definition activeBlueCount (mode : mode_t) (theaters : list Theater.t)
    (agents : list Agent.t) : nat :=
  List.length (filter Agent.is_active_blue (allAgents mode theaters agents)).

Definition activeRedCount (mode : mode_t) (theaters : list Theater.t)
    (agents : list Agent.t) : nat :=
  List.length (filter Agent.is_live_red (allAgents mode theaters agents)).


(* ------------------------------------------------------------------ *)
(** ** Predicates on rosters, theaters and runs *)

(** What a tick may change of one agent.  The id stays.  A blue agent keeps
    its [active] flag and its gauges, and is returned as it is when it is
    not active.  A red agent keeps its position; its health does not grow,
    stays non-negative when it was, and stays as it is when it is not
    positive. *)
Definition evolves (before after : Agent.t) : Prop :=
  Agent.id after = Agent.id before /\
  match Agent.attrs_of before with
  | BlueAttrs _ _ act fuel ammo =>
      (exists vx' vy', Agent.attrs_of after = BlueAttrs vx' vy' act fuel ammo) /\
      (act = false -> after = before)
  | RedAttrs h =>
      exists h',
        h' <= h /\ (0 <= h -> 0 <= h') /\ (h <= 0 -> h' = h) /\
        after = Agent.mk (Agent.id before) (Agent.x before) (Agent.y before)
                         (RedAttrs h')
  end.

(** A theater keeps its id, name and priority, and its agents evolve one
    by one. *)
Definition theater_evolves (before after : Theater.t) : Prop :=
  Theater.id after = Theater.id before /\
  Theater.name after = Theater.name before /\
  Theater.priority after = Theater.priority before /\
  Forall2 evolves (Theater.agents before) (Theater.agents after).

(** The numbers of active blue and of living red agents of a roster. *)
Definition count_active_blue (agents : list Agent.t) : nat :=
  List.length (filter Agent.is_active_blue agents).

Definition count_live_red (agents : list Agent.t) : nat :=
  List.length (filter Agent.is_live_red agents).

(** No two strings of the list are equal. *)
Fixpoint distinct (l : list string) : bool :=
  match l with
  | [] => true
  | s :: rest => negb (existsb (String.eqb s) rest) && distinct rest
  end.

(** The numbers of a theater of a run: 8 to 12 active blue agents, at most
    4 living red agents, 10 to 16 agents in all. *)
Definition theater_counts (theater : Theater.t) : Prop :=
  (8 <= count_active_blue (Theater.agents theater) <= 12)%nat /\
  (count_live_red (Theater.agents theater) <= 4)%nat /\
  (10 <= List.length (Theater.agents theater) <= 16)%nat.

(** A new agent of standard mode: a blue agent is active, at rest, without
    gauges, in the western 30% of the arena; a red agent has health 100 and
    is between 70% and 90% of the width. *)
Definition placed_standard (a : Agent.t) : Prop :=
  0 <= Agent.y a < 400 /\
  match Agent.attrs_of a with
  | BlueAttrs vx vy act fuel ammo =>
      vx = 0 /\ vy = 0 /\ act = true /\ fuel = None /\ ammo = None /\
      0 <= Agent.x a < 120
  | RedAttrs h => h = 100 /\ 280 <= Agent.x a <= 360
  end.

(** A new agent of a theater: a blue agent is active, at rest, with full
    gauges, in the western quarter of the arena; a red agent has health 100
    and is between 70% and 95% of the width. *)
Definition placed_theater (a : Agent.t) : Prop :=
  0 <= Agent.y a < 400 /\
  match Agent.attrs_of a with
  | BlueAttrs vx vy act fuel ammo =>
      vx = 0 /\ vy = 0 /\ act = true /\ fuel = Some 100 /\ ammo = Some 100 /\
      0 <= Agent.x a < 100
  | RedAttrs h => h = 100 /\ 280 <= Agent.x a <= 380
  end.

(** The ids of a roster of standard mode and of theater [t] with [blues]
    blue and [reds] red agents. *)
Definition standard_ids (blues reds : nat) : list string :=
  map (fun i => "b" ++ nat_to_string i)%string (seq 0 blues)
  ++ map (fun i => "r" ++ nat_to_string i)%string (seq 0 reds).

Definition theater_ids (t blues reds : nat) : list string :=
  map (fun i => "t" ++ nat_to_string t ++ "-b" ++ nat_to_string i)%string (seq 0 blues)
  ++ map (fun i => "t" ++ nat_to_string t ++ "-r" ++ nat_to_string i)%string
         (seq 0 reds).

(** The speed of the steering table for a strategy identifier and a
    distance to the target. *)
Definition speed_of (strategyApproach : string) (dist : R) : R :=
  if String.eqb strategyApproach "flank" then 2
  else if String.eqb strategyApproach "pincer" then 2
  else if String.eqb strategyApproach "dispersed" then 1.8
  else if String.eqb strategyApproach "concentrated" then 3
  else if String.eqb strategyApproach "hitrun" then
    (if Rltb dist 80 then 3.5 * 1.5 else 3.5)
  else 2.5.

(** [after] is within [d] of [before]. *)
Definition within (d : R) (before after : Agent.t) : Prop :=
  (Agent.x after - Agent.x before) * (Agent.x after - Agent.x before)
  + (Agent.y after - Agent.y before) * (Agent.y after - Agent.y before) <= d * d.


(** A call of the periodic evaluation records a COA when the world it is
    given has an active blue agent and a living red agent. *)
Definition recordable (call : evaluation_call) : bool :=
  let agents := allAgents (call_mode call) (call_theaters call) (call_agents call) in
  negb (Nat.eqb (count_active_blue agents) 0)
  && negb (Nat.eqb (count_live_red agents) 0).

(** The active blue agents of [roster] within the engagement distance of
    [agent]. *)
Definition attackers (roster : list Agent.t) (agent : Agent.t) : list Agent.t :=
  filter (fun b => Rltb (distance agent b) ENGAGEMENT_DISTANCE)
         (filter Agent.is_active_blue roster).

(** The roster of standard mode [j] ticks after initialisation, before any
    contact: every agent is inside the arena, the blue agents are west of
    [120 + 5.25 j] and the red agents, unharmed, east of 280. *)
Definition approaching (j : nat) (a : Agent.t) : Prop :=
  in_arena a /\
  match Agent.attrs_of a with
  | BlueAttrs _ _ _ _ _ => Agent.x a < 120 + 5.25 * INR j
  | RedAttrs h => h = 100 /\ 280 <= Agent.x a
  end.

(* ------------------------------------------------------------------ *)
(** ** The control loop of [App.jsx] *)

(** The state of the component that the interval callback reads and
    updates. *)
Module App.
Record state : Type :=
  mk { timeElapsed : R;
       strategyTimer : R;
       currentStrategy : string;
       theaters : list Theater.t;
       agents : list Agent.t;
       missionMetrics : MissionMetrics.t;
       evaluation : evaluation }.
End App.

(** What the user interface holds at one run of the callback: the policy
    and the logistics of the sliders, and the value of [Date.now()]. *)
Record tick_inputs : Type :=
  mkInputs { input_policy : Policy.t; input_logistics : Logistics.t; input_now : Z }.

Section ControlLoop.

Variable rand : nat -> R.
Variable mode : mode_t.

(** One run of the callback of [setInterval].  The callback is created anew
    after every render (the effect depends on [strategyTimer], which every
    run changes), so it reads the state [s] of the last render; the
    updates it queues are applied in order after it returns: the timer
    ends at 0 on a switch, the world is updated with the strategy that was
    current when the callback was created, and the metrics are computed from
    the world as it was then. *)
Definition interval_callback (inputs : tick_inputs) (s : App.state)
  : Rand App.state :=
  let policy := input_policy inputs in
  let logistics := input_logistics inputs in
  r <- Math_random rand ;;
  switched <-
    (if Rltb (STRATEGY_SWITCH_TIME_min
              + r * (STRATEGY_SWITCH_TIME_max - STRATEGY_SWITCH_TIME_min))
             (App.strategyTimer s)
     then
       r' <- Math_random rand ;;
       let newStrategy :=
         nth (Z.to_nat (JsMath.floor (r' * INR (List.length strategies))))
             strategies direct_assault in
       ev <- Periodic.evaluateCurrentStrategy rand
               (mkCall (Strategy.approach newStrategy) mode (App.theaters s)
                       (App.agents s) policy logistics (App.timeElapsed s)
                       (input_now inputs))
               (App.evaluation s) ;;
       ret (Strategy.approach newStrategy, 0, ev)
     else ret (App.currentStrategy s, App.strategyTimer s + 0.1, App.evaluation s)) ;;
  world <-
    (match mode with
     | multi_theater =>
         theaters <- updateMultiTheater rand policy logistics (App.currentStrategy s)
                                        (App.theaters s) ;;
         ret (theaters, App.agents s)
     | standard_mode =>
         agents <- updateStandardMode rand (App.currentStrategy s) (App.agents s) ;;
         ret (App.theaters s, agents)
     end) ;;
  ret (App.mk (App.timeElapsed s + 0.1)
              (snd (fst switched))
              (fst (fst switched))
              (fst world) (snd world)
              (updateMissionMetrics mode (App.theaters s) (App.agents s)
                                    policy logistics)
              (snd switched)).

(** [handleInitializeMode]: the clock, the timer and the evaluation are
    reset and the roster of the mode is created; the roster of the other
    mode and the current strategy stay as they are. *)
Definition handleInitializeMode (s : App.state) : Rand App.state :=
  world <-
    (match mode with
     | multi_theater => theaters <- initMultiTheater rand ;; ret (theaters, App.agents s)
     | standard_mode => agents <- initStandardMode rand ;; ret (App.theaters s, agents)
     end) ;;
  ret (App.mk 0 0 (App.currentStrategy s) (fst world) (snd world)
              (App.missionMetrics s) resetEvaluation).

(** A run of the loop: initialisation of the mode, then one callback per
    interval. *)
Definition run_loop (s : App.state) (ticks : list tick_inputs) : Rand App.state :=
  s0 <- handleInitializeMode s ;;
  foldM (fun st inputs => interval_callback inputs st) ticks s0.

End ControlLoop.

(* ------------------------------------------------------------------ *)
(** ** Passes that visit the agents in another order *)

(** [roster[i] = a]; nothing is written outside the roster. *)
Fixpoint write (i : nat) (a : Agent.t) (roster : list Agent.t) : list Agent.t :=
  match roster, i with
  | [], _ => []
  | _ :: rest, O => a :: rest
  | b :: rest, S j => b :: write j a rest
  end.

(** A pass that visits the agents in the order [order], a list of indices
    into the roster, and writes the result of each callback at the index of
    its agent; the random numbers are drawn in visiting order.
    [visit_snapshot] hands every callback the roster as it was before the
    pass, [visit_in_place] the roster as updated so far. *)
Fixpoint visit_snapshot (f : list Agent.t -> Agent.t -> Rand Agent.t)
    (snapshot : list Agent.t) (order : list nat) (result : list Agent.t)
  : Rand (list Agent.t) :=
  match order with
  | [] => ret result
  | i :: rest =>
      match nth_error snapshot i with
      | Some a => a' <- f snapshot a ;; visit_snapshot f snapshot rest (write i a' result)
      | None => visit_snapshot f snapshot rest result
      end
  end.

Fixpoint visit_in_place (f : list Agent.t -> Agent.t -> Rand Agent.t)
    (order : list nat) (roster : list Agent.t) : Rand (list Agent.t) :=
  match order with
  | [] => ret roster
  | i :: rest =>
      match nth_error roster i with
      | Some a => a' <- f roster a ;; visit_in_place f rest (write i a' roster)
      | None => visit_in_place f rest roster
      end
  end.

(** [order] visits every agent of the roster once. *)
Definition visiting_order (order : list nat) (roster : list Agent.t) : Prop :=
  Permutation order (seq 0 (List.length roster)).

(** The order of [Array.prototype.map]. *)
Definition roster_order (roster : list Agent.t) : list nat :=
  seq 0 (List.length roster).

(** The ticks with the movement pass visiting the agents in the order
    [moveOrder] and the damage pass in the order [damageOrder], both
    updating the roster in place. *)
Definition visitStandardMode (rand : nat -> R) (currentStrategy : string)
    (moveOrder damageOrder : list nat) (prevAgents : list Agent.t)
  : Rand (list Agent.t) :=
  updatedAgents <- visit_in_place (moveStandardMode rand currentStrategy)
                                  moveOrder prevAgents ;;
  visit_in_place (fun s a => ret (damageStandardMode s a)) damageOrder updatedAgents.

Definition visitTheater (rand : nat -> R) (policy : Policy.t) (logistics : Logistics.t)
    (currentStrategy : string) (moveOrder damageOrder : list nat)
    (theater : Theater.t) : Rand Theater.t :=
  updatedAgents <- visit_in_place (moveMultiTheater rand policy logistics currentStrategy)
                                  moveOrder (Theater.agents theater) ;;
  finalAgents <- visit_in_place (damageMultiTheater rand policy logistics)
                                damageOrder updatedAgents ;;
  ret (Theater.mk (Theater.id theater) (Theater.name theater) finalAgents
                  (Theater.priority theater)).

(* ------------------------------------------------------------------ *)
(** ** Sample inputs *)

(** The oracle whose every draw is 1/2. *)
Definition half : nat -> R := fun _ => / 2.

Definition two_ticks : list tick_settings :=
  [ mkTick (Policy.mk 100 standard "balanced" 50) (Logistics.mk 100 100 100 100) "direct";
    mkTick (Policy.mk 60 aggressive "balanced" 50) (Logistics.mk 80 100 90 150)
           "dispersed" ].

Definition two_runs : list tick_inputs :=
  [ mkInputs (Policy.mk 100 standard "balanced" 50) (Logistics.mk 100 100 100 100) 1000;
    mkInputs (Policy.mk 60 aggressive "balanced" 50) (Logistics.mk 80 100 90 150) 1100 ].

(** The state of the component at its first render. *)
Definition first_render : App.state :=
  App.mk 0 0 "direct" [] [] (MissionMetrics.mk 75 0 (Finite 0) 0 []) resetEvaluation.

(* ================================================================== *)
(** * Properties *)

(* ------------------------------------------------------------------ *)
(** ** Comparisons and clamping *)

Lemma Rltb_true (a b : R) : Rltb a b = true <-> a < b.
Proof.
  unfold Rltb. destruct (Rlt_dec a b); split; intro H; try easy; discriminate.
Qed.

Lemma Rltb_false (a b : R) : Rltb a b = false <-> b <= a.
Proof.
  unfold Rltb. destruct (Rlt_dec a b); split; intro H; try easy; try lra.
Qed.

(** Decides the comparisons of the goal that [lra] settles. *)
Ltac rltb :=
  repeat match goal with
  | |- context [Rltb ?a ?b] =>
      first [ rewrite (proj2 (Rltb_true a b)) by lra
            | rewrite (proj2 (Rltb_false a b)) by lra ]
  end.

Lemma clamp_bounds (v : R) : 0 <= clamp v <= GRID_SIZE.
Proof.
  unfold clamp, JsMath.max, JsMath.min, GRID_SIZE, Rmax, Rmin.
  destruct (Rle_dec 400 v); destruct (Rle_dec 0 _); lra.
Qed.

Lemma clamp_id (v : R) : 0 <= v <= GRID_SIZE -> clamp v = v.
Proof.
  unfold clamp, JsMath.max, JsMath.min, GRID_SIZE, Rmax, Rmin.
  destruct (Rle_dec 400 v); destruct (Rle_dec 0 _); lra.
Qed.

(* ------------------------------------------------------------------ *)
(** ** The random monad *)

Lemma mapM_length {A B} (f : A -> Rand B) (xs : list A) (n : nat) :
  List.length (fst (mapM f xs n)) = List.length xs.
Proof.
  revert n. induction xs as [|a rest IH]; intro n; simpl; [reflexivity|].
  unfold bind. destruct (f a n) as [b n1].
  specialize (IH n1). destruct (mapM f rest n1) as [bs n2]. simpl in *.
  now rewrite IH.
Qed.

(** What holds of every call of the callback holds pointwise of the map. *)
Lemma mapM_Forall2 {A B} (P : A -> B -> Prop) (f : A -> Rand B) (xs : list A) :
  (forall a n, In a xs -> P a (fst (f a n))) ->
  forall n, Forall2 P xs (fst (mapM f xs n)).
Proof.
  induction xs as [|a rest IH]; intros H n; simpl; [constructor|].
  unfold bind. pose proof (H a n (or_introl eq_refl)) as Ha.
  destruct (f a n) as [b n1].
  assert (IH' := IH (fun a' m Hin => H a' m (or_intror Hin)) n1).
  destruct (mapM f rest n1) as [bs n2]. simpl in *. now constructor.
Qed.

(** A callback that draws nothing makes [mapM] a plain [map]. *)
Lemma mapM_pure {A B} (f : A -> Rand B) (g : A -> B) (xs : list A) :
  (forall a n, f a n = (g a, n)) ->
  forall n, mapM f xs n = (map g xs, n).
Proof.
  intros H. induction xs as [|a rest IH]; intro n; simpl; [reflexivity|].
  unfold bind. rewrite H, IH. reflexivity.
Qed.

Lemma Forall2_Forall_r {A B} (P : A -> Prop) (Q : B -> Prop) (R : A -> B -> Prop)
    (xs : list A) (ys : list B) :
  (forall a b, R a b -> P a -> Q b) ->
  Forall2 R xs ys -> Forall P xs -> Forall Q ys.
Proof.
  intros H F. induction F as [|a b xs ys Hab _ IH]; intro HP; constructor.
  - apply (H a b Hab). now inversion HP.
  - apply IH. now inversion HP.
Qed.

(* ------------------------------------------------------------------ *)
(** ** The leaderboard *)

Lemma insert_by_score_In (c x : COA.t) (l : list COA.t) :
  In x (insert_by_score c l) -> x = c \/ In x l.
Proof.
  induction l as [|h rest IH]; simpl.
  - intros [H|[]]; auto.
  - destruct (Rltb (COA.score h) (COA.score c)); simpl.
    + intros [H|[H|H]]; auto.
    + intros [H|H]; auto. destruct (IH H); auto.
Qed.

Lemma insert_by_score_sorted (c : COA.t) (l : list COA.t) :
  StronglySorted score_desc l -> StronglySorted score_desc (insert_by_score c l).
Proof.
  induction l as [|h rest IH]; intro S; simpl.
  - repeat constructor.
  - inversion S as [|? ? Srest Hall]; subst.
    destruct (Rltb (COA.score h) (COA.score c)) eqn:E.
    + apply Rltb_true in E. constructor; [assumption|].
      constructor; [unfold score_desc; lra|].
      rewrite Forall_forall in *. intros x Hx.
      specialize (Hall x Hx). unfold score_desc in *. lra.
    + apply Rltb_false in E. constructor; [now apply IH|].
      rewrite Forall_forall in *. intros x Hx.
      destruct (insert_by_score_In _ _ _ Hx) as [->|Hin]; [exact E|now apply Hall].
Qed.

Lemma sort_by_score_sorted (l : list COA.t) : StronglySorted score_desc (sort_by_score l).
Proof.
  unfold sort_by_score.
  assert (G : forall acc, StronglySorted score_desc acc ->
            StronglySorted score_desc
              (fold_left (fun sorted c => insert_by_score c sorted) l acc)).
  { induction l as [|c rest IH]; intros acc S; simpl; [assumption|].
    apply IH. now apply insert_by_score_sorted. }
  apply G. constructor.
Qed.

Lemma In_firstn {A} (k : nat) (l : list A) (x : A) : In x (firstn k l) -> In x l.
Proof.
  revert k. induction l as [|h rest IH]; intros [|k]; simpl; try tauto.
  intros [H|H]; [now left|right; now apply (IH k)].
Qed.

Lemma firstn_sorted (k : nat) (l : list COA.t) :
  StronglySorted score_desc l -> StronglySorted score_desc (firstn k l).
Proof.
  revert k. induction l as [|h rest IH]; intros k S.
  - rewrite firstn_nil. constructor.
  - destruct k as [|k]; simpl; [constructor|].
    inversion S as [|? ? Srest Hall]; subst.
    constructor; [now apply IH|].
    rewrite Forall_forall in *. intros x Hx.
    apply Hall. now apply (In_firstn k).
Qed.

Lemma leaderboard_push_ok (capacity : nat) (prev : list COA.t) (c : COA.t) :
  leaderboard_ok capacity (leaderboard_push capacity prev c).
Proof.
  unfold leaderboard_ok, leaderboard_push. split.
  - apply firstn_sorted, sort_by_score_sorted.
  - apply firstn_le_length.
Qed.

Lemma foldM_invariant {A B} (I : B -> Prop) (f : B -> A -> Rand B) (xs : list A) :
  (forall b a n, I b -> I (fst (f b a n))) ->
  forall b n, I b -> I (fst (foldM f xs b n)).
Proof.
  intro H. induction xs as [|a rest IH]; intros b n Hb; simpl; [assumption|].
  unfold bind. pose proof (H b a n Hb) as Hf.
  destruct (f b a n) as [b' n']. now apply IH.
Qed.

Lemma periodic_evaluate_ok (rand : nat -> R) (call : evaluation_call)
    (st : evaluation) (n : nat) :
  leaderboard_ok Periodic.capacity (bestCOAs st) ->
  leaderboard_ok Periodic.capacity
    (bestCOAs (fst (Periodic.evaluateCurrentStrategy rand call st n))).
Proof.
  intro H. unfold Periodic.evaluateCurrentStrategy.
  destruct (Nat.eqb _ 0); [exact H|].
  destruct (fold_left _ _ _) as [totalDistance validAgents].
  destruct (Nat.eqb validAgents 0); [exact H|].
  unfold bind, Math_random, ret. simpl. apply leaderboard_push_ok.
Qed.

Lemma continuous_evaluate_ok (rand : nat -> R) (call : evaluation_call)
    (st : evaluation) (n : nat) :
  leaderboard_ok Continuous.capacity
    (bestCOAs (fst (Continuous.evaluateCurrentStrategy rand call st n))).
Proof.
  unfold Continuous.evaluateCurrentStrategy, bind, Math_random, ret. simpl.
  apply leaderboard_push_ok.
Qed.

(** C7.  After any number of strategy evaluations from the reset state,
    whatever the random draws, the leaderboard is sorted in descending order
    of score and holds at most its capacity: 10 entries in the
    periodic-switch variant, 50 in the continuous-exploration variant. *)
Theorem leaderboard_sorted_and_bounded
    (rand : nat -> R) (calls : list evaluation_call) (n : nat) :
  (StronglySorted score_desc (bestCOAs (fst (Periodic.run rand calls n))) /\
   (List.length (bestCOAs (fst (Periodic.run rand calls n))) <= 10)%nat) /\
  (StronglySorted score_desc (bestCOAs (fst (Continuous.run rand calls n))) /\
   (List.length (bestCOAs (fst (Continuous.run rand calls n))) <= 50)%nat).
Proof.
  split.
  - apply (foldM_invariant (fun st => leaderboard_ok Periodic.capacity (bestCOAs st))).
    + intros st call m H. now apply periodic_evaluate_ok.
    + split; [constructor|simpl; lia].
  - apply (foldM_invariant (fun st => leaderboard_ok Continuous.capacity (bestCOAs st))).
    + intros st call m _. apply continuous_evaluate_ok.
    + split; [constructor|simpl; lia].
Qed.

(* ------------------------------------------------------------------ *)
(** ** The metrics engine *)

Lemma successProbability_refines (mode : mode_t) (theaters : list Theater.t)
    (agents : list Agent.t) (policy : Policy.t) (logistics : Logistics.t) :
  MissionMetrics.successProbability
    (updateMissionMetrics mode theaters agents policy logistics)
  = spec_successProbability
      (activeBlueCount mode theaters agents) (activeRedCount mode theaters agents)
      (Policy.forceLevel policy) (Logistics.supplyRate logistics)
      (Logistics.commsReliability logistics) (Policy.roe policy).
Proof.
  unfold updateMissionMetrics, spec_successProbability, activeBlueCount, activeRedCount.
  cbn [MissionMetrics.successProbability].
  unfold JsMath.min, JsMath.max, BASE_SUCCESS_PROBABILITY.
  rewrite (Rmax_comm 1).
  set (p := (50 + _) * _).
  destruct (Policy.roe policy);
    match goal with
    | |- Rmin 100 (Rmax 0 ?q) = _ =>
        unfold Rmin, Rmax;
        destruct (Rle_dec 0 q); destruct (Rlt_dec q 0); destruct (Rlt_dec 100 q);
        destruct (Rle_dec 100 _); lra
    end.
Qed.

(** C3.  The success probability computed by [updateMissionMetrics] is the
    specified formula of the two counts, clamped to [0, 100]; and with
    forceLevel = supplyRate = commsReliability = 100, the standard rules of
    engagement, 10 active blue and 5 living red agents it is 80. *)
Theorem successProbability_formula :
  (forall mode theaters agents policy logistics,
      MissionMetrics.successProbability
        (updateMissionMetrics mode theaters agents policy logistics)
      = spec_successProbability
          (activeBlueCount mode theaters agents) (activeRedCount mode theaters agents)
          (Policy.forceLevel policy) (Logistics.supplyRate logistics)
          (Logistics.commsReliability logistics) (Policy.roe policy)) /\
  (forall mode theaters agents intent risk maintenance transport,
      activeBlueCount mode theaters agents = 10%nat ->
      activeRedCount mode theaters agents = 5%nat ->
      MissionMetrics.successProbability
        (updateMissionMetrics mode theaters agents
           (Policy.mk 100 standard intent risk)
           (Logistics.mk 100 maintenance 100 transport))
      = 80).
Proof.
  split; [exact successProbability_refines|].
  intros mode theaters agents intent risk maintenance transport Hb Hr.
  rewrite successProbability_refines, Hb, Hr.
  unfold spec_successProbability. cbn [Policy.forceLevel Policy.roe
    Logistics.supplyRate Logistics.commsReliability].
  replace (INR 10) with 10 by (simpl; lra).
  replace (INR 5) with 5 by (simpl; lra).
  replace (Rmax 1 5) with 5 by (unfold Rmax; destruct (Rle_dec 1 5); lra).
  match goal with
  | |- context [Rlt_dec ?q 0] =>
      replace q with 80 by field
  end.
  destruct (Rlt_dec 80 0); [lra|]. destruct (Rlt_dec 100 80); lra.
Qed.

(** The time to the objective, for every input: the floor of the quotient
    when the logistics factor is not zero, [Infinity] when it is. *)
Lemma timeToObjective_cases (mode : mode_t) (theaters : list Theater.t)
    (agents : list Agent.t) (policy : Policy.t) (logistics : Logistics.t) :
  let logisticsMod :=
    (Logistics.supplyRate logistics + Logistics.commsReliability logistics) / 200 in
  let t := MissionMetrics.timeToObjective
             (updateMissionMetrics mode theaters agents policy logistics) in
  (logisticsMod <> 0 -> t = Finite (IZR (JsMath.floor (100 / (logisticsMod * 2))))) /\
  (logisticsMod = 0 -> t = PosInfinity) /\
  (0 < logisticsMod -> exists k : Z, t = Finite (IZR k) /\ (0 <= k)%Z).
Proof.
  intros logisticsMod t. subst t. unfold updateMissionMetrics.
  cbn [MissionMetrics.timeToObjective]. fold logisticsMod.
  assert (F : logisticsMod <> 0 ->
              js_floor (js_div 100 (logisticsMod * 2))
              = Finite (IZR (JsMath.floor (100 / (logisticsMod * 2))))).
  { intro H. unfold js_div. destruct (Req_dec_T (logisticsMod * 2) 0); [lra|reflexivity]. }
  split; [exact F|]. split.
  - intro H. rewrite H. unfold js_div.
    destruct (Req_dec_T (0 * 2) 0); [|lra].
    destruct (Rlt_dec 0 100); [reflexivity|lra].
  - intro H. exists (JsMath.floor (100 / (logisticsMod * 2))). split; [apply F; lra|].
    unfold JsMath.floor, Int_part.
    assert (0 < 100 / (logisticsMod * 2)).
    { apply Rdiv_lt_0_compat; lra. }
    destruct (archimed (100 / (logisticsMod * 2))) as [Hu _].
    assert (0 < IZR (up (100 / (logisticsMod * 2)))) by lra.
    apply lt_IZR in H1. lia.
Qed.

(* ------------------------------------------------------------------ *)
(** ** The movement pass *)

Lemma with_motion_x (a : Agent.t) (nvx nvy nx ny : R) :
  Agent.x (Agent.with_motion a nvx nvy nx ny) = nx.
Proof. unfold Agent.with_motion. now destruct (Agent.attrs_of a). Qed.

Lemma with_motion_y (a : Agent.t) (nvx nvy nx ny : R) :
  Agent.y (Agent.with_motion a nvx nvy nx ny) = ny.
Proof. unfold Agent.with_motion. now destruct (Agent.attrs_of a). Qed.

Lemma with_motion_velocity (a : Agent.t) (nvx nvy nx ny : R) :
  Agent.is_active_blue a = true ->
  Agent.velocity (Agent.with_motion a nvx nvy nx ny) = Some (nvx, nvy).
Proof.
  unfold Agent.with_motion, Agent.is_active_blue, Agent.velocity.
  destruct (Agent.attrs_of a); simpl; [reflexivity|discriminate].
Qed.

Lemma with_motion_in_arena (a : Agent.t) (nvx nvy nx ny : R) :
  in_arena (Agent.with_motion a nvx nvy (clamp nx) (clamp ny)).
Proof.
  unfold in_arena. rewrite with_motion_x, with_motion_y.
  split; apply clamp_bounds.
Qed.

Section Movement.

Variable rand : nat -> R.
Variable policy : Policy.t.
Variable logistics : Logistics.t.
Variable currentStrategy : string.

(** The movement callback of multi-theater mode, case by case. *)
Lemma moveMultiTheater_cases (snapshot : list Agent.t) (agent : Agent.t) (n : nat) :
  moveMultiTheater rand policy logistics currentStrategy snapshot agent n =
  if Agent.is_active_blue agent then
    match findNearest agent (filter Agent.is_live_red snapshot) with
    | None => (agent, n)
    | Some nearest =>
        let (b, n') :=
          getStrategyBehavior rand agent (Some nearest) currentStrategy None n in
        let m := aggressionMod policy in
        let t := Logistics.transportCapacity logistics / 100 in
        (Agent.with_motion agent (vx b * m) (vy b * m)
           (clamp (Agent.x agent + vx b * m * t))
           (clamp (Agent.y agent + vy b * m * t)), n')
    end
  else (agent, n).
Proof.
  unfold moveMultiTheater.
  destruct (Agent.is_active_blue agent); [|reflexivity].
  destruct (findNearest agent _); reflexivity.
Qed.

(** The movement callback of standard mode, case by case. *)
Lemma moveStandardMode_cases (prevAgents : list Agent.t) (agent : Agent.t) (n : nat) :
  moveStandardMode rand currentStrategy prevAgents agent n =
  if Agent.is_active_blue agent then
    match findNearest agent (filter Agent.is_live_red prevAgents) with
    | None => (agent, n)
    | Some nearest =>
        let (b, n') :=
          getStrategyBehavior rand agent (Some nearest) currentStrategy None n in
        (Agent.with_motion agent (vx b) (vy b)
           (clamp (Agent.x agent + vx b)) (clamp (Agent.y agent + vy b)), n')
    end
  else (agent, n).
Proof.
  unfold moveStandardMode.
  destruct (Agent.is_active_blue agent); [|reflexivity].
  destruct (findNearest agent _); reflexivity.
Qed.

(** The movement pass leaves every red agent as it is. *)
Lemma moveMultiTheater_red (snapshot : list Agent.t) (agent : Agent.t) (n : nat) :
  Agent.is_active_blue agent = false ->
  moveMultiTheater rand policy logistics currentStrategy snapshot agent n = (agent, n).
Proof. intro H. rewrite moveMultiTheater_cases, H. reflexivity. Qed.

Lemma moveStandardMode_red (prevAgents : list Agent.t) (agent : Agent.t) (n : nat) :
  Agent.is_active_blue agent = false ->
  moveStandardMode rand currentStrategy prevAgents agent n = (agent, n).
Proof. intro H. rewrite moveStandardMode_cases, H. reflexivity. Qed.

End Movement.

(* ------------------------------------------------------------------ *)
(** ** The damage pass *)

Lemma damaged_health_step (a a' : Agent.t) : damaged a a' -> health_step a a'.
Proof.
  unfold damaged, health_step, Agent.health.
  intros [->|(h & d & Ha & Hh & Hd & ->)].
  - destruct (Agent.attrs_of a) as [| h]; [reflexivity|].
    exists h. repeat split; lra.
  - unfold Agent.with_health. rewrite Ha. simpl.
    exists (JsMath.max 0 (h - d)). split; [reflexivity|].
    unfold JsMath.max, Rmax. destruct (Rle_dec 0 (h - d)); split; intros; lra.
Qed.

Lemma damaged_position (a a' : Agent.t) :
  damaged a a' -> Agent.x a' = Agent.x a /\ Agent.y a' = Agent.y a.
Proof.
  intros [->|(h & d & Ha & _ & _ & ->)]; [split; reflexivity|].
  unfold Agent.with_health. rewrite Ha. split; reflexivity.
Qed.

Lemma damaged_in_arena (a a' : Agent.t) : damaged a a' -> in_arena a -> in_arena a'.
Proof.
  intros D. destruct (damaged_position _ _ D) as [Hx Hy].
  unfold in_arena. now rewrite Hx, Hy.
Qed.

(** A damage pass returns a blue agent as it is. *)
Lemma damaged_blue (a a' : Agent.t) :
  damaged a a' -> Agent.health a = None -> a' = a.
Proof.
  intros [->|(h & d & Ha & _)] H; [reflexivity|].
  unfold Agent.health in H. rewrite Ha in H. discriminate.
Qed.

Lemma flatDamage_fold_ge (agent : Agent.t) (blueAgents : list Agent.t) (acc : R) :
  acc <= fold_left (flatDamage agent) blueAgents acc.
Proof.
  revert acc. induction blueAgents as [|b rest IH]; intro acc; simpl; [lra|].
  eapply Rle_trans; [|apply IH].
  unfold flatDamage, HIT_DAMAGE. destruct (Rltb _ _); lra.
Qed.

Lemma damageStandardMode_damaged (updatedAgents : list Agent.t) (agent : Agent.t) :
  damaged agent (damageStandardMode updatedAgents agent).
Proof.
  unfold damageStandardMode, damaged.
  destruct (Agent.attrs_of agent) as [|h] eqn:Ha; [now left|].
  destruct (Rltb 0 h) eqn:Hh; [|now left].
  destruct (Rltb 0 (fold_left _ _ 0)) eqn:Hd; [|now left].
  right. exists h. eexists. split; [reflexivity|].
  apply Rltb_true in Hh. apply Rltb_true in Hd.
  split; [exact Hh|]. split; [exact Hd|reflexivity].
Qed.

Lemma Forall2_map_damaged (P : Agent.t -> Agent.t -> Prop)
    (snapshot agents : list Agent.t) :
  (forall a a', damaged a a' -> P a a') ->
  Forall2 P agents (map (damageStandardMode snapshot) agents).
Proof.
  intro H. induction agents as [|a rest IH]; simpl; constructor; [|exact IH].
  apply H, damageStandardMode_damaged.
Qed.

Section Damage.

Variable rand : nat -> R.
Variable policy : Policy.t.
Variable logistics : Logistics.t.

Lemma hitDamage_pos : 0 < hitDamage policy.
Proof. unfold hitDamage, HIT_DAMAGE. destruct (Policy.roe policy); lra. Qed.

Lemma rollDamage_fold_ge (agent : Agent.t) (blueAgents : list Agent.t)
    (acc : R) (n : nat) :
  acc <= fst (foldM (rollDamage rand policy logistics agent) blueAgents acc n).
Proof.
  revert acc n. induction blueAgents as [|b rest IH]; intros acc n; simpl; [lra|].
  unfold bind.
  destruct (rollDamage rand policy logistics agent acc b n) as [acc' n'] eqn:E.
  eapply Rle_trans; [|apply IH].
  unfold rollDamage in E. pose proof hitDamage_pos.
  destruct (Rltb _ ENGAGEMENT_DISTANCE).
  - unfold bind, Math_random, ret in E. destruct (Rltb (rand n) _); inversion E; lra.
  - inversion E. lra.
Qed.

Lemma damageMultiTheater_damaged (updatedAgents : list Agent.t) (agent : Agent.t)
    (n : nat) :
  damaged agent (fst (damageMultiTheater rand policy logistics updatedAgents agent n)).
Proof.
  unfold damageMultiTheater, damaged.
  destruct (Agent.attrs_of agent) as [|h] eqn:Ha; [now left|].
  destruct (Rltb 0 h) eqn:Hh; [|now left].
  unfold bind.
  destruct (foldM _ _ 0 n) as [totalDamage n'].
  destruct (Rltb 0 totalDamage) eqn:Hd; [|now left].
  right. exists h, totalDamage. split; [reflexivity|].
  apply Rltb_true in Hh. apply Rltb_true in Hd.
  split; [exact Hh|]. split; [exact Hd|reflexivity].
Qed.

End Damage.



(* ------------------------------------------------------------------ *)
(** ** Invariants of the agents along a run *)

Lemma mapM_Forall {A B} (Q : B -> Prop) (f : A -> Rand B) (xs : list A) :
  (forall a n, Q (fst (f a n))) -> forall n, Forall Q (fst (mapM f xs n)).
Proof.
  intro H. induction xs as [|a rest IH]; intro n; simpl; [constructor|].
  unfold bind. pose proof (H a n) as Ha. destruct (f a n) as [b n1].
  specialize (IH n1). destruct (mapM f rest n1) as [bs n2]. simpl in *.
  now constructor.
Qed.

(** A property of agents that the two callbacks keep and that every new
    agent has holds of every agent at every tick of a run. *)
Section AgentInvariant.

Variable rand : nat -> R.
Variable I : Agent.t -> Prop.

Hypothesis I_moved :
  forall a nvx nvy nx ny,
    Agent.is_active_blue a = true -> I a ->
    I (Agent.with_motion a nvx nvy (clamp nx) (clamp ny)).
Hypothesis I_damaged : forall a a', damaged a a' -> I a -> I a'.

Lemma moveStandardMode_keeps (currentStrategy : string)
    (prevAgents : list Agent.t) (agent : Agent.t) (n : nat) :
  I agent -> I (fst (moveStandardMode rand currentStrategy prevAgents agent n)).
Proof.
  intro H. rewrite moveStandardMode_cases.
  destruct (Agent.is_active_blue agent) eqn:Hb; [|exact H].
  destruct (findNearest agent _); [|exact H].
  destruct (getStrategyBehavior _ _ _ _ _ _) as [b n']. simpl.
  now apply I_moved.
Qed.

Lemma moveMultiTheater_keeps (policy : Policy.t) (logistics : Logistics.t)
    (currentStrategy : string) (snapshot : list Agent.t) (agent : Agent.t) (n : nat) :
  I agent ->
  I (fst (moveMultiTheater rand policy logistics currentStrategy snapshot agent n)).
Proof.
  intro H. rewrite moveMultiTheater_cases.
  destruct (Agent.is_active_blue agent) eqn:Hb; [|exact H].
  destruct (findNearest agent _); [|exact H].
  destruct (getStrategyBehavior _ _ _ _ _ _) as [b n']. simpl.
  now apply I_moved.
Qed.

Lemma updateStandardMode_keeps (currentStrategy : string)
    (prevAgents : list Agent.t) (n : nat) :
  Forall I prevAgents ->
  Forall I (fst (updateStandardMode rand currentStrategy prevAgents n)).
Proof.
  intro H. unfold updateStandardMode, bind.
  pose proof (mapM_Forall2 (fun a b => I a -> I b)
                (moveStandardMode rand currentStrategy prevAgents) prevAgents
                (fun a m _ => moveStandardMode_keeps currentStrategy
                                prevAgents a m) n) as Hm.
  destruct (mapM _ prevAgents n) as [updatedAgents n']. simpl in *.
  assert (Hu : Forall I updatedAgents).
  { revert Hm H. apply Forall2_Forall_r. auto. }
  revert Hu. apply Forall2_Forall_r with (R := fun a b => I a -> I b); [auto|].
  apply Forall2_map_damaged. exact I_damaged.
Qed.

Lemma updateTheater_keeps (policy : Policy.t) (logistics : Logistics.t)
    (currentStrategy : string) (theater : Theater.t) (n : nat) :
  Forall I (Theater.agents theater) ->
  Forall I (Theater.agents
              (fst (updateTheater rand policy logistics currentStrategy theater n))).
Proof.
  intro H. unfold updateTheater, bind.
  pose proof (mapM_Forall2 (fun a b => I a -> I b)
                (moveMultiTheater rand policy logistics currentStrategy
                   (Theater.agents theater)) (Theater.agents theater)
                (fun a m _ => moveMultiTheater_keeps policy logistics
                                currentStrategy (Theater.agents theater) a m) n) as Hm.
  destruct (mapM _ (Theater.agents theater) n) as [updatedAgents n1]. simpl in Hm.
  assert (Hu : Forall I updatedAgents).
  { revert Hm H. apply Forall2_Forall_r. auto. }
  pose proof (mapM_Forall2 (fun a b => I a -> I b)
                (damageMultiTheater rand policy logistics updatedAgents) updatedAgents
                (fun a m _ => I_damaged _ _
                   (damageMultiTheater_damaged rand policy logistics
                      updatedAgents a m)) n1) as Hd.
  destruct (mapM _ updatedAgents n1) as [finalAgents n2]. simpl in *.
  revert Hd Hu. apply Forall2_Forall_r. auto.
Qed.

Lemma updateMultiTheater_keeps (policy : Policy.t) (logistics : Logistics.t)
    (currentStrategy : string) (prevTheaters : list Theater.t) (n : nat) :
  Forall (fun theater => Forall I (Theater.agents theater)) prevTheaters ->
  Forall (fun theater => Forall I (Theater.agents theater))
    (fst (updateMultiTheater rand policy logistics currentStrategy prevTheaters n)).
Proof.
  intro H. unfold updateMultiTheater.
  pose proof (mapM_Forall2
                (fun a b => Forall I (Theater.agents a) -> Forall I (Theater.agents b))
                (updateTheater rand policy logistics currentStrategy) prevTheaters
                (fun th m _ => updateTheater_keeps policy logistics
                                 currentStrategy th m) n) as Hm.
  revert Hm H. apply Forall2_Forall_r. auto.
Qed.

Hypothesis I_newTheaterBlue : forall t i n, I (fst (newTheaterBlue rand t i n)).
Hypothesis I_newTheaterRed : forall t i n, I (fst (newTheaterRed rand t i n)).
Hypothesis I_newStandardBlue : forall i n, I (fst (newStandardBlue rand i n)).
Hypothesis I_newStandardRed : forall i n, I (fst (newStandardRed rand i n)).

Lemma newTheater_keeps (t n : nat) :
  Forall I (Theater.agents (fst (newTheater rand t n))).
Proof.
  unfold newTheater, bind.
  destruct (random_below rand 5 n) as [k n1].
  destruct (random_below rand 3 n1) as [k' n2].
  pose proof (mapM_Forall I (newTheaterBlue rand t) (seq 0 (8 + k))
                (I_newTheaterBlue t) n2) as Hb.
  destruct (mapM (newTheaterBlue rand t) _ n2) as [blues n3].
  pose proof (mapM_Forall I (newTheaterRed rand t) (seq 0 (2 + k'))
                (I_newTheaterRed t) n3) as Hr.
  destruct (mapM (newTheaterRed rand t) _ n3) as [reds n4].
  unfold Math_random, ret. simpl in *. apply Forall_app. now split.
Qed.

Lemma initStandardMode_keeps (n : nat) : Forall I (fst (initStandardMode rand n)).
Proof.
  unfold initStandardMode, bind.
  pose proof (mapM_Forall I (newStandardBlue rand) (seq 0 20)
                I_newStandardBlue n) as Hb.
  destruct (mapM (newStandardBlue rand) _ n) as [blues n1].
  pose proof (mapM_Forall I (newStandardRed rand) (seq 0 6)
                I_newStandardRed n1) as Hr.
  destruct (mapM (newStandardRed rand) _ n1) as [reds n2].
  unfold ret. simpl in *. apply Forall_app. now split.
Qed.

Lemma simulateMultiTheater_keeps (ticks : list tick_settings) (n : nat) :
  Forall (fun theater => Forall I (Theater.agents theater))
         (fst (simulateMultiTheater rand ticks n)).
Proof.
  unfold simulateMultiTheater, bind.
  assert (H0 : Forall (fun theater => Forall I (Theater.agents theater))
                      (fst (initMultiTheater rand n))).
  { unfold initMultiTheater. apply mapM_Forall. exact newTheater_keeps. }
  destruct (initMultiTheater rand n) as [theaters n0]. simpl in H0.
  unfold runMultiTheater.
  apply (foldM_invariant
           (Forall (fun theater => Forall I (Theater.agents theater))));
    [|exact H0].
  intros w t m. apply updateMultiTheater_keeps.
Qed.

Lemma simulateStandardMode_keeps (ticks : list tick_settings) (n : nat) :
  Forall I (fst (simulateStandardMode rand ticks n)).
Proof.
  unfold simulateStandardMode, bind.
  pose proof (initStandardMode_keeps n) as H0.
  destruct (initStandardMode rand n) as [agents n0]. simpl in H0.
  unfold runStandardMode.
  apply (foldM_invariant (Forall I)); [|exact H0].
  intros w t m. apply updateStandardMode_keeps.
Qed.

End AgentInvariant.

Lemma with_motion_health (a : Agent.t) (nvx nvy nx ny : R) :
  Agent.health (Agent.with_motion a nvx nvy nx ny) = Agent.health a.
Proof. unfold Agent.with_motion, Agent.health. now destruct (Agent.attrs_of a). Qed.

Lemma health_step_in_range (a a' : Agent.t) :
  health_step a a' -> health_in_range a -> health_in_range a'.
Proof.
  unfold health_step, health_in_range.
  destruct (Agent.health a) as [h|] eqn:E.
  - intros (h' & -> & Hle & Hpos) Hr. split; [apply Hpos|]; lra.
  - intros -> _. now rewrite E.
Qed.

(** C5.  For every damage pass (the deterministic one of standard mode and
    the one with hit rolls of multi-theater mode, whatever the rolls), over
    any roster: the health of every red agent after the pass is at most its
    health before, and is not negative when it was not negative before
    (a living agent is floored at 0); every other agent is returned as it
    is.  Hence in a run of either mode the health of every red agent stays
    between 0 and 100 at every tick. *)
Theorem damage_pass_health
    (rand : nat -> R) (policy : Policy.t) (logistics : Logistics.t)
    (updatedAgents : list Agent.t) (ticks : list tick_settings) (n : nat) :
  Forall2 health_step updatedAgents
          (map (damageStandardMode updatedAgents) updatedAgents) /\
  Forall2 health_step updatedAgents
          (fst (mapM (damageMultiTheater rand policy logistics updatedAgents)
                     updatedAgents n)) /\
  Forall health_in_range (fst (simulateStandardMode rand ticks n)) /\
  Forall (fun theater => Forall health_in_range (Theater.agents theater))
         (fst (simulateMultiTheater rand ticks n)).
Proof.
  assert (M : forall a nvx nvy nx ny,
             Agent.is_active_blue a = true -> health_in_range a ->
             health_in_range (Agent.with_motion a nvx nvy (clamp nx) (clamp ny))).
  { intros a nvx nvy nx ny _. unfold health_in_range. now rewrite with_motion_health. }
  assert (D : forall a a', damaged a a' -> health_in_range a -> health_in_range a').
  { intros a a' H. now apply health_step_in_range, damaged_health_step. }
  split; [|split; [|split]].
  - apply Forall2_map_damaged. intros a a' H. now apply damaged_health_step.
  - apply mapM_Forall2. intros a m _.
    apply damaged_health_step, damageMultiTheater_damaged.
  - apply simulateStandardMode_keeps; try assumption;
      intros; unfold health_in_range; simpl; lra.
  - apply simulateMultiTheater_keeps; try assumption;
      intros; unfold health_in_range; simpl; lra.
Qed.

(* ------------------------------------------------------------------ *)
(** ** Positions stay inside the arena *)

Section Arena.

Variable rand : nat -> R.

(** [Math.random()] returns a number in [0, 1). *)
Hypothesis rand_range : forall n, 0 <= rand n < 1.

Ltac new_agent_in_arena :=
  unfold bind, Math_random, ret, in_arena, GRID_SIZE; simpl;
  match goal with
  | n : nat |- _ =>
      pose proof (rand_range n); pose proof (rand_range (S n)); lra
  end.

Lemma newTheaterBlue_in_arena (t i n : nat) :
  in_arena (fst (newTheaterBlue rand t i n)).
Proof. unfold newTheaterBlue. new_agent_in_arena. Qed.

Lemma newTheaterRed_in_arena (t i n : nat) :
  in_arena (fst (newTheaterRed rand t i n)).
Proof. unfold newTheaterRed. new_agent_in_arena. Qed.

Lemma newStandardBlue_in_arena (i n : nat) :
  in_arena (fst (newStandardBlue rand i n)).
Proof. unfold newStandardBlue. new_agent_in_arena. Qed.

Lemma newStandardRed_in_arena (i n : nat) :
  in_arena (fst (newStandardRed rand i n)).
Proof. unfold newStandardRed. new_agent_in_arena. Qed.

(** C6.  In a run of either mode (initialisation, then any number of
    ticks, each with its own policy, logistics and strategy), after every
    tick every agent is inside the arena: both coordinates lie in
    [0, GRID_SIZE], with GRID_SIZE = 400. *)
Theorem positions_within_arena (ticks : list tick_settings) (n : nat) :
  Forall (fun theater =>
            Forall (fun a => 0 <= Agent.x a <= 400 /\ 0 <= Agent.y a <= 400)
                   (Theater.agents theater))
         (fst (simulateMultiTheater rand ticks n)) /\
  Forall (fun a => 0 <= Agent.x a <= 400 /\ 0 <= Agent.y a <= 400)
         (fst (simulateStandardMode rand ticks n)).
Proof.
  split.
  - apply (simulateMultiTheater_keeps rand in_arena).
    + intros. apply with_motion_in_arena.
    + exact damaged_in_arena.
    + exact newTheaterBlue_in_arena.
    + exact newTheaterRed_in_arena.
  - apply (simulateStandardMode_keeps rand in_arena).
    + intros. apply with_motion_in_arena.
    + exact damaged_in_arena.
    + exact newStandardBlue_in_arena.
    + exact newStandardRed_in_arena.
Qed.

(** One tick keeps any roster that is inside the arena inside it. *)
Lemma tick_keeps_in_arena (policy : Policy.t) (logistics : Logistics.t)
    (currentStrategy : string) (prevAgents : list Agent.t) (theater : Theater.t)
    (n : nat) :
  (Forall in_arena prevAgents ->
   Forall in_arena (fst (updateStandardMode rand currentStrategy prevAgents n))) /\
  (theater_in_arena theater ->
   theater_in_arena
     (fst (updateTheater rand policy logistics currentStrategy theater n))).
Proof.
  split.
  - apply updateStandardMode_keeps.
    + intros. apply with_motion_in_arena.
    + exact damaged_in_arena.
  - apply updateTheater_keeps.
    + intros. apply with_motion_in_arena.
    + exact damaged_in_arena.
Qed.

End Arena.

(** A run of three ticks with every draw equal to 1/2. *)
Lemma positions_within_arena_witness :
  (forall n : nat, 0 <= (fun _ : nat => / 2) n < 1) /\
  Forall (fun a => 0 <= Agent.x a <= 400 /\ 0 <= Agent.y a <= 400)
         (fst (simulateStandardMode (fun _ : nat => / 2)
                 [ mkTick (Policy.mk 100 standard "balanced" 50)
                          (Logistics.mk 100 100 100 100) "direct";
                   mkTick (Policy.mk 60 aggressive "balanced" 50)
                          (Logistics.mk 80 100 90 150) "dispersed";
                   mkTick (Policy.mk 60 defensive "balanced" 50)
                          (Logistics.mk 80 100 90 150) "hitrun" ] 0%nat)).
Proof.
  assert (H : forall n : nat, 0 <= (fun _ : nat => / 2) n < 1) by (intro; simpl; lra).
  split; [exact H|].
  exact (proj2 (positions_within_arena (fun _ : nat => / 2) H _ 0%nat)).
Defined.

(* ------------------------------------------------------------------ *)
(** ** The steering model *)

(** Runs the strategy lookup and the [switch] on a literal strategy. *)
Ltac steer :=
  unfold getStrategyBehavior;
  cbn [String.eqb Ascii.eqb Bool.eqb find nth strategies direct_assault
       Strategy.approach Strategy.speed];
  unfold bind, ret; cbn [fst snd].

Section Steering.

Variable rand : nat -> R.

Lemma getStrategyBehavior_direct (agent target : Agent.t) (time : option R) (n : nat) :
  getStrategyBehavior rand agent (Some target) "direct" time n
  = (mkBehavior (cos (bearing agent target) * 2.5)
                (sin (bearing agent target) * 2.5), n).
Proof. steer. reflexivity. Qed.

Lemma getStrategyBehavior_flank (agent target : Agent.t) (time : option R) (n : nat) :
  getStrategyBehavior rand agent (Some target) "flank" time n
  = let angle :=
      bearing agent target
      + (if N.eqb (agentNum (Agent.id agent) mod 2) 0
         then JsMath.PI / 3 else - JsMath.PI / 3) in
    (mkBehavior (cos angle * 2) (sin angle * 2), n).
Proof. steer. reflexivity. Qed.

Lemma getStrategyBehavior_concentrated (agent target : Agent.t) (time : option R)
    (n : nat) :
  getStrategyBehavior rand agent (Some target) "concentrated" time n
  = let t := match time with Some t => t | None => 0 end in
    let angle :=
      bearing agent target
      + sin (t + IZR (Z.of_N (agentNum (Agent.id agent)))) * 0.3 in
    (mkBehavior (cos angle * 3) (sin angle * 3), n).
Proof. steer. reflexivity. Qed.

Lemma getStrategyBehavior_absent (agent : Agent.t) (strategy : string)
    (time : option R) (n : nat) :
  getStrategyBehavior rand agent None strategy time n = (mkBehavior 0 0, n).
Proof. reflexivity. Qed.

End Steering.

Lemma atan2_east (x : R) : 0 < x -> JsMath.atan2 0 x = 0.
Proof.
  intro H. unfold JsMath.atan2. destruct (Rlt_dec 0 x); [|contradiction].
  replace (0 / x) with 0 by (field; lra). apply atan_0.
Qed.

Lemma hypot_east (dx : R) : JsMath.hypot dx 0 = Rabs dx.
Proof.
  unfold JsMath.hypot. replace (dx * dx + 0 * 0) with (Rsqr dx) by (unfold Rsqr; ring).
  apply sqrt_Rsqr_abs.
Qed.

Lemma findNearest_single (agent target : Agent.t) :
  findNearest agent [target] = Some target.
Proof. reflexivity. Qed.

(* ------------------------------------------------------------------ *)
(** ** One tick of a duel: a blue agent at the origin, a red agent east of it *)

Section Duel.

Variable rand : nat -> R.

Lemma live_red_duel (b r : string) (d h : R) :
  0 < h ->
  filter Agent.is_live_red [blue_at b 0 0; red_at r d 0 h] = [red_at r d 0 h].
Proof.
  intro H. cbn [filter Agent.is_live_red blue_at red_at Agent.attrs_of].
  rltb. reflexivity.
Qed.

Lemma moveStandardMode_east (b : string) (snapshot : list Agent.t)
    (target : Agent.t) (n : nat) :
  filter Agent.is_live_red snapshot = [target] ->
  0 < Agent.x target -> Agent.y target = 0 ->
  moveStandardMode rand "direct" snapshot (blue_at b 0 0) n
  = (Agent.mk b 2.5 0 (BlueAttrs 2.5 0 true None None), n).
Proof.
  intros Hf Hx Hy. rewrite moveStandardMode_cases.
  cbn [Agent.is_active_blue blue_at Agent.attrs_of]. rewrite Hf, findNearest_single.
  rewrite getStrategyBehavior_direct. unfold bearing.
  cbn [Agent.x Agent.y blue_at]. rewrite Hy.
  replace (0 - 0) with 0 by ring. replace (Agent.x target - 0) with (Agent.x target) by ring.
  rewrite atan2_east by assumption. rewrite cos_0, sin_0.
  cbn [vx vy]. unfold Agent.with_motion. cbn [Agent.attrs_of Agent.id].
  replace (0 * 2.5) with 0 by ring. replace (1 * 2.5) with 2.5 by ring.
  replace (0 + 2.5) with 2.5 by ring. replace (0 + 0) with 0 by ring.
  rewrite !clamp_id by (unfold GRID_SIZE; lra). reflexivity.
Qed.

(** One active blue agent on the x axis, west of a living red agent. *)
Lemma damageStandardMode_duel (blueAgent : Agent.t) (r : string) (d h : R) :
  Agent.is_active_blue blueAgent = true ->
  Agent.x blueAgent <= d -> Agent.y blueAgent = 0 -> 0 < h ->
  damageStandardMode [blueAgent; red_at r d 0 h] (red_at r d 0 h)
  = if Rltb (d - Agent.x blueAgent) 35
    then red_at r d 0 (JsMath.max 0 (h - 2)) else red_at r d 0 h.
Proof.
  intros Hb Hx Hy Hh.
  unfold damageStandardMode, red_at. cbn [Agent.attrs_of].
  rltb. cbn [filter Agent.is_active_blue Agent.attrs_of]. rewrite Hb.
  cbn [fold_left]. unfold flatDamage, distance. cbn [Agent.x Agent.y]. rewrite Hy.
  replace (0 - 0) with 0 by ring. rewrite hypot_east.
  replace (Rabs (Agent.x blueAgent - d)) with (d - Agent.x blueAgent)
    by (rewrite Rabs_left1 by lra; ring).
  unfold ENGAGEMENT_DISTANCE, HIT_DAMAGE.
  destruct (Rltb (d - Agent.x blueAgent) 35).
  - rltb. unfold Agent.with_health. cbn [Agent.attrs_of Agent.id Agent.x Agent.y].
    do 3 f_equal. ring.
  - rltb. reflexivity.
Qed.

Lemma updateStandardMode_duel (b r : string) (d h : R) (n : nat) :
  2.5 <= d -> 0 < h ->
  updateStandardMode rand "direct" [blue_at b 0 0; red_at r d 0 h] n
  = ([ Agent.mk b 2.5 0 (BlueAttrs 2.5 0 true None None);
       if Rltb (d - 2.5) 35 then red_at r d 0 (JsMath.max 0 (h - 2))
       else red_at r d 0 h ], n).
Proof.
  intros Hd Hh. unfold updateStandardMode. cbn [mapM]. unfold bind.
  rewrite (moveStandardMode_east b _ (red_at r d 0 h))
    by (try apply live_red_duel; cbn [red_at Agent.x Agent.y]; try reflexivity; lra).
  rewrite moveStandardMode_red by reflexivity.
  unfold ret. cbn [map]. f_equal. f_equal.
  unfold damageStandardMode at 1. cbn [Agent.attrs_of].
  f_equal.
  unfold damageStandardMode, red_at. cbn [Agent.attrs_of].
  rltb. cbn [filter Agent.is_active_blue Agent.attrs_of fold_left].
  unfold flatDamage, distance. cbn [Agent.x Agent.y].
  replace (0 - 0) with 0 by ring. rewrite hypot_east.
  replace (Rabs (2.5 - d)) with (d - 2.5)
    by (rewrite Rabs_left1 by lra; ring).
  unfold ENGAGEMENT_DISTANCE, HIT_DAMAGE.
  destruct (Rltb (d - 2.5) 35).
  - rltb. unfold Agent.with_health. cbn [Agent.attrs_of Agent.id Agent.x Agent.y].
    unfold red_at. do 3 f_equal. ring.
  - rltb. reflexivity.
Qed.
Lemma moveMultiTheater_east (policy : Policy.t) (logistics : Logistics.t)
    (b : string) (fuel ammo : option R) (snapshot : list Agent.t)
    (target : Agent.t) (n : nat) :
  let m := aggressionMod policy in
  let t := Logistics.transportCapacity logistics / 100 in
  filter Agent.is_live_red snapshot = [target] ->
  0 < Agent.x target -> Agent.y target = 0 ->
  0 <= 2.5 * m * t <= 400 ->
  moveMultiTheater rand policy logistics "direct" snapshot
    (Agent.mk b 0 0 (BlueAttrs 0 0 true fuel ammo)) n
  = (Agent.mk b (2.5 * m * t) 0 (BlueAttrs (2.5 * m) 0 true fuel ammo), n).
Proof.
  intros m t Hf Hx Hy Hs. rewrite moveMultiTheater_cases.
  cbn [Agent.is_active_blue Agent.attrs_of]. rewrite Hf, findNearest_single.
  rewrite getStrategyBehavior_direct. unfold bearing.
  cbn [Agent.x Agent.y]. rewrite Hy.
  replace (0 - 0) with 0 by ring.
  replace (Agent.x target - 0) with (Agent.x target) by ring.
  rewrite atan2_east by assumption. rewrite cos_0, sin_0.
  cbn [vx vy]. unfold Agent.with_motion. cbn [Agent.attrs_of Agent.id].
  fold m. fold t.
  replace (0 + 1 * 2.5 * m * t) with (2.5 * m * t) by ring.
  replace (0 + 0 * 2.5 * m * t) with 0 by ring.
  replace (1 * 2.5 * m) with (2.5 * m) by ring.
  replace (0 * 2.5 * m) with 0 by ring.
  rewrite !clamp_id by (unfold GRID_SIZE; lra). reflexivity.
Qed.

Lemma damageMultiTheater_blue (policy : Policy.t) (logistics : Logistics.t)
    (updatedAgents : list Agent.t) (agent : Agent.t) (n : nat) :
  Agent.health agent = None ->
  damageMultiTheater rand policy logistics updatedAgents agent n = (agent, n).
Proof.
  unfold damageMultiTheater, Agent.health.
  destruct (Agent.attrs_of agent); [reflexivity|discriminate].
Qed.

(** One active blue agent on the x axis, west of a living red agent. *)
Lemma damageMultiTheater_duel (policy : Policy.t) (logistics : Logistics.t)
    (blueAgent : Agent.t) (r : string) (d h : R) (n : nat) :
  Agent.is_active_blue blueAgent = true ->
  Agent.x blueAgent <= d -> Agent.y blueAgent = 0 -> 0 < h ->
  damageMultiTheater rand policy logistics [blueAgent; red_at r d 0 h]
    (red_at r d 0 h) n
  = if Rltb (d - Agent.x blueAgent) 35 then
      (if Rltb (rand n) (Logistics.commsReliability logistics / 100)
       then red_at r d 0 (JsMath.max 0 (h - hitDamage policy))
       else red_at r d 0 h, S n)
    else (red_at r d 0 h, n).
Proof.
  intros Hb Hx Hy Hh.
  unfold damageMultiTheater, red_at. cbn [Agent.attrs_of].
  rltb. cbn [filter Agent.is_active_blue Agent.attrs_of]. rewrite Hb.
  cbn [foldM]. unfold bind at 1. unfold bind at 1. unfold ret at 1.
  unfold rollDamage, distance. cbn [Agent.x Agent.y]. rewrite Hy.
  replace (0 - 0) with 0 by ring. rewrite hypot_east.
  replace (Rabs (Agent.x blueAgent - d)) with (d - Agent.x blueAgent)
    by (rewrite Rabs_left1 by lra; ring).
  unfold ENGAGEMENT_DISTANCE.
  pose proof (hitDamage_pos policy) as Hp.
  destruct (Rltb (d - Agent.x blueAgent) 35).
  - unfold bind, Math_random, ret.
    destruct (Rltb (rand n) _).
    + rltb. unfold Agent.with_health. cbn [Agent.attrs_of Agent.id Agent.x Agent.y].
      replace (0 + hitDamage policy) with (hitDamage policy) by ring. reflexivity.
    + rltb. reflexivity.
  - unfold ret. rltb. reflexivity.
Qed.

Lemma updateTheater_duel (policy : Policy.t) (logistics : Logistics.t)
    (i : nat) (name b r : string) (fuel ammo : option R) (p d h : R) (n : nat) :
  let m := aggressionMod policy in
  let t := Logistics.transportCapacity logistics / 100 in
  0 <= 2.5 * m * t <= d -> 0 < d <= 400 -> 0 < h ->
  updateTheater rand policy logistics "direct"
    (Theater.mk i name
       [Agent.mk b 0 0 (BlueAttrs 0 0 true fuel ammo); red_at r d 0 h] p) n
  = (Theater.mk i name
       [ Agent.mk b (2.5 * m * t) 0 (BlueAttrs (2.5 * m) 0 true fuel ammo);
         if Rltb (d - 2.5 * m * t) 35 then
           (if Rltb (rand n) (Logistics.commsReliability logistics / 100)
            then red_at r d 0 (JsMath.max 0 (h - hitDamage policy))
            else red_at r d 0 h)
         else red_at r d 0 h ] p,
     if Rltb (d - 2.5 * m * t) 35 then S n else n).
Proof.
  intros m t Hs Hd Hh. unfold updateTheater. cbn [Theater.agents mapM]. unfold bind.
  rewrite (moveMultiTheater_east policy logistics b fuel ammo _ (red_at r d 0 h));
    fold m; fold t.
  2:{ unfold red_at. cbn [filter Agent.is_live_red Agent.attrs_of]. rltb. reflexivity. }
  2:{ cbn [red_at Agent.x]. lra. }
  2:{ reflexivity. }
  2:{ lra. }
  rewrite moveMultiTheater_red by reflexivity.
  unfold ret. cbn [Theater.id Theater.name Theater.priority mapM]. unfold bind, ret.
  rewrite damageMultiTheater_blue by reflexivity.
  rewrite damageMultiTheater_duel by (cbn [Agent.x Agent.y]; try reflexivity; lra).
  cbn [Agent.x].
  destruct (Rltb (d - 2.5 * m * t) 35); reflexivity.
Qed.
End Duel.

(* ------------------------------------------------------------------ *)
(** ** Displacement and damage in the two modes *)

(** X8.  In multi-theater mode the displacement of a moved agent is the steering
    velocity times the aggression modifier times [transportCapacity / 100],
    clamped to the arena. *)
Lemma multi_theater_displacement (rand : nat -> R) (policy : Policy.t)
    (logistics : Logistics.t) (currentStrategy : string)
    (snapshot : list Agent.t) (agent target : Agent.t) (n : nat) :
  Agent.is_active_blue agent = true ->
  findNearest agent (filter Agent.is_live_red snapshot) = Some target ->
  let b := fst (getStrategyBehavior rand agent (Some target) currentStrategy None n) in
  let m := match Policy.roe policy with
           | defensive => 0.5 | aggressive => 1.5 | standard => 1 end in
  let moved :=
    fst (moveMultiTheater rand policy logistics currentStrategy snapshot agent n) in
  Agent.x moved
  = clamp (Agent.x agent + vx b * m * (Logistics.transportCapacity logistics / 100)) /\
  Agent.y moved
  = clamp (Agent.y agent + vy b * m * (Logistics.transportCapacity logistics / 100)) /\
  Agent.velocity moved = Some (vx b * m, vy b * m).
Proof.
  intros Hb Hn. cbv zeta. rewrite moveMultiTheater_cases, Hb, Hn.
  destruct (getStrategyBehavior _ _ _ _ _ _) as [b n']. cbn [fst].
  rewrite with_motion_x, with_motion_y, with_motion_velocity by assumption.
  unfold aggressionMod. repeat split.
Qed.

(** An aggressive agent with half the transport capacity, target due east:
    the displacement is 2.5 * 1.5 * 0.5 along the bearing. *)
Lemma multi_theater_displacement_witness :
  let rand := fun _ : nat => / 2 in
  let policy := Policy.mk 100 aggressive "balanced" 50 in
  let logistics := Logistics.mk 100 100 100 50 in
  let agent := blue_at "t0-b0" 0 0 in
  let target := red_at "t0-r0" 100 0 100 in
  let b := fst (getStrategyBehavior rand agent (Some target) "direct" None 0%nat) in
  let moved :=
    fst (moveMultiTheater rand policy logistics "direct" [agent; target] agent 0%nat) in
  Agent.is_active_blue agent = true /\
  findNearest agent (filter Agent.is_live_red [agent; target]) = Some target /\
  Agent.x moved = clamp (Agent.x agent + vx b * 1.5 * (50 / 100)) /\
  Agent.y moved = clamp (Agent.y agent + vy b * 1.5 * (50 / 100)) /\
  Agent.velocity moved = Some (vx b * 1.5, vy b * 1.5).
Proof.
  cbv zeta.
  assert (H1 : Agent.is_active_blue (blue_at "t0-b0" 0 0) = true) by reflexivity.
  assert (H2 : findNearest (blue_at "t0-b0" 0 0)
                 (filter Agent.is_live_red
                    [blue_at "t0-b0" 0 0; red_at "t0-r0" 100 0 100])
               = Some (red_at "t0-r0" 100 0 100)).
  { rewrite live_red_duel by lra. reflexivity. }
  split; [exact H1|]. split; [exact H2|].
  exact (multi_theater_displacement (fun _ : nat => / 2)
           (Policy.mk 100 aggressive "balanced" 50) (Logistics.mk 100 100 100 50)
           "direct" [blue_at "t0-b0" 0 0; red_at "t0-r0" 100 0 100]
           (blue_at "t0-b0" 0 0) (red_at "t0-r0" 100 0 100) 0%nat H1 H2).
Defined.

(** X7.  The example of the specification: with [transportCapacity = 100] and the
    standard rules of engagement, a blue agent at (0, 0) targeting a red
    agent at (100, 0) under "direct" is at (2.5, 0) after one tick, in both
    modes. *)
Lemma direct_example_both_modes (rand : nat -> R) (n : nat) :
  let policy := Policy.mk 100 standard "balanced" 50 in
  let logistics := Logistics.mk 100 100 100 100 in
  let prev := [blue_at "b0" 0 0; red_at "r0" 100 0 100] in
  map (fun a => (Agent.x a, Agent.y a))
      (fst (updateStandardMode rand "direct" prev n)) = [(2.5, 0); (100, 0)] /\
  map (fun a => (Agent.x a, Agent.y a))
      (Theater.agents
         (fst (updateTheater rand policy logistics "direct"
                 (Theater.mk 0 "Northern Front" prev 0) n)))
  = [(2.5, 0); (100, 0)].
Proof.
  cbv zeta. split.
  - rewrite updateStandardMode_duel by lra. cbn [fst map Agent.x Agent.y].
    rltb. reflexivity.
  - unfold blue_at. rewrite updateTheater_duel;
      unfold aggressionMod; cbn [Policy.roe Logistics.transportCapacity]; try lra.
    cbn [fst Theater.agents map Agent.x Agent.y]. rltb.
    cbn [red_at Agent.x Agent.y]. repeat f_equal; lra.
Qed.

(** C1.  Standard mode does not scale the displacement: under the defensive
    rules of engagement and [transportCapacity = 50], a blue agent at (0, 0)
    targeting a red agent at (100, 0) under "direct" moves to (2.5, 0),
    where velocity x 0.5 x 50/100 gives 0.625; multi-theater mode moves the
    same agent to (0.625, 0). *)
Theorem standard_mode_displacement_unscaled (rand : nat -> R) (n : nat) :
  let policy := Policy.mk 100 defensive "balanced" 50 in
  let logistics := Logistics.mk 100 100 100 50 in
  let prev := [blue_at "b0" 0 0; red_at "r0" 100 0 100] in
  map (fun a => (Agent.x a, Agent.y a))
      (fst (updateStandardMode rand "direct" prev n)) = [(2.5, 0); (100, 0)] /\
  2.5 * aggressionMod policy * (Logistics.transportCapacity logistics / 100) = 0.625 /\
  map (fun a => (Agent.x a, Agent.y a))
      (Theater.agents
         (fst (updateTheater rand policy logistics "direct"
                 (Theater.mk 0 "Northern Front" prev 0) n)))
  = [(0.625, 0); (100, 0)].
Proof.
  cbv zeta. split; [|split].
  - rewrite updateStandardMode_duel by lra. cbn [fst map Agent.x Agent.y].
    rltb. reflexivity.
  - unfold aggressionMod. cbn [Policy.roe Logistics.transportCapacity]. lra.
  - unfold blue_at. rewrite updateTheater_duel;
      unfold aggressionMod; cbn [Policy.roe Logistics.transportCapacity]; try lra.
    cbn [fst Theater.agents map Agent.x Agent.y]. rltb.
    cbn [red_at Agent.x Agent.y]. repeat f_equal; lra.
Qed.

(** C2.  Standard mode uses the flat damage while multi-theater mode uses
    the hit roll: under the defensive rules of engagement and
    [commsReliability = 0], a blue agent at (0, 0) and a red agent at
    (10, 0) with health 100, one tick under "direct".  Standard mode takes
    2 from the health without a roll; multi-theater mode takes 1, and only
    when the roll is below 0/100. *)
Theorem standard_mode_damage_flat (rand : nat -> R) (n : nat) :
  let policy := Policy.mk 100 defensive "balanced" 50 in
  let logistics := Logistics.mk 100 100 0 100 in
  let prev := [blue_at "b0" 0 0; red_at "r0" 10 0 100] in
  updateStandardMode rand "direct" prev n
  = ([Agent.mk "b0" 2.5 0 (BlueAttrs 2.5 0 true None None); red_at "r0" 10 0 98], n) /\
  map Agent.health
      (Theater.agents
         (fst (updateTheater rand policy logistics "direct"
                 (Theater.mk 0 "Northern Front" prev 0) n)))
  = [None; Some (if Rltb (rand n) (0 / 100) then 99 else 100)].
Proof.
  cbv zeta. split.
  - rewrite updateStandardMode_duel by lra. rltb.
    unfold JsMath.max. rewrite Rmax_right by lra.
    replace (100 - 2) with 98 by lra. reflexivity.
  - unfold blue_at. rewrite updateTheater_duel;
      unfold aggressionMod; cbn [Policy.roe Logistics.transportCapacity]; try lra.
    cbn [fst Theater.agents Logistics.commsReliability]. rltb.
    unfold hitDamage, HIT_DAMAGE, JsMath.max. cbn [Policy.roe].
    rewrite Rmax_right by lra. replace (100 - 2 * 0.5) with 99 by lra.
    destruct (Rltb (rand n) (0 / 100)); reflexivity.
Qed.

(* ------------------------------------------------------------------ *)
(** ** The snapshots read by the two passes *)

Lemma getStrategyBehavior_no_draw (rand rand' : nat -> R) (agent : Agent.t)
    (nearest : option Agent.t) (s : string) (time : option R) (n n' : nat) :
  String.eqb s "dispersed" = false ->
  getStrategyBehavior rand agent nearest s time n
  = (fst (getStrategyBehavior rand' agent nearest s time n'), n).
Proof.
  intro E3. destruct nearest as [target|]; [|reflexivity].
  destruct (String.eqb s "flank") eqn:E1.
  { apply String.eqb_eq in E1. subst s. reflexivity. }
  destruct (String.eqb s "pincer") eqn:E2.
  { apply String.eqb_eq in E2. subst s. reflexivity. }
  destruct (String.eqb s "concentrated") eqn:E4.
  { apply String.eqb_eq in E4. subst s. reflexivity. }
  destruct (String.eqb s "hitrun") eqn:E5.
  { apply String.eqb_eq in E5. subst s. steer. destruct (Rltb _ 80); reflexivity. }
  unfold getStrategyBehavior. rewrite E1, E2, E3, E4, E5. reflexivity.
Qed.

Lemma moveStandardMode_no_draw (rand rand' : nat -> R) (s : string)
    (prevAgents : list Agent.t) (agent : Agent.t) (n n' : nat) :
  String.eqb s "dispersed" = false ->
  moveStandardMode rand s prevAgents agent n
  = (fst (moveStandardMode rand' s prevAgents agent n'), n).
Proof.
  intro E. rewrite !moveStandardMode_cases.
  destruct (Agent.is_active_blue agent); [|reflexivity].
  destruct (findNearest agent _) as [target|]; [|reflexivity].
  rewrite (getStrategyBehavior_no_draw rand rand' agent (Some target) s None n n' E).
  destruct (getStrategyBehavior rand' _ _ _ _ _) as [b m]. reflexivity.
Qed.

Lemma moveMultiTheater_no_draw (rand rand' : nat -> R) (policy : Policy.t)
    (logistics : Logistics.t) (s : string) (snapshot : list Agent.t)
    (agent : Agent.t) (n n' : nat) :
  String.eqb s "dispersed" = false ->
  moveMultiTheater rand policy logistics s snapshot agent n
  = (fst (moveMultiTheater rand' policy logistics s snapshot agent n'), n).
Proof.
  intro E. rewrite !moveMultiTheater_cases.
  destruct (Agent.is_active_blue agent); [|reflexivity].
  destruct (findNearest agent _) as [target|]; [|reflexivity].
  rewrite (getStrategyBehavior_no_draw rand rand' agent (Some target) s None n n' E).
  destruct (getStrategyBehavior rand' _ _ _ _ _) as [b m]. reflexivity.
Qed.

(** Writing into a roster. *)
Lemma write_length (i : nat) (a : Agent.t) (l : list Agent.t) :
  List.length (write i a l) = List.length l.
Proof.
  revert i. induction l as [|b rest IH]; intros [|i]; simpl; try reflexivity.
  now rewrite IH.
Qed.

Lemma nth_error_write_eq (i : nat) (a : Agent.t) (l : list Agent.t) :
  (i < List.length l)%nat -> nth_error (write i a l) i = Some a.
Proof.
  revert i. induction l as [|b rest IH]; intros [|i] H; simpl in *; try lia.
  - reflexivity.
  - apply IH. lia.
Qed.

Lemma nth_error_write_ne (i j : nat) (a : Agent.t) (l : list Agent.t) :
  i <> j -> nth_error (write i a l) j = nth_error l j.
Proof.
  revert i j. induction l as [|b rest IH]; intros [|i] [|j] H; simpl;
    try reflexivity; try congruence.
  apply IH. congruence.
Qed.

Lemma filter_write (P : Agent.t -> bool) (i : nat) (a a' : Agent.t)
    (l : list Agent.t) :
  nth_error l i = Some a -> filter P [a'] = filter P [a] ->
  filter P (write i a' l) = filter P l.
Proof.
  revert i. induction l as [|b rest IH]; intros [|i] H K; simpl in H; try discriminate.
  - injection H as ->. cbn [write].
    change (a' :: rest) with ([a'] ++ rest). change (a :: rest) with ([a] ++ rest).
    now rewrite !filter_app, K.
  - cbn [write filter]. now rewrite (IH i H K).
Qed.

Lemma write_middle (done rest : list Agent.t) (a a' : Agent.t) :
  write (List.length done) a' (done ++ a :: rest) = done ++ a' :: rest.
Proof. induction done as [|b done IH]; simpl; [reflexivity|now rewrite IH]. Qed.

Lemma visiting_order_NoDup (order : list nat) (roster : list Agent.t) :
  visiting_order order roster -> NoDup order.
Proof.
  intro H. apply (Permutation_NoDup (Permutation_sym H)). apply seq_NoDup.
Qed.

Lemma visiting_order_length (order : list nat) (roster roster' : list Agent.t) :
  List.length roster' = List.length roster ->
  visiting_order order roster -> visiting_order order roster'.
Proof. unfold visiting_order. now intros ->. Qed.

(** A pass without draws gives the same roster in every visiting order. *)
Section VisitWithoutDraws.

Variable f : list Agent.t -> Agent.t -> Rand Agent.t.
Variable snapshot : list Agent.t.
Variable g : Agent.t -> Agent.t.
Hypothesis f_draws_nothing : forall a n, f snapshot a n = (g a, n).

Lemma visit_snapshot_nth (order : list nat) (result : list Agent.t) (n : nat) :
  List.length result = List.length snapshot ->
  snd (visit_snapshot f snapshot order result n) = n /\
  List.length (fst (visit_snapshot f snapshot order result n)) = List.length snapshot /\
  forall j,
    nth_error (fst (visit_snapshot f snapshot order result n)) j
    = if existsb (Nat.eqb j) order then option_map g (nth_error snapshot j)
      else nth_error result j.
Proof.
  revert result. induction order as [|i rest IH]; intros result L.
  - cbn. split; [reflexivity|]. split; [exact L|reflexivity].
  - cbn [visit_snapshot existsb].
    destruct (nth_error snapshot i) as [a|] eqn:Ea.
    + unfold bind. rewrite f_draws_nothing.
      assert (Hi : (i < List.length result)%nat).
      { rewrite L. apply nth_error_Some. congruence. }
      destruct (IH (write i (g a) result)) as (H1 & H2 & H3).
      { now rewrite write_length. }
      split; [exact H1|]. split; [exact H2|].
      intro j. rewrite H3. destruct (Nat.eqb j i) eqn:Ej.
      * apply Nat.eqb_eq in Ej. subst j. cbn [orb]. rewrite Ea. cbn [option_map].
        destruct (existsb _ rest); [reflexivity|]. now apply nth_error_write_eq.
      * apply Nat.eqb_neq in Ej. cbn [orb].
        destruct (existsb _ rest); [reflexivity|].
        apply nth_error_write_ne. congruence.
    + destruct (IH result L) as (H1 & H2 & H3).
      split; [exact H1|]. split; [exact H2|].
      intro j. rewrite H3. destruct (Nat.eqb j i) eqn:Ej; [|reflexivity].
      apply Nat.eqb_eq in Ej. subst j. cbn [orb]. rewrite Ea. cbn [option_map].
      destruct (existsb _ rest); [reflexivity|].
      apply nth_error_None. rewrite L. now apply nth_error_None.
Qed.

Lemma visit_snapshot_without_draws (order : list nat) (n : nat) :
  visiting_order order snapshot ->
  visit_snapshot f snapshot order snapshot n = (map g snapshot, n).
Proof.
  intro H. destruct (visit_snapshot_nth order snapshot n eq_refl) as (H1 & H2 & H3).
  destruct (visit_snapshot f snapshot order snapshot n) as [r n']. cbn [fst snd] in *.
  subst n'. f_equal. apply nth_error_ext. intro j. rewrite H3, nth_error_map.
  destruct (existsb (Nat.eqb j) order) eqn:E; [reflexivity|].
  assert (Hj : ~ (j < List.length snapshot)%nat).
  { intro Hlt. assert (Hin : In j order).
    { apply (Permutation_in j (Permutation_sym H)). apply in_seq. lia. }
    assert (existsb (Nat.eqb j) order = true) as E'.
    { apply existsb_exists. exists j. split; [exact Hin|apply Nat.eqb_refl]. }
    congruence. }
  assert (N : nth_error snapshot j = None) by (apply nth_error_None; lia).
  now rewrite N.
Qed.

End VisitWithoutDraws.

(** In the order of the roster a visiting pass is the [map] of the code. *)
Lemma visit_snapshot_roster_order_from
    (f : list Agent.t -> Agent.t -> Rand Agent.t) (s : list Agent.t)
    (todo done0 done : list Agent.t) (n : nat) :
  s = done0 ++ todo -> List.length done = List.length done0 ->
  visit_snapshot f s (seq (List.length done0) (List.length todo)) (done ++ todo) n
  = let (r, n') := mapM (f s) todo n in (done ++ r, n').
Proof.
  revert done0 done n. induction todo as [|a rest IH]; intros done0 done n Hs L.
  - cbn. now rewrite app_nil_r.
  - cbn [List.length seq visit_snapshot mapM].
    assert (Ea : nth_error s (List.length done0) = Some a).
    { rewrite Hs, nth_error_app2 by lia. now rewrite Nat.sub_diag. }
    rewrite Ea. unfold bind. destruct (f s a n) as [a' n1].
    rewrite <- L, write_middle.
    specialize (IH (done0 ++ [a]) (done ++ [a']) n1).
    rewrite !length_app in IH. cbn [List.length] in IH.
    rewrite <- !app_assoc in IH. cbn [app] in IH.
    replace (List.length done0 + 1)%nat with (S (List.length done)) in IH by lia.
    rewrite IH by (try exact Hs; lia).
    destruct (mapM (f s) rest n1) as [r n2]. unfold ret.
    now rewrite <- app_assoc.
Qed.

Lemma visit_snapshot_roster_order (f : list Agent.t -> Agent.t -> Rand Agent.t)
    (s : list Agent.t) (n : nat) :
  visit_snapshot f s (roster_order s) s n = mapM (f s) s n.
Proof.
  unfold roster_order.
  pose proof (visit_snapshot_roster_order_from f s s [] [] n eq_refl eq_refl) as H.
  cbn [List.length app] in H. rewrite H.
  now destruct (mapM (f s) s n).
Qed.


Section InPlace.

(** The callback [f] reads its roster only through the agents that
    satisfy [reads], and never changes such an agent. *)
Variable reads : Agent.t -> bool.
Variable f : list Agent.t -> Agent.t -> Rand Agent.t.
Hypothesis f_reads :
  forall s s' a n, filter reads s = filter reads s' -> f s a n = f s' a n.
Hypothesis f_keeps :
  forall s a n, filter reads [fst (f s a n)] = filter reads [a].

Lemma in_place_from (prev todo done : list Agent.t) (n : nat) :
  filter reads (done ++ todo) = filter reads prev ->
  in_place f done todo n
  = let (r, n') := mapM (f prev) todo n in (done ++ r, n').
Proof.
  revert done n. induction todo as [|a rest IH]; intros done n H; simpl.
  - unfold ret. now rewrite app_nil_r.
  - unfold bind. rewrite (f_reads _ prev a n H).
    pose proof (f_keeps prev a n) as K.
    destruct (f prev a n) as [a' n1]. cbn [fst] in K.
    rewrite IH.
    + destruct (mapM (f prev) rest n1) as [r n2]. unfold ret.
      now rewrite <- app_assoc.
    + rewrite <- H, <- app_assoc. cbn [app].
      rewrite !filter_app. f_equal.
      change (a' :: rest) with ([a'] ++ rest).
      change (a :: rest) with ([a] ++ rest).
      rewrite !filter_app. now rewrite K.
Qed.

(** Updating in place is the same as mapping over the snapshot. *)
Lemma in_place_snapshot (prev : list Agent.t) (n : nat) :
  in_place f [] prev n = mapM (f prev) prev n.
Proof.
  rewrite (in_place_from prev prev [] n) by reflexivity.
  destruct (mapM (f prev) prev n). reflexivity.
Qed.

(** The same in every visiting order that visits no agent twice. *)
Lemma visit_in_place_from (snapshot : list Agent.t) (order : list nat) :
  NoDup order ->
  forall (s : list Agent.t) (n : nat),
    filter reads s = filter reads snapshot ->
    (forall j, In j order -> nth_error s j = nth_error snapshot j) ->
    visit_in_place f order s n = visit_snapshot f snapshot order s n.
Proof.
  induction 1 as [|i rest Hi Hnd IH]; intros s n Hf Hs; [reflexivity|].
  cbn [visit_in_place visit_snapshot].
  rewrite <- (Hs i (or_introl eq_refl)).
  destruct (nth_error s i) as [a|] eqn:Ea.
  - unfold bind. rewrite (f_reads s snapshot a n Hf).
    pose proof (f_keeps snapshot a n) as K.
    destruct (f snapshot a n) as [a' n1]. cbn [fst] in K.
    apply IH.
    + rewrite <- Hf. now apply (filter_write reads i a a').
    + intros j Hj. rewrite nth_error_write_ne by (intros ->; contradiction).
      apply Hs. now right.
  - apply IH; [exact Hf|]. intros j Hj. apply Hs. now right.
Qed.

Lemma visit_in_place_snapshot (order : list nat) (roster : list Agent.t) (n : nat) :
  NoDup order ->
  visit_in_place f order roster n = visit_snapshot f roster order roster n.
Proof. intro H. now apply visit_in_place_from. Qed.

End InPlace.

Lemma with_motion_not_live_red (a : Agent.t) (nvx nvy nx ny : R) :
  Agent.is_active_blue a = true ->
  filter Agent.is_live_red [Agent.with_motion a nvx nvy nx ny]
  = filter Agent.is_live_red [a].
Proof.
  unfold Agent.with_motion, Agent.is_active_blue. cbn [filter].
  unfold Agent.is_live_red.
  destruct (Agent.attrs_of a); [reflexivity|discriminate].
Qed.

Lemma damaged_not_active_blue (a a' : Agent.t) :
  damaged a a' ->
  filter Agent.is_active_blue [a'] = filter Agent.is_active_blue [a].
Proof.
  intros [->|(h & d & Ha & _ & _ & ->)]; [reflexivity|].
  unfold Agent.with_health. cbn [filter]. unfold Agent.is_active_blue.
  now rewrite Ha.
Qed.

Section Snapshots.

Variable rand : nat -> R.
Variable policy : Policy.t.
Variable logistics : Logistics.t.
Variable currentStrategy : string.

Lemma moveStandardMode_in_place (prevAgents : list Agent.t) (n : nat) :
  in_place (moveStandardMode rand currentStrategy) [] prevAgents n
  = mapM (moveStandardMode rand currentStrategy prevAgents) prevAgents n.
Proof.
  apply (in_place_snapshot Agent.is_live_red).
  - intros s s' a m H. rewrite !moveStandardMode_cases, H. reflexivity.
  - intros s a m. rewrite moveStandardMode_cases.
    destruct (Agent.is_active_blue a) eqn:Hb; [|reflexivity].
    destruct (findNearest a _); [|reflexivity].
    destruct (getStrategyBehavior _ _ _ _ _ _) as [b m']. cbn [fst].
    now apply with_motion_not_live_red.
Qed.

Lemma moveMultiTheater_in_place (prevAgents : list Agent.t) (n : nat) :
  in_place (moveMultiTheater rand policy logistics currentStrategy) [] prevAgents n
  = mapM (moveMultiTheater rand policy logistics currentStrategy prevAgents)
         prevAgents n.
Proof.
  apply (in_place_snapshot Agent.is_live_red).
  - intros s s' a m H. rewrite !moveMultiTheater_cases, H. reflexivity.
  - intros s a m. rewrite moveMultiTheater_cases.
    destruct (Agent.is_active_blue a) eqn:Hb; [|reflexivity].
    destruct (findNearest a _); [|reflexivity].
    destruct (getStrategyBehavior _ _ _ _ _ _) as [b m']. cbn [fst].
    now apply with_motion_not_live_red.
Qed.

Lemma damageStandardMode_in_place (updatedAgents : list Agent.t) (n : nat) :
  in_place (fun s a => ret (damageStandardMode s a)) [] updatedAgents n
  = (map (damageStandardMode updatedAgents) updatedAgents, n).
Proof.
  rewrite (in_place_snapshot Agent.is_active_blue).
  - apply mapM_pure. reflexivity.
  - intros s s' a m H. unfold ret, damageStandardMode. now rewrite H.
  - intros s a m. apply damaged_not_active_blue, damageStandardMode_damaged.
Qed.

Lemma damageMultiTheater_in_place (updatedAgents : list Agent.t) (n : nat) :
  in_place (damageMultiTheater rand policy logistics) [] updatedAgents n
  = mapM (damageMultiTheater rand policy logistics updatedAgents) updatedAgents n.
Proof.
  apply (in_place_snapshot Agent.is_active_blue).
  - intros s s' a m H. unfold damageMultiTheater. now rewrite H.
  - intros s a m. apply damaged_not_active_blue, damageMultiTheater_damaged.
Qed.

(** The ticks as maps over snapshots, and as loops that update the roster
    in place in the order of the roster. *)
Lemma ticks_in_roster_order (prevAgents : list Agent.t) (theater : Theater.t)
    (n : nat) :
  (updateStandardMode rand currentStrategy prevAgents n
   = let (updatedAgents, n') :=
       mapM (moveStandardMode rand currentStrategy prevAgents) prevAgents n in
     (map (damageStandardMode updatedAgents) updatedAgents, n')) /\
  (updateStandardMode rand currentStrategy prevAgents n
   = let (updatedAgents, n') :=
       in_place (moveStandardMode rand currentStrategy) [] prevAgents n in
     in_place (fun s a => ret (damageStandardMode s a)) [] updatedAgents n') /\
  (updateTheater rand policy logistics currentStrategy theater n
   = let (updatedAgents, n') :=
       in_place (moveMultiTheater rand policy logistics currentStrategy) []
                (Theater.agents theater) n in
     let (finalAgents, n'') :=
       in_place (damageMultiTheater rand policy logistics) [] updatedAgents n' in
     (Theater.mk (Theater.id theater) (Theater.name theater) finalAgents
                 (Theater.priority theater), n'')).
Proof.
  split; [|split].
  - unfold updateStandardMode, bind, ret.
    destruct (mapM _ prevAgents n) as [u n']. reflexivity.
  - rewrite moveStandardMode_in_place. unfold updateStandardMode, bind, ret.
    destruct (mapM _ prevAgents n) as [u n'].
    now rewrite damageStandardMode_in_place.
  - rewrite moveMultiTheater_in_place. unfold updateTheater, bind, ret.
    destruct (mapM _ (Theater.agents theater) n) as [u n'].
    rewrite damageMultiTheater_in_place.
    destruct (mapM _ u n') as [fin n'']. reflexivity.
Qed.


(** Each pass in any visiting order: updating in place is reading the
    snapshot. *)
Lemma moveStandardMode_visit (order : list nat) (roster : list Agent.t) (m : nat) :
  NoDup order ->
  visit_in_place (moveStandardMode rand currentStrategy) order roster m
  = visit_snapshot (moveStandardMode rand currentStrategy) roster order roster m.
Proof.
  apply (visit_in_place_snapshot Agent.is_live_red).
  - intros s s' a k H. rewrite !moveStandardMode_cases, H. reflexivity.
  - intros s a k. rewrite moveStandardMode_cases.
    destruct (Agent.is_active_blue a) eqn:Hb; [|reflexivity].
    destruct (findNearest a _); [|reflexivity].
    destruct (getStrategyBehavior _ _ _ _ _ _) as [b k']. cbn [fst].
    now apply with_motion_not_live_red.
Qed.

Lemma moveMultiTheater_visit (order : list nat) (roster : list Agent.t) (m : nat) :
  NoDup order ->
  visit_in_place (moveMultiTheater rand policy logistics currentStrategy) order roster m
  = visit_snapshot (moveMultiTheater rand policy logistics currentStrategy)
                   roster order roster m.
Proof.
  apply (visit_in_place_snapshot Agent.is_live_red).
  - intros s s' a k H. rewrite !moveMultiTheater_cases, H. reflexivity.
  - intros s a k. rewrite moveMultiTheater_cases.
    destruct (Agent.is_active_blue a) eqn:Hb; [|reflexivity].
    destruct (findNearest a _); [|reflexivity].
    destruct (getStrategyBehavior _ _ _ _ _ _) as [b k']. cbn [fst].
    now apply with_motion_not_live_red.
Qed.

Lemma damageStandardMode_visit (order : list nat) (roster : list Agent.t) (m : nat) :
  NoDup order ->
  visit_in_place (fun s a => ret (damageStandardMode s a)) order roster m
  = visit_snapshot (fun s a => ret (damageStandardMode s a)) roster order roster m.
Proof.
  apply (visit_in_place_snapshot Agent.is_active_blue).
  - intros s s' a k H. unfold ret, damageStandardMode. now rewrite H.
  - intros s a k. apply damaged_not_active_blue, damageStandardMode_damaged.
Qed.

Lemma damageMultiTheater_visit (order : list nat) (roster : list Agent.t) (m : nat) :
  NoDup order ->
  visit_in_place (damageMultiTheater rand policy logistics) order roster m
  = visit_snapshot (damageMultiTheater rand policy logistics) roster order roster m.
Proof.
  apply (visit_in_place_snapshot Agent.is_active_blue).
  - intros s s' a k H. unfold damageMultiTheater. now rewrite H.
  - intros s a k. apply damaged_not_active_blue, damageMultiTheater_damaged.
Qed.

(** The passes that draw nothing, in any visiting order. *)
Lemma damageStandardMode_any_order (order : list nat) (roster : list Agent.t)
    (m : nat) :
  visiting_order order roster ->
  visit_in_place (fun s a => ret (damageStandardMode s a)) order roster m
  = (map (damageStandardMode roster) roster, m).
Proof.
  intro H. rewrite damageStandardMode_visit by exact (visiting_order_NoDup _ _ H).
  now apply visit_snapshot_without_draws.
Qed.

Lemma moveStandardMode_any_order (order : list nat) (roster : list Agent.t) (m : nat) :
  String.eqb currentStrategy "dispersed" = false ->
  visiting_order order roster ->
  visit_in_place (moveStandardMode rand currentStrategy) order roster m
  = mapM (moveStandardMode rand currentStrategy roster) roster m.
Proof.
  intros E H. rewrite moveStandardMode_visit by exact (visiting_order_NoDup _ _ H).
  set (g := fun a => fst (moveStandardMode rand currentStrategy roster a 0%nat)).
  assert (G : forall a k, moveStandardMode rand currentStrategy roster a k = (g a, k)).
  { intros a k. now apply moveStandardMode_no_draw. }
  rewrite (visit_snapshot_without_draws _ roster g G order m H).
  symmetry. now apply mapM_pure.
Qed.

Lemma moveMultiTheater_any_order (order : list nat) (roster : list Agent.t) (m : nat) :
  String.eqb currentStrategy "dispersed" = false ->
  visiting_order order roster ->
  visit_in_place (moveMultiTheater rand policy logistics currentStrategy) order roster m
  = mapM (moveMultiTheater rand policy logistics currentStrategy roster) roster m.
Proof.
  intros E H. rewrite moveMultiTheater_visit by exact (visiting_order_NoDup _ _ H).
  set (g := fun a =>
              fst (moveMultiTheater rand policy logistics currentStrategy roster a 0%nat)).
  assert (G : forall a k,
             moveMultiTheater rand policy logistics currentStrategy roster a k = (g a, k)).
  { intros a k. now apply moveMultiTheater_no_draw. }
  rewrite (visit_snapshot_without_draws _ roster g G order m H).
  symmetry. now apply mapM_pure.
Qed.

(** C4 (as amended).  Within a tick the movement pass reads the pre-pass
    snapshot, and it would compute the same had it read the roster being
    updated: no blue agent's movement affects another agent's
    nearest-target computation.  The damage pass reads the roster that
    the completed movement pass produced, so its engagement-distance checks
    use the positions after the movement, and it too would compute the same
    had it read the roster being updated.  This holds in both modes, for
    every sequence of random draws and in every order that visits no agent
    twice.  Hence the order in which a pass visits the agents matters only
    through the order in which the random numbers are drawn: the damage
    pass of standard mode, and the movement pass under every strategy but
    "dispersed", draw nothing and give the same roster in every visiting
    order, so that a tick of standard mode under such a strategy does not
    depend on the visiting order of either pass, and a tick of
    multi-theater mode does not depend on that of its movement pass. *)
Theorem passes_read_snapshots (prevAgents : list Agent.t) (theater : Theater.t)
    (n : nat) :
  (updateStandardMode rand currentStrategy prevAgents n
   = let (updatedAgents, n') :=
       mapM (moveStandardMode rand currentStrategy prevAgents) prevAgents n in
     (map (damageStandardMode updatedAgents) updatedAgents, n')) /\
  (updateStandardMode rand currentStrategy prevAgents n
   = let (updatedAgents, n') :=
       in_place (moveStandardMode rand currentStrategy) [] prevAgents n in
     in_place (fun s a => ret (damageStandardMode s a)) [] updatedAgents n') /\
  (updateTheater rand policy logistics currentStrategy theater n
   = let (updatedAgents, n') :=
       in_place (moveMultiTheater rand policy logistics currentStrategy) []
                (Theater.agents theater) n in
     let (finalAgents, n'') :=
       in_place (damageMultiTheater rand policy logistics) [] updatedAgents n' in
     (Theater.mk (Theater.id theater) (Theater.name theater) finalAgents
                 (Theater.priority theater), n'')) /\
  (forall order roster m,
      NoDup order ->
      visit_in_place (moveStandardMode rand currentStrategy) order roster m
      = visit_snapshot (moveStandardMode rand currentStrategy) roster order roster m /\
      visit_in_place (fun s a => ret (damageStandardMode s a)) order roster m
      = visit_snapshot (fun s a => ret (damageStandardMode s a)) roster order roster m /\
      visit_in_place (moveMultiTheater rand policy logistics currentStrategy)
                     order roster m
      = visit_snapshot (moveMultiTheater rand policy logistics currentStrategy)
                       roster order roster m /\
      visit_in_place (damageMultiTheater rand policy logistics) order roster m
      = visit_snapshot (damageMultiTheater rand policy logistics)
                       roster order roster m) /\
  (forall damageOrder,
      visiting_order damageOrder prevAgents ->
      visitStandardMode rand currentStrategy (roster_order prevAgents) damageOrder
                        prevAgents n
      = updateStandardMode rand currentStrategy prevAgents n) /\
  (forall moveOrder damageOrder,
      String.eqb currentStrategy "dispersed" = false ->
      visiting_order moveOrder prevAgents ->
      visiting_order damageOrder prevAgents ->
      visitStandardMode rand currentStrategy moveOrder damageOrder prevAgents n
      = updateStandardMode rand currentStrategy prevAgents n) /\
  (forall moveOrder,
      String.eqb currentStrategy "dispersed" = false ->
      visiting_order moveOrder (Theater.agents theater) ->
      visitTheater rand policy logistics currentStrategy moveOrder
                   (roster_order (Theater.agents theater)) theater n
      = updateTheater rand policy logistics currentStrategy theater n).
Proof.
  destruct (ticks_in_roster_order prevAgents theater n) as (A1 & A2 & A3).
  split; [exact A1|]. split; [exact A2|]. split; [exact A3|].
  split; [|split; [|split]].
  - intros order roster m H.
    split; [now apply moveStandardMode_visit|].
    split; [now apply damageStandardMode_visit|].
    split; [now apply moveMultiTheater_visit|now apply damageMultiTheater_visit].
  - intros damageOrder H. unfold visitStandardMode, updateStandardMode, bind, ret.
    rewrite moveStandardMode_visit by apply seq_NoDup.
    rewrite visit_snapshot_roster_order.
    pose proof (mapM_length (moveStandardMode rand currentStrategy prevAgents)
                  prevAgents n) as L.
    destruct (mapM _ prevAgents n) as [u n']. cbn [fst] in L.
    apply damageStandardMode_any_order.
    now apply (visiting_order_length damageOrder prevAgents).
  - intros moveOrder damageOrder E H1 H2.
    unfold visitStandardMode, updateStandardMode, bind, ret.
    rewrite moveStandardMode_any_order by assumption.
    pose proof (mapM_length (moveStandardMode rand currentStrategy prevAgents)
                  prevAgents n) as L.
    destruct (mapM _ prevAgents n) as [u n']. cbn [fst] in L.
    apply damageStandardMode_any_order.
    now apply (visiting_order_length damageOrder prevAgents).
  - intros moveOrder E H. unfold visitTheater, updateTheater, bind, ret.
    rewrite moveMultiTheater_any_order by assumption.
    pose proof (mapM_length
                  (moveMultiTheater rand policy logistics currentStrategy
                     (Theater.agents theater))
                  (Theater.agents theater) n) as L.
    destruct (mapM _ (Theater.agents theater) n) as [u n']. cbn [fst] in L.
    unfold roster_order. rewrite <- L.
    rewrite damageMultiTheater_visit by apply seq_NoDup.
    fold (roster_order u). rewrite visit_snapshot_roster_order.
    reflexivity.
Qed.

End Snapshots.

(** A blue agent at (0, 0) and a red agent at (37, 0) with health 100, one
    tick of standard mode under "direct": in the pre-pass snapshot the blue
    agent is 37 away, outside the engagement distance, and a damage pass
    reading the pre-pass positions leaves the health at 100; the code moves
    the blue agent to (2.5, 0) first, finds it 34.5 away, and takes 2 from
    the health. *)
Lemma standard_tick_at_37 :
  let rand := fun _ : nat => 0 in
  let prev := [blue_at "b0" 0 0; red_at "r0" 37 0 100] in
  distance (red_at "r0" 37 0 100) (blue_at "b0" 0 0) = 37 /\
  fst (prepass_updateStandardMode rand "direct" prev 0%nat)
  = [Agent.mk "b0" 2.5 0 (BlueAttrs 2.5 0 true None None); red_at "r0" 37 0 100] /\
  fst (updateStandardMode rand "direct" prev 0%nat)
  = [Agent.mk "b0" 2.5 0 (BlueAttrs 2.5 0 true None None); red_at "r0" 37 0 98] /\
  fst (updateStandardMode rand "direct" prev 0%nat)
  <> fst (prepass_updateStandardMode rand "direct" prev 0%nat).
Proof.
  cbv zeta.
  assert (D : distance (red_at "r0" 37 0 100) (blue_at "b0" 0 0) = 37).
  { unfold distance, blue_at, red_at. cbn [Agent.x Agent.y].
    replace (0 - 0) with 0 by ring. rewrite hypot_east.
    rewrite Rabs_left1 by lra. ring. }
  assert (P : fst (prepass_updateStandardMode (fun _ => 0) "direct"
                     [blue_at "b0" 0 0; red_at "r0" 37 0 100] 0%nat)
              = [Agent.mk "b0" 2.5 0 (BlueAttrs 2.5 0 true None None);
                 red_at "r0" 37 0 100]).
  { unfold prepass_updateStandardMode. cbn [mapM]. unfold bind.
    rewrite (moveStandardMode_east _ "b0" _ (red_at "r0" 37 0 100))
      by (try apply live_red_duel; cbn [red_at Agent.x Agent.y];
          try reflexivity; lra).
    rewrite moveStandardMode_red by reflexivity.
    unfold ret. cbn [fst map]. f_equal. f_equal.
    rewrite damageStandardMode_duel
      by (cbn [blue_at Agent.x Agent.y]; try reflexivity; lra).
    cbn [blue_at Agent.x]. rltb. reflexivity. }
  assert (U : fst (updateStandardMode (fun _ => 0) "direct"
                     [blue_at "b0" 0 0; red_at "r0" 37 0 100] 0%nat)
              = [Agent.mk "b0" 2.5 0 (BlueAttrs 2.5 0 true None None);
                 red_at "r0" 37 0 98]).
  { rewrite updateStandardMode_duel by lra. cbn [fst]. rltb.
    unfold JsMath.max. rewrite Rmax_right by lra.
    replace (100 - 2) with 98 by lra. reflexivity. }
  repeat split; try assumption.
  rewrite U, P. intro E. inversion E. lra.
Qed.

(** A theater with a blue agent at (0, 0) and red agents at (10, 0) and
    (20, 0), comms reliability 50, one tick under "direct" with the first
    draw 0 and the others 0.9: the blue agent moves to (2.5, 0), within the
    engagement distance of both red agents, and the one roll below 0.5 goes
    to the red agent that the damage pass visits first. *)
Lemma theater_tick_with_two_targets :
  let rolls := fun k : nat => match k with O => 0 | S _ => 0.9 end in
  let policy := Policy.mk 100 standard "balanced" 50 in
  let logistics := Logistics.mk 100 100 50 100 in
  let b0 := Agent.mk "t0-b0" 0 0 (BlueAttrs 0 0 true (Some 100) (Some 100)) in
  let b0' := Agent.mk "t0-b0" 2.5 0 (BlueAttrs 2.5 0 true (Some 100) (Some 100)) in
  let theater :=
    Theater.mk 0 "Northern Front"
               [b0; red_at "t0-r0" 10 0 100; red_at "t0-r1" 20 0 100] 0.5 in
  visiting_order [0; 2; 1]%nat (Theater.agents theater) /\
  Theater.agents (fst (updateTheater rolls policy logistics "direct" theater 0%nat))
  = [b0'; red_at "t0-r0" 10 0 98; red_at "t0-r1" 20 0 100] /\
  Theater.agents
    (fst (visitTheater rolls policy logistics "direct"
            (roster_order (Theater.agents theater)) [0; 2; 1]%nat theater 0%nat))
  = [b0'; red_at "t0-r0" 10 0 100; red_at "t0-r1" 20 0 98].
Proof.
  cbv zeta.
  set (rolls := fun k : nat => match k with O => 0 | S _ => 0.9 end).
  set (policy := Policy.mk 100 standard "balanced" 50).
  set (logistics := Logistics.mk 100 100 50 100).
  set (b0 := Agent.mk "t0-b0" 0 0 (BlueAttrs 0 0 true (Some 100) (Some 100))).
  set (b0' := Agent.mk "t0-b0" 2.5 0 (BlueAttrs 2.5 0 true (Some 100) (Some 100))).
  cbn [Theater.agents].
  assert (V : visiting_order [0; 2; 1]%nat
                [b0; red_at "t0-r0" 10 0 100; red_at "t0-r1" 20 0 100]).
  { unfold visiting_order. cbn [List.length seq]. apply perm_skip, perm_swap. }
  assert (M : mapM (moveMultiTheater rolls policy logistics "direct"
                      [b0; red_at "t0-r0" 10 0 100; red_at "t0-r1" 20 0 100])
                   [b0; red_at "t0-r0" 10 0 100; red_at "t0-r1" 20 0 100] 0%nat
              = ([b0'; red_at "t0-r0" 10 0 100; red_at "t0-r1" 20 0 100], 0%nat)).
  { cbn [mapM]. unfold bind.
    assert (B : moveMultiTheater rolls policy logistics "direct"
                  [b0; red_at "t0-r0" 10 0 100; red_at "t0-r1" 20 0 100] b0 0%nat
                = (b0', 0%nat)).
    { rewrite moveMultiTheater_cases. subst b0.
      cbn [Agent.is_active_blue Agent.attrs_of filter Agent.is_live_red red_at].
      rltb. unfold findNearest. cbn [fold_left]. unfold nearest_step at 2.
      cbn [snd]. unfold nearest_step, distance. cbn [snd fst Agent.x Agent.y red_at].
      replace (0 - 0) with 0 by ring. rewrite !hypot_east.
      rewrite !Rabs_right by lra. rltb. cbn [fst].
      rewrite getStrategyBehavior_direct. unfold bearing. cbn [Agent.x Agent.y red_at].
      replace (0 - 0) with 0 by ring. rewrite atan2_east by lra.
      rewrite cos_0, sin_0. cbn [vx vy]. unfold Agent.with_motion.
      cbn [Agent.attrs_of Agent.id]. unfold aggressionMod, policy, logistics.
      cbn [Policy.roe Logistics.transportCapacity].
      replace (0 + 1 * 2.5 * 1 * (100 / 100)) with 2.5 by lra.
      replace (0 + 0 * 2.5 * 1 * (100 / 100)) with 0 by lra.
      replace (1 * 2.5 * 1) with 2.5 by lra. replace (0 * 2.5 * 1) with 0 by lra.
      rewrite !clamp_id by (unfold GRID_SIZE; lra). reflexivity. }
    rewrite B. rewrite !moveMultiTheater_red by reflexivity. reflexivity. }
  assert (D : forall (r : string) (d : R) (k : nat),
             2.5 <= d -> d - 2.5 < 35 ->
             damageMultiTheater rolls policy logistics
               [b0'; red_at "t0-r0" 10 0 100; red_at "t0-r1" 20 0 100]
               (red_at r d 0 100) k
             = (if Rltb (rolls k) 0.5 then red_at r d 0 98 else red_at r d 0 100,
                S k)).
  { intros r d k H1 H2.
    change (damageMultiTheater rolls policy logistics
              [b0'; red_at "t0-r0" 10 0 100; red_at "t0-r1" 20 0 100]
              (red_at r d 0 100) k)
      with (damageMultiTheater rolls policy logistics [b0'; red_at r d 0 100]
              (red_at r d 0 100) k).
    rewrite damageMultiTheater_duel
      by (subst b0'; cbn [Agent.x Agent.y]; try reflexivity; lra).
    subst b0'. cbn [Agent.x]. rltb.
    unfold logistics, policy, hitDamage, HIT_DAMAGE, JsMath.max.
    cbn [Logistics.commsReliability Policy.roe].
    rewrite Rmax_right by lra.
    replace (50 / 100) with 0.5 by lra. replace (100 - 2) with 98 by lra.
    reflexivity. }
  assert (D0 : forall k,
             damageMultiTheater rolls policy logistics
               [b0'; red_at "t0-r0" 10 0 100; red_at "t0-r1" 20 0 100] b0' k
             = (b0', k)).
  { intro k. now apply damageMultiTheater_blue. }
  assert (R0 : Rltb (rolls 0%nat) 0.5 = true) by (unfold rolls; rltb; reflexivity).
  assert (R1 : Rltb (rolls 1%nat) 0.5 = false) by (unfold rolls; rltb; reflexivity).
  split; [exact V|]. split.
  - unfold updateTheater, bind, ret. cbn [Theater.agents]. rewrite M.
    cbn [mapM]. unfold bind, ret. rewrite D0.
    rewrite !D by lra. rewrite R0, R1. reflexivity.
  - unfold visitTheater, bind, ret. cbn [Theater.agents].
    rewrite moveMultiTheater_visit by apply seq_NoDup.
    rewrite visit_snapshot_roster_order, M.
    rewrite damageMultiTheater_visit by exact (visiting_order_NoDup _ _ V).
    cbn [visit_snapshot nth_error]. unfold bind, ret. rewrite D0.
    rewrite !D by lra. rewrite R0, R1. reflexivity.
Qed.

(** C4, counterexample.  First, the damage pass does not read the pre-pass
    positions: a blue agent at (0, 0) and a red agent at (37, 0), one tick
    of standard mode under "direct"; the blue agent is 37 away before the
    movement and 34.5 away after it, and the code takes 2 from the health
    where a damage pass reading the pre-pass positions takes nothing.
    Second, the result of a tick depends on the visiting order of a pass
    that draws random numbers: a theater with a blue agent at (0, 0) and
    red agents at (10, 0) and (20, 0), comms reliability 50, first draw 0
    and second draw 0.9; the code visits the first red agent first and
    hits it, and the same tick with the damage pass visiting the second
    red agent first hits that one instead. *)
Lemma tick_depends_on_movement_and_draw_order :
  (let rand := fun _ : nat => 0 in
   let prev := [blue_at "b0" 0 0; red_at "r0" 37 0 100] in
   distance (red_at "r0" 37 0 100) (blue_at "b0" 0 0) = 37 /\
   fst (prepass_updateStandardMode rand "direct" prev 0%nat)
   = [Agent.mk "b0" 2.5 0 (BlueAttrs 2.5 0 true None None); red_at "r0" 37 0 100] /\
   fst (updateStandardMode rand "direct" prev 0%nat)
   = [Agent.mk "b0" 2.5 0 (BlueAttrs 2.5 0 true None None); red_at "r0" 37 0 98] /\
   fst (updateStandardMode rand "direct" prev 0%nat)
   <> fst (prepass_updateStandardMode rand "direct" prev 0%nat)) /\
  (let rolls := fun k : nat => match k with O => 0 | S _ => 0.9 end in
   let policy := Policy.mk 100 standard "balanced" 50 in
   let logistics := Logistics.mk 100 100 50 100 in
   let b0 := Agent.mk "t0-b0" 0 0 (BlueAttrs 0 0 true (Some 100) (Some 100)) in
   let b0' := Agent.mk "t0-b0" 2.5 0 (BlueAttrs 2.5 0 true (Some 100) (Some 100)) in
   let theater :=
     Theater.mk 0 "Northern Front"
                [b0; red_at "t0-r0" 10 0 100; red_at "t0-r1" 20 0 100] 0.5 in
   visiting_order [0; 2; 1]%nat (Theater.agents theater) /\
   Theater.agents (fst (updateTheater rolls policy logistics "direct" theater 0%nat))
   = [b0'; red_at "t0-r0" 10 0 98; red_at "t0-r1" 20 0 100] /\
   Theater.agents
     (fst (visitTheater rolls policy logistics "direct"
             (roster_order (Theater.agents theater)) [0; 2; 1]%nat theater 0%nat))
   = [b0'; red_at "t0-r0" 10 0 100; red_at "t0-r1" 20 0 98] /\
   fst (visitTheater rolls policy logistics "direct"
          (roster_order (Theater.agents theater)) [0; 2; 1]%nat theater 0%nat)
   <> fst (updateTheater rolls policy logistics "direct" theater 0%nat)).
Proof.
  split; [exact standard_tick_at_37|].
  destruct theater_tick_with_two_targets as (V & U & W).
  cbv zeta in *. split; [exact V|]. split; [exact U|]. split; [exact W|].
  intro E. rewrite E, U in W. inversion W. lra.
Qed.

(** C9, counterexample.  With [supplyRate = commsReliability = 0] the
    logistics factor is 0 and the time to the objective is [Infinity]: no
    finite sentinel, and not an integer. *)
Lemma timeToObjective_zero_logistics_is_infinite :
  let m := updateMissionMetrics standard_mode [] []
             (Policy.mk 100 standard "balanced" 50) (Logistics.mk 0 100 0 100) in
  MissionMetrics.timeToObjective m = PosInfinity /\
  ~ (exists k : Z, MissionMetrics.timeToObjective m = Finite (IZR k)).
Proof.
  cbv zeta.
  assert (E : MissionMetrics.timeToObjective
                (updateMissionMetrics standard_mode [] []
                   (Policy.mk 100 standard "balanced" 50) (Logistics.mk 0 100 0 100))
              = PosInfinity).
  { unfold updateMissionMetrics.
    cbn [MissionMetrics.timeToObjective Logistics.supplyRate Logistics.commsReliability].
    unfold js_div. destruct (Req_dec_T ((0 + 0) / 200 * 2) 0) as [_|H]; [|lra].
    destruct (Rlt_dec 0 100); [reflexivity|lra]. }
  split; [exact E|]. rewrite E. intros [k H]. discriminate.
Qed.

(** C9 (as amended).  The time to the objective is
    [floor(100 / (logisticsMod * 2))] with
    [logisticsMod = (supplyRate + commsReliability) / 200] whenever the
    factor is not zero, a non-negative integer when the factor is positive;
    when the factor is zero the division does not fail and the result is
    [Infinity], which is neither finite nor an integer. *)
Theorem timeToObjective_formula (mode : mode_t) (theaters : list Theater.t)
    (agents : list Agent.t) (policy : Policy.t) (logistics : Logistics.t) :
  let logisticsMod :=
    (Logistics.supplyRate logistics + Logistics.commsReliability logistics) / 200 in
  let t := MissionMetrics.timeToObjective
             (updateMissionMetrics mode theaters agents policy logistics) in
  (logisticsMod <> 0 -> t = Finite (IZR (JsMath.floor (100 / (logisticsMod * 2))))) /\
  (0 < logisticsMod -> exists k : Z, t = Finite (IZR k) /\ (0 <= k)%Z) /\
  (logisticsMod = 0 -> t = PosInfinity /\ forall r : R, t <> Finite r).
Proof.
  cbv zeta.
  destruct (timeToObjective_cases mode theaters agents policy logistics)
    as (H1 & H2 & H3).
  split; [exact H1|]. split; [exact H3|].
  intro H. rewrite (H2 H). split; [reflexivity|discriminate].
Qed.

(* ------------------------------------------------------------------ *)
(** ** Agent numbers and the strategies that read them *)

(** The ids of standard mode: the agent number is the sequence number. *)
Lemma agentNum_standard_ids :
  Forall (fun i => agentNum ("b" ++ nat_to_string i) = N.of_nat i) (seq 0 20).
Proof. repeat constructor. Qed.

(** The ids of multi-theater mode: the agent number is the theater index,
    whatever the sequence number. *)
Lemma agentNum_theater_ids :
  Forall (fun t =>
            Forall (fun i =>
                      agentNum ("t" ++ nat_to_string t ++ "-b" ++ nat_to_string i)
                      = N.of_nat t)
                   (seq 0 13))
         (seq 0 NUM_THEATERS).
Proof. repeat constructor. Qed.

(** C8.  Under "flank" the sign of the 60 degree offset follows the parity
    of the first run of digits of the id.  For the standard id "b3" this is
    the sequence number 3, odd, and the angle is the bearing minus 60
    degrees.  For the multi-theater id "t2-b3" it is the theater index 2,
    even, and the angle is the bearing plus 60 degrees although the
    sequence number 3 is odd: with the target due east the agent turns
    north ([vy > 0]) where the parity of its sequence number turns it
    south. *)
Theorem flank_parity_reads_first_digits (rand : nat -> R) (n : nat) :
  let target := red_at "r0" 100 0 100 in
  agentNum "b3" = 3%N /\ agentNum "t2-b3" = 2%N /\
  getStrategyBehavior rand (blue_at "b3" 0 0) (Some target) "flank" None n
  = (mkBehavior (cos (0 + - JsMath.PI / 3) * 2) (sin (0 + - JsMath.PI / 3) * 2), n) /\
  getStrategyBehavior rand (blue_at "t2-b3" 0 0) (Some target) "flank" None n
  = (mkBehavior (cos (0 + JsMath.PI / 3) * 2) (sin (0 + JsMath.PI / 3) * 2), n) /\
  sin (0 + - JsMath.PI / 3) * 2 < 0 < sin (0 + JsMath.PI / 3) * 2.
Proof.
  cbv zeta.
  assert (B : forall id, bearing (blue_at id 0 0) (red_at "r0" 100 0 100) = 0).
  { intro id. unfold bearing, blue_at, red_at. cbn [Agent.x Agent.y].
    replace (0 - 0) with 0 by ring. replace (100 - 0) with 100 by ring.
    apply atan2_east. lra. }
  split; [reflexivity|]. split; [reflexivity|].
  split; [|split].
  - rewrite getStrategyBehavior_flank, B. reflexivity.
  - rewrite getStrategyBehavior_flank, B. reflexivity.
  - unfold JsMath.PI. rewrite !Rplus_0_l.
    replace (- PI / 3) with (- (PI / 3)) by lra.
    rewrite sin_neg, sin_PI3.
    assert (0 < sqrt 3) by (apply sqrt_lt_R0; lra). lra.
Qed.

(** C10.  Both tick engines call the steering function without the elapsed
    time, which is then 0: under "concentrated" the angle of a moved agent
    is its bearing plus [sin(agentNum) * 0.3], where [agentNum] depends on
    the id only, and the elapsed time is not an input of either tick. *)
Theorem concentrated_offset_ignores_time (rand : nat -> R) (policy : Policy.t)
    (logistics : Logistics.t) (snapshot : list Agent.t) (agent : Agent.t) (n : nat) :
  let offset := sin (IZR (Z.of_N (agentNum (Agent.id agent)))) * 0.3 in
  (forall target,
      getStrategyBehavior rand agent (Some target) "concentrated" None n
      = (mkBehavior (cos (bearing agent target + offset) * 3)
                    (sin (bearing agent target + offset) * 3), n)) /\
  moveStandardMode rand "concentrated" snapshot agent n
  = (if Agent.is_active_blue agent then
       match findNearest agent (filter Agent.is_live_red snapshot) with
       | None => agent
       | Some target =>
           let angle := bearing agent target + offset in
           Agent.with_motion agent (cos angle * 3) (sin angle * 3)
             (clamp (Agent.x agent + cos angle * 3))
             (clamp (Agent.y agent + sin angle * 3))
       end
     else agent, n) /\
  moveMultiTheater rand policy logistics "concentrated" snapshot agent n
  = (if Agent.is_active_blue agent then
       match findNearest agent (filter Agent.is_live_red snapshot) with
       | None => agent
       | Some target =>
           let angle := bearing agent target + offset in
           let m := aggressionMod policy in
           let t := Logistics.transportCapacity logistics / 100 in
           Agent.with_motion agent (cos angle * 3 * m) (sin angle * 3 * m)
             (clamp (Agent.x agent + cos angle * 3 * m * t))
             (clamp (Agent.y agent + sin angle * 3 * m * t))
       end
     else agent, n).
Proof.
  cbv zeta.
  assert (G : forall target,
             getStrategyBehavior rand agent (Some target) "concentrated" None n
             = (mkBehavior
                  (cos (bearing agent target
                        + sin (IZR (Z.of_N (agentNum (Agent.id agent)))) * 0.3) * 3)
                  (sin (bearing agent target
                        + sin (IZR (Z.of_N (agentNum (Agent.id agent)))) * 0.3) * 3),
                n)).
  { intro target. rewrite getStrategyBehavior_concentrated. cbv zeta.
    now rewrite Rplus_0_l. }
  split; [exact G|]. split.
  - rewrite moveStandardMode_cases.
    destruct (Agent.is_active_blue agent); [|reflexivity].
    destruct (findNearest agent _) as [target|]; [|reflexivity].
    rewrite G. reflexivity.
  - rewrite moveMultiTheater_cases.
    destruct (Agent.is_active_blue agent); [|reflexivity].
    destruct (findNearest agent _) as [target|]; [|reflexivity].
    rewrite G. reflexivity.
Qed.

(** With the elapsed time passed, the offset would follow it. *)
Lemma concentrated_offset_with_time (rand : nat -> R) (agent target : Agent.t)
    (time : R) (n : nat) :
  getStrategyBehavior rand agent (Some target) "concentrated" (Some time) n
  = let angle :=
      bearing agent target
      + sin (time + IZR (Z.of_N (agentNum (Agent.id agent)))) * 0.3 in
    (mkBehavior (cos angle * 3) (sin angle * 3), n).
Proof. apply getStrategyBehavior_concentrated. Qed.

(* ------------------------------------------------------------------ *)
(** ** Further properties of the engine *)

Lemma nearest_step_some (agent c a : Agent.t) (d : R) :
  nearest_step agent (c, Some d) a
  = if Rltb (distance agent a) d then (a, Some (distance agent a)) else (c, Some d).
Proof. reflexivity. Qed.

Lemma nearest_fold (agent : Agent.t) (l : list Agent.t) (c : Agent.t) :
  let r := fst (fold_left (nearest_step agent) l (c, Some (distance agent c))) in
  (r = c /\ forall t, In t l -> distance agent c <= distance agent t) \/
  (exists l1 l2,
      l = l1 ++ r :: l2 /\ distance agent r < distance agent c /\
      (forall t, In t l1 -> distance agent r < distance agent t) /\
      (forall t, In t l2 -> distance agent r <= distance agent t)).
Proof.
  revert c. induction l as [|a rest IH]; intro c; cbv zeta.
  - left. split; [reflexivity|]. intros t [].
  - cbn [fold_left]. rewrite nearest_step_some.
    destruct (Rltb (distance agent a) (distance agent c)) eqn:E.
    + apply Rltb_true in E. right.
      destruct (IH a) as [[Hr Hall]|(l1 & l2 & Hl & Hlt & H1 & H2)].
      * exists [], rest. rewrite Hr. repeat split; try assumption. intros t [].
      * exists (a :: l1), l2. repeat split; try assumption.
        -- cbn [app]. now rewrite <- Hl.
        -- lra.
        -- intros t [<-|Ht]; [exact Hlt|now apply H1].
    + apply Rltb_false in E.
      destruct (IH c) as [[Hr Hall]|(l1 & l2 & Hl & Hlt & H1 & H2)].
      * left. split; [exact Hr|]. intros t [<-|Ht]; [exact E|now apply Hall].
      * right. exists (a :: l1), l2. repeat split; try assumption.
        -- cbn [app]. now rewrite <- Hl.
        -- intros t [<-|Ht]; [lra|now apply H1].
Qed.

(** X1.  [findNearest] returns [None] on an empty list only; otherwise it
    returns a target at the least distance, and among the targets at that
    distance the first one in iteration order. *)
Theorem findNearest_first_nearest (agent : Agent.t) (targets : list Agent.t) :
  match findNearest agent targets with
  | None => targets = []
  | Some nearest =>
      exists before after,
        targets = before ++ nearest :: after /\
        (forall t, In t before -> distance agent nearest < distance agent t) /\
        (forall t, In t after -> distance agent nearest <= distance agent t)
  end.
Proof.
  destruct targets as [|first rest]; [reflexivity|].
  unfold findNearest. cbn [fold_left].
  change (nearest_step agent (first, None) first)
    with (first, Some (distance agent first)).
  destruct (nearest_fold agent rest first)
    as [[Hr Hall]|(l1 & l2 & Hl & Hlt & H1 & H2)].
  - exists [], rest. rewrite Hr. repeat split; try assumption. intros t [].
  - exists (first :: l1), l2. repeat split; try assumption.
    + cbn [app]. now rewrite <- Hl.
    + intros t [<-|Ht]; [exact Hlt|now apply H1].
Qed.

Lemma insert_by_score_perm (c : COA.t) (l : list COA.t) :
  Permutation (insert_by_score c l) (c :: l).
Proof.
  induction l as [|h rest IH]; simpl; [reflexivity|].
  destruct (Rltb (COA.score h) (COA.score c)); [reflexivity|].
  rewrite IH. apply perm_swap.
Qed.

(** X2.  The sort of the leaderboard keeps every entry: its result is a
    permutation of its argument, in descending order of score. *)
Theorem sort_by_score_sorts (l : list COA.t) :
  Permutation (sort_by_score l) l /\ StronglySorted score_desc (sort_by_score l).
Proof.
  split; [|apply sort_by_score_sorted].
  unfold sort_by_score.
  assert (G : forall acc,
             Permutation (fold_left (fun sorted c => insert_by_score c sorted) l acc)
                         (acc ++ l)).
  { induction l as [|c rest IH]; intro acc; simpl.
    - now rewrite app_nil_r.
    - rewrite IH, insert_by_score_perm. apply Permutation_middle. }
  apply (G []).
Qed.

Lemma getStrategyBehavior_unknown (rand : nat -> R) (agent target : Agent.t)
    (strategy : string) (time : option R) (n : nat) :
  ~ In strategy (map Strategy.approach strategies) ->
  getStrategyBehavior rand agent (Some target) strategy time n
  = (mkBehavior (cos (bearing agent target) * 2.5)
                (sin (bearing agent target) * 2.5), n).
Proof.
  intro H.
  assert (E : forall l, In l (map Strategy.approach strategies) ->
                        String.eqb l strategy = false /\ String.eqb strategy l = false).
  { intros l Hl. split; apply String.eqb_neq; intros ->; contradiction. }
  cbn [map strategies direct_assault Strategy.approach] in E.
  unfold getStrategyBehavior.
  cbn [find strategies direct_assault Strategy.approach].
  rewrite (proj1 (E "direct"%string ltac:(simpl; tauto))),
          (proj1 (E "flank"%string ltac:(simpl; tauto))),
          (proj1 (E "pincer"%string ltac:(simpl; tauto))),
          (proj1 (E "dispersed"%string ltac:(simpl; tauto))),
          (proj1 (E "concentrated"%string ltac:(simpl; tauto))),
          (proj1 (E "hitrun"%string ltac:(simpl; tauto))),
          (proj2 (E "flank"%string ltac:(simpl; tauto))),
          (proj2 (E "pincer"%string ltac:(simpl; tauto))),
          (proj2 (E "dispersed"%string ltac:(simpl; tauto))),
          (proj2 (E "concentrated"%string ltac:(simpl; tauto))),
          (proj2 (E "hitrun"%string ltac:(simpl; tauto))).
  cbn [nth Strategy.speed]. unfold bind, ret. cbn [fst snd]. reflexivity.
Qed.

(** X3.  The steering table, for every agent, target, time and random
    source.  No target gives the zero velocity.  "direct", and every
    strategy identifier that is not one of the six of the table, steers
    along the bearing at speed 2.5.  "flank" steers at speed 2 along the
    bearing plus pi/3 when the agent number is even and minus pi/3 when it
    is odd; "pincer" likewise with pi/2.5; "concentrated" at speed 3 along
    the bearing plus 0.3 sin(time + agent number).  "hitrun" within 80 of
    the target steers along the bearing plus pi at speed 3.5 * 1.5, and
    along the bearing at speed 3.5 otherwise.  "dispersed" draws one random
    number r and steers along the bearing plus (r - 0.5) pi / 2 at speed
    1.8.  Only "dispersed" draws. *)
Theorem steering_table (rand : nat -> R) (agent target : Agent.t)
    (time : option R) (n : nat) :
  let b := bearing agent target in
  let k := agentNum (Agent.id agent) in
  let t := match time with Some t => t | None => 0 end in
  let go angle speed := mkBehavior (cos angle * speed) (sin angle * speed) in
  (forall strategy,
      getStrategyBehavior rand agent None strategy time n = (mkBehavior 0 0, n)) /\
  getStrategyBehavior rand agent (Some target) "direct" time n = (go b 2.5, n) /\
  getStrategyBehavior rand agent (Some target) "ambush" time n = (go b 2.5, n) /\
  getStrategyBehavior rand agent (Some target) "hitrun" time n
  = (if Rltb (distance agent target) 80 then go (b + JsMath.PI) (3.5 * 1.5)
     else go b 3.5, n) /\
  getStrategyBehavior rand agent (Some target) "dispersed" time n
  = (go (b + (rand n - 0.5) * JsMath.PI / 2) 1.8, S n) /\
  (forall strategy,
      ~ In strategy (map Strategy.approach strategies) ->
      getStrategyBehavior rand agent (Some target) strategy time n = (go b 2.5, n)) /\
  getStrategyBehavior rand agent (Some target) "flank" time n
  = (go (b + (if N.eqb (k mod 2) 0 then JsMath.PI / 3 else - JsMath.PI / 3)) 2, n) /\
  getStrategyBehavior rand agent (Some target) "pincer" time n
  = (go (b + (if N.eqb (k mod 2) 0 then JsMath.PI / 2.5 else - JsMath.PI / 2.5)) 2, n) /\
  getStrategyBehavior rand agent (Some target) "concentrated" time n
  = (go (b + sin (t + IZR (Z.of_N k)) * 0.3) 3, n).
Proof.
  cbv zeta. split; [reflexivity|]. split; [apply getStrategyBehavior_direct|].
  split; [steer; reflexivity|]. split.
  { steer. unfold distance, bearing. destruct (Rltb _ 80); reflexivity. }
  split; [steer; reflexivity|].
  split; [intros strategy H; now apply getStrategyBehavior_unknown|].
  split; [apply getStrategyBehavior_flank|].
  split; [steer; reflexivity|].
  apply getStrategyBehavior_concentrated.
Qed.

(** X4.  The coverage gaps are the two fixed sectors when the force level
    is below 80 and empty otherwise: two sectors at 60, none at 85. *)
Theorem coverageGaps_threshold (mode : mode_t) (theaters : list Theater.t)
    (agents : list Agent.t) (roe : roe_t) (intent : string) (risk : R)
    (logistics : Logistics.t) :
  let gaps forceLevel :=
    MissionMetrics.coverageGaps
      (updateMissionMetrics mode theaters agents
         (Policy.mk forceLevel roe intent risk) logistics) in
  (forall forceLevel,
      gaps forceLevel
      = if Rlt_dec forceLevel 80 then ["Sector B"; "Eastern Flank"]%string else []) /\
  gaps 60 = ["Sector B"; "Eastern Flank"]%string /\
  gaps 85 = [].
Proof.
  cbv zeta. unfold updateMissionMetrics.
  cbn [MissionMetrics.coverageGaps Policy.forceLevel]. split; [|split].
  - intro forceLevel. unfold Rltb. destruct (Rlt_dec forceLevel 80); reflexivity.
  - rltb. reflexivity.
  - rltb. reflexivity.
Qed.

(** X5.  The ids given at initialisation: in standard mode the agent number
    read by the steering model is the sequence number of the agent; in
    multi-theater mode it is the theater index, whatever the sequence
    number. *)
Theorem agentNum_of_initial_ids :
  Forall (fun i => agentNum ("b" ++ nat_to_string i) = N.of_nat i) (seq 0 20) /\
  Forall (fun t =>
            Forall (fun i =>
                      agentNum ("t" ++ nat_to_string t ++ "-b" ++ nat_to_string i)
                      = N.of_nat t)
                   (seq 0 13))
         (seq 0 NUM_THEATERS).
Proof. split; [exact agentNum_standard_ids|exact agentNum_theater_ids]. Qed.

(** X6.  A damage callback leaves a red agent as it is, and draws nothing,
    when no active blue agent of the roster is within the engagement
    distance; in multi-theater mode each active blue agent within it draws
    once and adds the damage of one hit exactly when its draw is below
    [commsReliability / 100]. *)
Theorem damage_only_within_engagement_distance (rand : nat -> R)
    (policy : Policy.t) (logistics : Logistics.t) (updatedAgents : list Agent.t)
    (agent blueAgent : Agent.t) (total : R) (n : nat) :
  (Forall (fun b => ENGAGEMENT_DISTANCE <= distance agent b)
          (filter Agent.is_active_blue updatedAgents) ->
   damageStandardMode updatedAgents agent = agent /\
   damageMultiTheater rand policy logistics updatedAgents agent n = (agent, n)) /\
  rollDamage rand policy logistics agent total blueAgent n
  = if Rltb (distance agent blueAgent) 35 then
      (if Rltb (rand n) (Logistics.commsReliability logistics / 100)
       then total + match Policy.roe policy with
                    | defensive => 2 * 0.5
                    | aggressive => 2 * 1.5
                    | standard => 2
                    end
       else total, S n)
    else (total, n).
Proof.
  split.
  - intro H.
    assert (F : forall l, Forall (fun b => ENGAGEMENT_DISTANCE <= distance agent b) l ->
               forall acc, fold_left (flatDamage agent) l acc = acc).
    { intros l Hl. induction Hl as [|b l Hb _ IH]; intro acc; cbn [fold_left];
        [reflexivity|].
      replace (flatDamage agent acc b) with acc; [apply IH|].
      unfold flatDamage. now rewrite (proj2 (Rltb_false _ _) Hb). }
    assert (G : forall l, Forall (fun b => ENGAGEMENT_DISTANCE <= distance agent b) l ->
               forall acc m,
                 foldM (rollDamage rand policy logistics agent) l acc m = (acc, m)).
    { intros l Hl. induction Hl as [|b l Hb _ IH]; intros acc m; cbn [foldM];
        [reflexivity|].
      unfold bind.
      replace (rollDamage rand policy logistics agent acc b m) with (acc, m);
        [apply IH|].
      unfold rollDamage. now rewrite (proj2 (Rltb_false _ _) Hb). }
    unfold damageStandardMode, damageMultiTheater.
    destruct (Agent.attrs_of agent) as [|h]; [split; reflexivity|].
    destruct (Rltb 0 h); [|split; reflexivity].
    rewrite (F _ H). unfold bind. rewrite (G _ H). rltb. split; reflexivity.
  - unfold rollDamage, ENGAGEMENT_DISTANCE, hitDamage, HIT_DAMAGE.
    destruct (Rltb _ 35); [|reflexivity].
    unfold bind, Math_random, ret. destruct (Rltb (rand n) _); reflexivity.
Qed.

(** The example of the metrics engine on a roster of standard mode: ten
    active blue agents and five living red agents. *)
Example successProbability_example :
  MissionMetrics.successProbability
    (updateMissionMetrics standard_mode []
       (repeat (blue_at "b0" 10 10) 10 ++ repeat (red_at "r0" 300 10 100) 5)
       (Policy.mk 100 standard "balanced" 50) (Logistics.mk 100 100 100 100))
  = 80.
Proof.
  rewrite successProbability_refines.
  unfold activeBlueCount, activeRedCount, allAgents.
  cbn [repeat app filter Agent.is_live_red Agent.is_active_blue blue_at red_at
       Agent.attrs_of]. rltb. cbn [List.length].
  unfold spec_successProbability.
  cbn [Policy.forceLevel Policy.roe Logistics.supplyRate Logistics.commsReliability].
  replace (INR 10) with 10 by (simpl; lra).
  replace (INR 5) with 5 by (simpl; lra).
  replace (Rmax 1 5) with 5 by (unfold Rmax; destruct (Rle_dec 1 5); lra).
  match goal with
  | |- context [Rlt_dec ?q 0] => replace q with 80 by field
  end.
  destruct (Rlt_dec 80 0); [lra|]. destruct (Rlt_dec 100 80); lra.
Qed.

(* ================================================================== *)
(** * Further properties of the engine *)

(* ------------------------------------------------------------------ *)
(** ** What a tick keeps *)

Lemma evolves_refl (a : Agent.t) : evolves a a.
Proof.
  unfold evolves. split; [reflexivity|].
  destruct (Agent.attrs_of a) as [vx0 vy0 act fuel ammo|h] eqn:E.
  - split; [now exists vx0, vy0|reflexivity].
  - exists h. repeat split; try lra. destruct a; simpl in *. now subst.
Qed.

Lemma evolves_trans (a b c : Agent.t) : evolves a b -> evolves b c -> evolves a c.
Proof.
  unfold evolves. intros [Hid1 H1] [Hid2 H2].
  split; [congruence|].
  destruct (Agent.attrs_of a) as [vx0 vy0 act fuel ammo|h].
  - destruct H1 as [(vx1 & vy1 & E1) K1]. rewrite E1 in H2.
    destruct H2 as [(vx2 & vy2 & E2) K2].
    split; [now exists vx2, vy2|]. intro Hact.
    rewrite (K2 Hact). now apply K1.
  - destruct H1 as (h1 & Hle1 & Hpos1 & Hdead1 & ->). cbn [Agent.attrs_of] in H2.
    destruct H2 as (h2 & Hle2 & Hpos2 & Hdead2 & ->).
    exists h2. cbn [Agent.id Agent.x Agent.y].
    split; [lra|]. split; [intro H; apply Hpos2; now apply Hpos1|].
    split; [|reflexivity].
    intro H. rewrite Hdead2; [now apply Hdead1|]. rewrite Hdead1; lra.
Qed.

Lemma with_motion_evolves (a : Agent.t) (nvx nvy nx ny : R) :
  Agent.is_active_blue a = true -> evolves a (Agent.with_motion a nvx nvy nx ny).
Proof.
  unfold evolves, Agent.with_motion, Agent.is_active_blue.
  destruct (Agent.attrs_of a) as [vx0 vy0 act fuel ammo|h]; [|discriminate].
  intros ->. cbn [Agent.id Agent.attrs_of]. split; [reflexivity|].
  split; [now exists nvx, nvy|discriminate].
Qed.

Lemma damaged_evolves (a a' : Agent.t) : damaged a a' -> evolves a a'.
Proof.
  intros [->|(h & d & Ha & Hh & Hd & ->)]; [apply evolves_refl|].
  unfold evolves, Agent.with_health. rewrite Ha. cbn [Agent.id].
  split; [reflexivity|]. exists (JsMath.max 0 (h - d)).
  unfold JsMath.max, Rmax. destruct (Rle_dec 0 (h - d)); repeat split; intros; lra.
Qed.

Lemma Forall2_trans {A} (R : A -> A -> Prop) (xs ys zs : list A) :
  (forall a b c, R a b -> R b c -> R a c) ->
  Forall2 R xs ys -> Forall2 R ys zs -> Forall2 R xs zs.
Proof.
  intros T H. revert zs. induction H as [|a b xs ys Hab _ IH]; intros zs H2.
  - inversion H2. constructor.
  - inversion H2 as [|? c ? zs' Hbc Hrest]; subst. constructor; [eauto|now apply IH].
Qed.

Lemma Forall2_refl {A} (R : A -> A -> Prop) (xs : list A) :
  (forall a, R a a) -> Forall2 R xs xs.
Proof. intro H. induction xs; constructor; auto. Qed.

(** A relation between the state before and after that every step keeps
    holds between the start and the end of a loop. *)
Lemma foldM_related {A B} (R : B -> B -> Prop) (f : B -> A -> Rand B) (xs : list A) :
  (forall b, R b b) -> (forall a b c, R a b -> R b c -> R a c) ->
  (forall b a n, R b (fst (f b a n))) ->
  forall b n, R b (fst (foldM f xs b n)).
Proof.
  intros Hrefl Htrans H. induction xs as [|a rest IH]; intros b n; simpl; [apply Hrefl|].
  unfold bind. pose proof (H b a n) as Hf. destruct (f b a n) as [b' n'].
  eapply Htrans; [exact Hf|apply IH].
Qed.

Section Evolution.

Variable rand : nat -> R.

Lemma moveStandardMode_evolves (currentStrategy : string) (prevAgents : list Agent.t)
    (agent : Agent.t) (n : nat) :
  evolves agent (fst (moveStandardMode rand currentStrategy prevAgents agent n)).
Proof.
  rewrite moveStandardMode_cases.
  destruct (Agent.is_active_blue agent) eqn:Hb; [|apply evolves_refl].
  destruct (findNearest agent _); [|apply evolves_refl].
  destruct (getStrategyBehavior _ _ _ _ _ _) as [b n']. cbn [fst].
  now apply with_motion_evolves.
Qed.

Lemma moveMultiTheater_evolves (policy : Policy.t) (logistics : Logistics.t)
    (currentStrategy : string) (snapshot : list Agent.t) (agent : Agent.t) (n : nat) :
  evolves agent
    (fst (moveMultiTheater rand policy logistics currentStrategy snapshot agent n)).
Proof.
  rewrite moveMultiTheater_cases.
  destruct (Agent.is_active_blue agent) eqn:Hb; [|apply evolves_refl].
  destruct (findNearest agent _); [|apply evolves_refl].
  destruct (getStrategyBehavior _ _ _ _ _ _) as [b n']. cbn [fst].
  now apply with_motion_evolves.
Qed.

Lemma updateStandardMode_evolves (currentStrategy : string)
    (prevAgents : list Agent.t) (n : nat) :
  Forall2 evolves prevAgents (fst (updateStandardMode rand currentStrategy prevAgents n)).
Proof.
  unfold updateStandardMode, bind.
  pose proof (mapM_Forall2 evolves (moveStandardMode rand currentStrategy prevAgents)
                prevAgents
                (fun a m _ => moveStandardMode_evolves currentStrategy prevAgents a m)
                n) as Hm.
  destruct (mapM _ prevAgents n) as [updatedAgents n']. cbn [fst] in *.
  apply (Forall2_trans evolves _ updatedAgents); [exact evolves_trans|exact Hm|].
  apply Forall2_map_damaged. exact damaged_evolves.
Qed.

Lemma updateTheater_evolves (policy : Policy.t) (logistics : Logistics.t)
    (currentStrategy : string) (theater : Theater.t) (n : nat) :
  theater_evolves theater
    (fst (updateTheater rand policy logistics currentStrategy theater n)).
Proof.
  unfold updateTheater, bind.
  pose proof (mapM_Forall2 evolves
                (moveMultiTheater rand policy logistics currentStrategy
                   (Theater.agents theater)) (Theater.agents theater)
                (fun a m _ => moveMultiTheater_evolves policy logistics
                                currentStrategy (Theater.agents theater) a m) n) as Hm.
  destruct (mapM _ (Theater.agents theater) n) as [updatedAgents n1]. cbn [fst] in Hm.
  pose proof (mapM_Forall2 evolves
                (damageMultiTheater rand policy logistics updatedAgents) updatedAgents
                (fun a m _ => damaged_evolves _ _
                   (damageMultiTheater_damaged rand policy logistics
                      updatedAgents a m)) n1) as Hd.
  destruct (mapM _ updatedAgents n1) as [finalAgents n2]. cbn [fst] in *.
  unfold theater_evolves, ret. cbn [fst Theater.id Theater.name Theater.priority
                                    Theater.agents].
  repeat split.
  apply (Forall2_trans evolves _ updatedAgents); [exact evolves_trans|exact Hm|exact Hd].
Qed.

Lemma theater_evolves_refl (th : Theater.t) : theater_evolves th th.
Proof.
  unfold theater_evolves. repeat split. apply Forall2_refl, evolves_refl.
Qed.

Lemma theater_evolves_trans (a b c : Theater.t) :
  theater_evolves a b -> theater_evolves b c -> theater_evolves a c.
Proof.
  unfold theater_evolves. intros (I1 & N1 & P1 & F1) (I2 & N2 & P2 & F2).
  repeat split; try congruence.
  apply (Forall2_trans evolves _ (Theater.agents b)); auto. exact evolves_trans.
Qed.

Lemma updateMultiTheater_evolves (policy : Policy.t) (logistics : Logistics.t)
    (currentStrategy : string) (prevTheaters : list Theater.t) (n : nat) :
  Forall2 theater_evolves prevTheaters
    (fst (updateMultiTheater rand policy logistics currentStrategy prevTheaters n)).
Proof.
  unfold updateMultiTheater. apply mapM_Forall2. intros th m _.
  apply updateTheater_evolves.
Qed.

Lemma runStandardMode_evolves (ticks : list tick_settings) (agents : list Agent.t)
    (n : nat) :
  Forall2 evolves agents (fst (runStandardMode rand ticks agents n)).
Proof.
  unfold runStandardMode. apply foldM_related.
  - intro l. apply Forall2_refl, evolves_refl.
  - intros a b c. apply Forall2_trans. exact evolves_trans.
  - intros w t m. apply updateStandardMode_evolves.
Qed.

Lemma runMultiTheater_evolves (ticks : list tick_settings) (theaters : list Theater.t)
    (n : nat) :
  Forall2 theater_evolves theaters (fst (runMultiTheater rand ticks theaters n)).
Proof.
  unfold runMultiTheater. apply foldM_related.
  - intro l. apply Forall2_refl, theater_evolves_refl.
  - intros a b c. apply Forall2_trans. exact theater_evolves_trans.
  - intros w t m. apply updateMultiTheater_evolves.
Qed.

(** X9.  Over any number of ticks, from any roster, no agent is created,
    removed or reordered, and each agent keeps its id and its team; a blue
    agent keeps its [active] flag and its gauges, and does not change at all
    when it is not active; a red agent never moves, and its health never
    grows, never becomes negative and never leaves 0.  A theater keeps its
    id, name and priority. *)
Theorem run_keeps_roster (ticks : list tick_settings) (agents : list Agent.t)
    (theaters : list Theater.t) (n : nat) :
  Forall2 evolves agents (fst (runStandardMode rand ticks agents n)) /\
  Forall2 theater_evolves theaters (fst (runMultiTheater rand ticks theaters n)).
Proof. split; [apply runStandardMode_evolves|apply runMultiTheater_evolves]. Qed.

End Evolution.

(* ------------------------------------------------------------------ *)
(** ** Ticks without opponents *)

Lemma mapM_same {A} (f : A -> Rand A) (xs : list A) :
  (forall a n, In a xs -> f a n = (a, n)) -> forall n, mapM f xs n = (xs, n).
Proof.
  induction xs as [|a rest IH]; intros H n; simpl; [reflexivity|].
  unfold bind. rewrite (H a n (or_introl eq_refl)).
  rewrite IH by (intros; apply H; now right). reflexivity.
Qed.

Lemma map_same {A} (f : A -> A) (xs : list A) :
  (forall a, In a xs -> f a = a) -> map f xs = xs.
Proof.
  induction xs as [|a rest IH]; intro H; simpl; [reflexivity|].
  rewrite (H a (or_introl eq_refl)), IH by (intros; apply H; now right). reflexivity.
Qed.

Lemma filter_empty {A} (p : A -> bool) (xs : list A) :
  filter p xs = [] -> forall a, In a xs -> p a = false.
Proof.
  induction xs as [|x rest IH]; simpl; [intros _ a []|].
  destruct (p x) eqn:E; [discriminate|].
  intros H a [<-|Ha]; [exact E|now apply IH].
Qed.

Section NoOpponents.

Variable rand : nat -> R.
Variable policy : Policy.t.
Variable logistics : Logistics.t.
Variable currentStrategy : string.

Lemma move_without_targets (snapshot : list Agent.t) (agent : Agent.t) (n : nat) :
  filter Agent.is_live_red snapshot = [] ->
  moveStandardMode rand currentStrategy snapshot agent n = (agent, n) /\
  moveMultiTheater rand policy logistics currentStrategy snapshot agent n = (agent, n).
Proof.
  intro H. rewrite moveStandardMode_cases, moveMultiTheater_cases, H.
  destruct (Agent.is_active_blue agent); split; reflexivity.
Qed.

Lemma damage_of_dead (updatedAgents : list Agent.t) (agent : Agent.t) (n : nat) :
  Agent.is_live_red agent = false ->
  damageStandardMode updatedAgents agent = agent /\
  damageMultiTheater rand policy logistics updatedAgents agent n = (agent, n).
Proof.
  unfold Agent.is_live_red, damageStandardMode, damageMultiTheater.
  destruct (Agent.attrs_of agent) as [|h]; [split; reflexivity|].
  intros ->. split; reflexivity.
Qed.

Lemma damage_without_attackers (updatedAgents : list Agent.t) (agent : Agent.t)
    (n : nat) :
  filter Agent.is_active_blue updatedAgents = [] ->
  damageStandardMode updatedAgents agent = agent /\
  damageMultiTheater rand policy logistics updatedAgents agent n = (agent, n).
Proof.
  intro H. unfold damageStandardMode, damageMultiTheater. rewrite H.
  destruct (Agent.attrs_of agent) as [|h]; [split; reflexivity|].
  destruct (Rltb 0 h); [|split; reflexivity].
  cbn [fold_left foldM]. unfold bind, ret. rltb. split; reflexivity.
Qed.

Lemma updateStandardMode_idle (prevAgents : list Agent.t) (n : nat) :
  filter Agent.is_live_red prevAgents = [] \/
  filter Agent.is_active_blue prevAgents = [] ->
  updateStandardMode rand currentStrategy prevAgents n = (prevAgents, n).
Proof.
  intro H. unfold updateStandardMode, bind.
  rewrite mapM_same.
  - unfold ret. f_equal. apply map_same. intros a Ha.
    destruct H as [H|H].
    + apply (damage_of_dead prevAgents a n). now apply (filter_empty _ _ H).
    + now apply (damage_without_attackers prevAgents a n).
  - intros a m Ha. destruct H as [H|H].
    + now apply move_without_targets.
    + apply moveStandardMode_red. now apply (filter_empty _ _ H).
Qed.

Lemma updateTheater_idle (theater : Theater.t) (n : nat) :
  filter Agent.is_live_red (Theater.agents theater) = [] \/
  filter Agent.is_active_blue (Theater.agents theater) = [] ->
  updateTheater rand policy logistics currentStrategy theater n = (theater, n).
Proof.
  intro H. unfold updateTheater, bind.
  rewrite mapM_same.
  - rewrite mapM_same.
    + unfold ret. now destruct theater.
    + intros a m Ha. destruct H as [H|H].
      * apply damage_of_dead. now apply (filter_empty _ _ H).
      * now apply damage_without_attackers.
  - intros a m Ha. destruct H as [H|H].
    + now apply move_without_targets.
    + apply moveMultiTheater_red. now apply (filter_empty _ _ H).
Qed.

(** X10.  A tick is the identity, and draws no random number, on a roster
    with no living red agent or with no active blue agent: nothing moves
    and nothing is damaged, in both modes and under every strategy. *)
Theorem tick_without_opponents (prevAgents : list Agent.t) (theater : Theater.t)
    (n : nat) :
  (filter Agent.is_live_red prevAgents = [] \/
   filter Agent.is_active_blue prevAgents = [] ->
   updateStandardMode rand currentStrategy prevAgents n = (prevAgents, n)) /\
  (filter Agent.is_live_red (Theater.agents theater) = [] \/
   filter Agent.is_active_blue (Theater.agents theater) = [] ->
   updateTheater rand policy logistics currentStrategy theater n = (theater, n)).
Proof. split; [apply updateStandardMode_idle|apply updateTheater_idle]. Qed.

End NoOpponents.

(* ------------------------------------------------------------------ *)
(** ** The rosters of a run *)

Lemma evolves_active_blue (a b : Agent.t) :
  evolves a b -> Agent.is_active_blue b = Agent.is_active_blue a.
Proof.
  unfold evolves, Agent.is_active_blue. intros [_ H].
  destruct (Agent.attrs_of a) as [vx0 vy0 act fuel ammo|h].
  - destruct H as [(vx1 & vy1 & ->) _]. reflexivity.
  - destruct H as (h' & _ & _ & _ & ->). reflexivity.
Qed.

Lemma evolves_live_red (a b : Agent.t) :
  evolves a b -> Agent.is_live_red b = true -> Agent.is_live_red a = true.
Proof.
  unfold evolves, Agent.is_live_red. intros [_ H].
  destruct (Agent.attrs_of a) as [vx0 vy0 act fuel ammo|h].
  - destruct H as [(vx1 & vy1 & ->) _]. discriminate.
  - destruct H as (h' & Hle & _ & _ & ->). cbn [Agent.attrs_of].
    rewrite !Rltb_true. lra.
Qed.

Lemma Forall2_length_eq {A B} (R : A -> B -> Prop) (xs : list A) (ys : list B) :
  Forall2 R xs ys -> List.length ys = List.length xs.
Proof. induction 1; simpl; congruence. Qed.

Lemma Forall2_filter_length_eq {A} (p : A -> bool) (xs ys : list A) :
  Forall2 (fun a b => p b = p a) xs ys ->
  List.length (filter p ys) = List.length (filter p xs).
Proof.
  induction 1 as [|a b xs ys Hab _ IH]; simpl; [reflexivity|].
  rewrite Hab. destruct (p a); simpl; congruence.
Qed.

Lemma Forall2_filter_length_le {A} (p : A -> bool) (xs ys : list A) :
  Forall2 (fun a b => p b = true -> p a = true) xs ys ->
  (List.length (filter p ys) <= List.length (filter p xs))%nat.
Proof.
  induction 1 as [|a b xs ys Hab _ IH]; simpl; [lia|].
  destruct (p b) eqn:E.
  - rewrite (Hab eq_refl). simpl. lia.
  - destruct (p a); simpl; lia.
Qed.

Lemma Forall2_weaken {A B} (R S : A -> B -> Prop) (xs : list A) (ys : list B) :
  (forall a b, R a b -> S a b) -> Forall2 R xs ys -> Forall2 S xs ys.
Proof. intros H F. induction F; constructor; auto. Qed.

(** Along an evolution the roster keeps its length and its number of
    active blue agents, and its number of living red agents does not grow. *)
Lemma evolves_counts (before after : list Agent.t) :
  Forall2 evolves before after ->
  List.length after = List.length before /\
  count_active_blue after = count_active_blue before /\
  (count_live_red after <= count_live_red before)%nat.
Proof.
  intro H. split; [now apply (Forall2_length_eq evolves)|]. split.
  - apply Forall2_filter_length_eq.
    revert H. apply Forall2_weaken. exact evolves_active_blue.
  - apply Forall2_filter_length_le.
    revert H. apply Forall2_weaken. exact evolves_live_red.
Qed.

Lemma filter_all {A} (p : A -> bool) (xs : list A) :
  Forall (fun a => p a = true) xs -> filter p xs = xs.
Proof. induction 1 as [|a l Ha _ IH]; simpl; [reflexivity|]. now rewrite Ha, IH. Qed.

Lemma filter_none {A} (p : A -> bool) (xs : list A) :
  Forall (fun a => p a = false) xs -> filter p xs = [].
Proof. induction 1 as [|a l Ha _ IH]; simpl; [reflexivity|]. now rewrite Ha. Qed.

(** A roster of new agents: [blues] new blue agents followed by [reds] new
    red agents. *)
Lemma fresh_roster_counts (blues reds : list Agent.t) :
  Forall (fun a => exists fuel ammo,
              Agent.attrs_of a = BlueAttrs 0 0 true fuel ammo) blues ->
  Forall (fun a => Agent.attrs_of a = RedAttrs 100) reds ->
  count_active_blue (blues ++ reds) = List.length blues /\
  count_live_red (blues ++ reds) = List.length reds.
Proof.
  intros Hb Hr. unfold count_active_blue, count_live_red.
  rewrite !filter_app, !length_app.
  rewrite (filter_all Agent.is_active_blue blues), (filter_none Agent.is_active_blue reds),
    (filter_none Agent.is_live_red blues), (filter_all Agent.is_live_red reds).
  - simpl. lia.
  - revert Hr. apply Forall_impl. intros a Ha.
    unfold Agent.is_live_red. rewrite Ha. rltb. reflexivity.
  - revert Hb. apply Forall_impl. intros a (fuel & ammo & Ha).
    unfold Agent.is_live_red. now rewrite Ha.
  - revert Hr. apply Forall_impl. intros a Ha.
    unfold Agent.is_active_blue. now rewrite Ha.
  - revert Hb. apply Forall_impl. intros a (fuel & ammo & Ha).
    unfold Agent.is_active_blue. now rewrite Ha.
Qed.

(* ------------------------------------------------------------------ *)
(** ** Initialisation *)

Lemma mapM_map {A B C} (h : B -> C) (k : A -> C) (f : A -> Rand B) (xs : list A) :
  (forall a n, h (fst (f a n)) = k a) ->
  forall n, map h (fst (mapM f xs n)) = map k xs.
Proof.
  intro H. induction xs as [|a rest IH]; intro n; simpl; [reflexivity|].
  unfold bind. pose proof (H a n) as Ha. destruct (f a n) as [b n1].
  specialize (IH n1). destruct (mapM f rest n1) as [bs n2]. simpl in *.
  now rewrite Ha, IH.
Qed.

Lemma mapM_draws {A B} (c : nat) (f : A -> Rand B) (xs : list A) :
  (forall a n, snd (f a n) = (n + c)%nat) ->
  forall n, snd (mapM f xs n) = (n + c * List.length xs)%nat.
Proof.
  intro H. induction xs as [|a rest IH]; intro n; simpl; [lia|].
  unfold bind. pose proof (H a n) as Ha. destruct (f a n) as [b n1].
  specialize (IH n1). destruct (mapM f rest n1) as [bs n2]. simpl in *. lia.
Qed.

(** The boolean test of distinctness used to check id lists. *)
Lemma distinct_NoDup (l : list string) : distinct l = true -> NoDup l.
Proof.
  induction l as [|s rest IH]; simpl; [constructor|].
  intro H. apply andb_prop in H. destruct H as [Hs Hr].
  constructor; [|now apply IH].
  intro Hin. apply negb_true_iff in Hs.
  assert (existsb (String.eqb s) rest = true).
  { apply existsb_exists. exists s. split; [exact Hin|apply String.eqb_refl]. }
  congruence.
Qed.

Section Initialisation.

Variable rand : nat -> R.

(** The roster of standard mode after initialisation: 20 blue agents, then
    6 red agents. *)
Lemma initStandardMode_shape (n : nat) :
  exists blues reds,
    fst (initStandardMode rand n) = blues ++ reds /\
    List.length blues = 20%nat /\ List.length reds = 6%nat /\
    Forall (fun a => exists fuel ammo,
                Agent.attrs_of a = BlueAttrs 0 0 true fuel ammo) blues /\
    Forall (fun a => Agent.attrs_of a = RedAttrs 100) reds.
Proof.
  unfold initStandardMode, bind.
  pose proof (mapM_length (newStandardBlue rand) (seq 0 20) n) as Lb.
  pose proof (mapM_Forall
                (fun a => exists fuel ammo,
                     Agent.attrs_of a = BlueAttrs 0 0 true fuel ammo)
                (newStandardBlue rand) (seq 0 20)
                (fun i m => ex_intro _ None (ex_intro _ None eq_refl)) n) as Fb.
  destruct (mapM (newStandardBlue rand) _ n) as [blues n1].
  pose proof (mapM_length (newStandardRed rand) (seq 0 6) n1) as Lr.
  pose proof (mapM_Forall (fun a => Agent.attrs_of a = RedAttrs 100)
                (newStandardRed rand) (seq 0 6) (fun i m => eq_refl) n1) as Fr.
  destruct (mapM (newStandardRed rand) _ n1) as [reds n2].
  exists blues, reds. cbn [fst] in *. rewrite length_seq in Lb, Lr.
  repeat split; assumption.
Qed.

Lemma random_below_bound (k : Z) (n : nat) :
  0 <= rand n < 1 -> (0 < k)%Z ->
  (fst (random_below rand (IZR k) n) <= Z.to_nat k - 1)%nat.
Proof.
  intros Hr Hk. unfold random_below, bind, Math_random, ret. cbn [fst].
  unfold JsMath.floor.
  destruct (base_Int_part (rand n * IZR k)) as [Hlo Hhi].
  assert (Hk' : 0 < IZR k) by (apply IZR_lt; lia).
  assert (IZR (Int_part (rand n * IZR k)) < IZR k) by nra.
  apply lt_IZR in H. lia.
Qed.

(** [Math.random()] returns a number in [0, 1). *)
Hypothesis rand_range : forall n, 0 <= rand n < 1.

(** A theater after initialisation: 8 to 12 blue agents, then 2 to 4 red
    agents. *)
Lemma newTheater_shape (t n : nat) :
  exists blues reds,
    fst (newTheater rand t n)
    = Theater.mk t (nth t theater_names ""%string) (blues ++ reds)
                 (Theater.priority (fst (newTheater rand t n))) /\
    (8 <= List.length blues <= 12)%nat /\ (2 <= List.length reds <= 4)%nat /\
    Forall (fun a => exists fuel ammo,
                Agent.attrs_of a = BlueAttrs 0 0 true fuel ammo) blues /\
    Forall (fun a => Agent.attrs_of a = RedAttrs 100) reds.
Proof.
  unfold newTheater, bind.
  pose proof (random_below_bound 5 n (rand_range n) eq_refl) as K1.
  destruct (random_below rand 5 n) as [k n1].
  pose proof (random_below_bound 3 n1 (rand_range n1) eq_refl) as K2.
  destruct (random_below rand 3 n1) as [k' n2]. cbn [fst] in K1, K2.
  pose proof (mapM_length (newTheaterBlue rand t) (seq 0 (8 + k)) n2) as Lb.
  pose proof (mapM_Forall
                (fun a => exists fuel ammo,
                     Agent.attrs_of a = BlueAttrs 0 0 true fuel ammo)
                (newTheaterBlue rand t) (seq 0 (8 + k))
                (fun i m => ex_intro _ (Some 100) (ex_intro _ (Some 100) eq_refl))
                n2) as Fb.
  destruct (mapM (newTheaterBlue rand t) _ n2) as [blues n3].
  pose proof (mapM_length (newTheaterRed rand t) (seq 0 (2 + k')) n3) as Lr.
  pose proof (mapM_Forall (fun a => Agent.attrs_of a = RedAttrs 100)
                (newTheaterRed rand t) (seq 0 (2 + k')) (fun i m => eq_refl) n3) as Fr.
  destruct (mapM (newTheaterRed rand t) _ n3) as [reds n4].
  exists blues, reds. unfold Math_random, ret. cbn [fst Theater.priority] in *.
  rewrite length_seq in Lb, Lr.
  split; [reflexivity|]. simpl in K1, K2. repeat split; try assumption; lia.
Qed.

End Initialisation.

Lemma Forall2_map_eq {A B C} (R : A -> B -> Prop) (h : A -> C) (k : B -> C)
    (xs : list A) (ys : list B) :
  (forall a b, R a b -> k b = h a) -> Forall2 R xs ys -> map k ys = map h xs.
Proof. intros H F. induction F as [|a b xs ys Hab _ IH]; simpl; [reflexivity|]. now rewrite IH, (H a b Hab). Qed.

Section RunCounts.

Variable rand : nat -> R.

Lemma simulateStandardMode_counts (ticks : list tick_settings) (n : nat) :
  let agents := fst (simulateStandardMode rand ticks n) in
  List.length agents = 26%nat /\
  count_active_blue agents = 20%nat /\
  (count_live_red agents <= 6)%nat.
Proof.
  cbv zeta. unfold simulateStandardMode, bind.
  destruct (initStandardMode_shape rand n) as (blues & reds & E & Lb & Lr & Fb & Fr).
  destruct (initStandardMode rand n) as [agents n0]. cbn [fst] in E. subst agents.
  destruct (evolves_counts _ _ (runStandardMode_evolves rand ticks (blues ++ reds) n0))
    as (HL & HB & HR).
  destruct (fresh_roster_counts blues reds Fb Fr) as [Cb Cr].
  rewrite HL, HB, length_app. split; [lia|]. split; lia.
Qed.

Lemma newTheater_id_name (t n : nat) :
  Theater.id (fst (newTheater rand t n)) = t /\
  Theater.name (fst (newTheater rand t n)) = nth t theater_names ""%string.
Proof.
  unfold newTheater, bind.
  destruct (random_below rand 5 n) as [k n1].
  destruct (random_below rand 3 n1) as [k' n2].
  destruct (mapM (newTheaterBlue rand t) _ n2) as [blues n3].
  destruct (mapM (newTheaterRed rand t) _ n3) as [reds n4].
  split; reflexivity.
Qed.

Lemma theater_evolves_counts (before after : Theater.t) :
  theater_evolves before after -> theater_counts before -> theater_counts after.
Proof.
  intros (_ & _ & _ & F) (Hb & Hr & Hl). unfold theater_counts.
  destruct (evolves_counts _ _ F) as (HL & HB & HR). rewrite HL, HB. lia.
Qed.

Hypothesis rand_range : forall n, 0 <= rand n < 1.

Lemma newTheater_counts (t n : nat) : theater_counts (fst (newTheater rand t n)).
Proof.
  destruct (newTheater_shape rand rand_range t n)
    as (blues & reds & E & Lb & Lr & Fb & Fr).
  rewrite E. unfold theater_counts. cbn [Theater.agents].
  destruct (fresh_roster_counts blues reds Fb Fr) as [Cb Cr].
  rewrite Cb, Cr, length_app. lia.
Qed.

Lemma simulateMultiTheater_counts (ticks : list tick_settings) (n : nat) :
  let theaters := fst (simulateMultiTheater rand ticks n) in
  map Theater.id theaters = [0; 1; 2; 3]%nat /\
  map Theater.name theaters = theater_names /\
  Forall theater_counts theaters.
Proof.
  cbv zeta. unfold simulateMultiTheater, bind.
  pose proof (mapM_map Theater.id (fun t => t) (newTheater rand) (seq 0 NUM_THEATERS)
                (fun t m => proj1 (newTheater_id_name t m)) n) as Hid.
  pose proof (mapM_map Theater.name (fun t => nth t theater_names ""%string)
                (newTheater rand) (seq 0 NUM_THEATERS)
                (fun t m => proj2 (newTheater_id_name t m)) n) as Hname.
  pose proof (mapM_Forall theater_counts (newTheater rand) (seq 0 NUM_THEATERS)
                newTheater_counts n) as Hc.
  fold (initMultiTheater rand) in Hid, Hname, Hc.
  destruct (initMultiTheater rand n) as [theaters n0]. cbn [fst] in *.
  pose proof (runMultiTheater_evolves rand ticks theaters n0) as F.
  split; [|split].
  - rewrite (Forall2_map_eq theater_evolves Theater.id Theater.id _ _
               (fun a b H => proj1 H) F). exact Hid.
  - rewrite (Forall2_map_eq theater_evolves Theater.name Theater.name _ _
               (fun a b H => proj1 (proj2 H)) F). exact Hname.
  - revert F Hc. apply Forall2_Forall_r. exact theater_evolves_counts.
Qed.

(** X11.  At every tick of a run, standard mode has 26 agents of which
    exactly 20 are active blue agents and at most 6 are living red agents;
    multi-theater mode has the four theaters 0 to 3 under their names, each
    with 8 to 12 active blue agents, at most 4 living red agents and 10 to
    16 agents in all.  No tick ever deactivates a blue agent or revives a
    red one. *)
Theorem roster_counts_along_run (ticks : list tick_settings) (n : nat) :
  (List.length (fst (simulateStandardMode rand ticks n)) = 26%nat /\
   count_active_blue (fst (simulateStandardMode rand ticks n)) = 20%nat /\
   (count_live_red (fst (simulateStandardMode rand ticks n)) <= 6)%nat) /\
  (map Theater.id (fst (simulateMultiTheater rand ticks n)) = [0; 1; 2; 3]%nat /\
   map Theater.name (fst (simulateMultiTheater rand ticks n))
   = ["Northern Front"; "Eastern Sector"; "Southern Theater"; "Western Zone"]%string /\
   Forall (fun theater =>
             (8 <= count_active_blue (Theater.agents theater) <= 12)%nat /\
             (count_live_red (Theater.agents theater) <= 4)%nat /\
             (10 <= List.length (Theater.agents theater) <= 16)%nat)
          (fst (simulateMultiTheater rand ticks n))).
Proof.
  split; [apply simulateStandardMode_counts|apply simulateMultiTheater_counts].
Qed.

End RunCounts.

Lemma theater_ids_distinct :
  Forall (fun t =>
            Forall (fun k =>
                      Forall (fun k' => distinct (theater_ids t (8 + k) (2 + k')) = true)
                             (seq 0 3))
                   (seq 0 5))
         (seq 0 NUM_THEATERS).
Proof. repeat constructor. Qed.

Section Placement.

Variable rand : nat -> R.
Hypothesis rand_range : forall n, 0 <= rand n < 1.

Ltac new_agent_placed :=
  unfold bind, Math_random, ret, GRID_SIZE; cbn [fst Agent.x Agent.y Agent.attrs_of];
  match goal with
  | n : nat |- _ =>
      pose proof (rand_range n); pose proof (rand_range (S n));
      repeat split; lra
  end.

Lemma newStandardBlue_placed (i n : nat) : placed_standard (fst (newStandardBlue rand i n)).
Proof. unfold placed_standard, newStandardBlue. new_agent_placed. Qed.

Lemma newStandardRed_placed (i n : nat) : placed_standard (fst (newStandardRed rand i n)).
Proof. unfold placed_standard, newStandardRed. new_agent_placed. Qed.

Lemma newTheaterBlue_placed (t i n : nat) :
  placed_theater (fst (newTheaterBlue rand t i n)).
Proof. unfold placed_theater, newTheaterBlue. new_agent_placed. Qed.

Lemma newTheaterRed_placed (t i n : nat) :
  placed_theater (fst (newTheaterRed rand t i n)).
Proof. unfold placed_theater, newTheaterRed. new_agent_placed. Qed.

Lemma initStandardMode_placed (n : nat) :
  Forall placed_standard (fst (initStandardMode rand n)) /\
  map Agent.id (fst (initStandardMode rand n)) = standard_ids 20 6 /\
  snd (initStandardMode rand n) = (n + 52)%nat.
Proof.
  unfold initStandardMode, bind.
  pose proof (mapM_Forall placed_standard (newStandardBlue rand) (seq 0 20)
                newStandardBlue_placed n) as Pb.
  pose proof (mapM_map Agent.id (fun i => "b" ++ nat_to_string i)%string
                (newStandardBlue rand) (seq 0 20) (fun i m => eq_refl) n) as Ib.
  pose proof (mapM_draws 2 (newStandardBlue rand) (seq 0 20)
                (fun i m => eq_sym (Nat.add_comm m 2)) n) as Db.
  destruct (mapM (newStandardBlue rand) _ n) as [blues n1].
  pose proof (mapM_Forall placed_standard (newStandardRed rand) (seq 0 6)
                newStandardRed_placed n1) as Pr.
  pose proof (mapM_map Agent.id (fun i => "r" ++ nat_to_string i)%string
                (newStandardRed rand) (seq 0 6) (fun i m => eq_refl) n1) as Ir.
  pose proof (mapM_draws 2 (newStandardRed rand) (seq 0 6)
                (fun i m => eq_sym (Nat.add_comm m 2)) n1) as Dr.
  destruct (mapM (newStandardRed rand) _ n1) as [reds n2].
  unfold ret. cbn [fst snd] in *. split; [|split].
  - apply Forall_app. now split.
  - unfold standard_ids. now rewrite map_app, Ib, Ir.
  - rewrite Dr, Db. rewrite !length_seq. lia.
Qed.

Lemma newTheater_placed (t n : nat) :
  (t < NUM_THEATERS)%nat ->
  let theater := fst (newTheater rand t n) in
  (exists blues reds,
      (8 <= blues <= 12)%nat /\ (2 <= reds <= 4)%nat /\
      map Agent.id (Theater.agents theater) = theater_ids t blues reds) /\
  NoDup (map Agent.id (Theater.agents theater)) /\
  Forall placed_theater (Theater.agents theater) /\
  0 <= Theater.priority theater < 1.
Proof.
  intro Ht. cbv zeta. unfold newTheater, bind.
  pose proof (random_below_bound rand 5 n (rand_range n) eq_refl) as K1.
  destruct (random_below rand 5 n) as [k n1].
  pose proof (random_below_bound rand 3 n1 (rand_range n1) eq_refl) as K2.
  destruct (random_below rand 3 n1) as [k' n2]. cbn [fst] in K1, K2.
  simpl in K1, K2.
  pose proof (mapM_Forall placed_theater (newTheaterBlue rand t) (seq 0 (8 + k))
                (newTheaterBlue_placed t) n2) as Pb.
  pose proof (mapM_map Agent.id
                (fun i => "t" ++ nat_to_string t ++ "-b" ++ nat_to_string i)%string
                (newTheaterBlue rand t) (seq 0 (8 + k)) (fun i m => eq_refl) n2) as Ib.
  destruct (mapM (newTheaterBlue rand t) _ n2) as [blues n3].
  pose proof (mapM_Forall placed_theater (newTheaterRed rand t) (seq 0 (2 + k'))
                (newTheaterRed_placed t) n3) as Pr.
  pose proof (mapM_map Agent.id
                (fun i => "t" ++ nat_to_string t ++ "-r" ++ nat_to_string i)%string
                (newTheaterRed rand t) (seq 0 (2 + k')) (fun i m => eq_refl) n3) as Ir.
  destruct (mapM (newTheaterRed rand t) _ n3) as [reds n4].
  unfold Math_random, ret. cbn [fst Theater.agents Theater.priority] in *.
  assert (E : map Agent.id (blues ++ reds) = theater_ids t (8 + k) (2 + k')).
  { unfold theater_ids. now rewrite map_app, Ib, Ir. }
  split; [exists (8 + k)%nat, (2 + k')%nat; repeat split; try lia; exact E|].
  split; [|split; [apply Forall_app; now split|apply rand_range]].
  rewrite E. apply distinct_NoDup.
  pose proof theater_ids_distinct as D.
  rewrite Forall_forall in D. specialize (D t).
  rewrite Forall_forall in D. specialize (D ltac:(apply in_seq; lia) k).
  rewrite Forall_forall in D. apply D; apply in_seq; lia.
Qed.

(** X12.  Initialisation.  Standard mode creates the agents b0 to b19, then
    r0 to r5, with distinct ids and 52 random draws: the blue agents
    active, at rest, with x in [0, 120); the red agents with health 100 and
    x in [280, 360].  Multi-theater mode gives each theater t the agents
    t<t>-b0.. (8 to 12 of them), then t<t>-r0.. (2 to 4), with distinct ids:
    the blue agents active, at rest, with full gauges and x in [0, 100);
    the red agents with health 100 and x in [280, 380]; and a priority in
    [0, 1).  Every y is in [0, 400).  (The upper bounds on the red agents
    are not strict: the sum of two rounded products can reach them.) *)
Theorem initial_rosters (n : nat) :
  (map Agent.id (fst (initStandardMode rand n)) = standard_ids 20 6 /\
   NoDup (map Agent.id (fst (initStandardMode rand n))) /\
   Forall placed_standard (fst (initStandardMode rand n)) /\
   snd (initStandardMode rand n) = (n + 52)%nat) /\
  Forall2 (fun t theater =>
             (exists blues reds,
                 (8 <= blues <= 12)%nat /\ (2 <= reds <= 4)%nat /\
                 map Agent.id (Theater.agents theater) = theater_ids t blues reds) /\
             NoDup (map Agent.id (Theater.agents theater)) /\
             Forall placed_theater (Theater.agents theater) /\
             0 <= Theater.priority theater < 1)
          [0; 1; 2; 3]%nat (fst (initMultiTheater rand n)).
Proof.
  split.
  - destruct (initStandardMode_placed n) as (P & I & D).
    split; [exact I|]. split; [|split; assumption].
    rewrite I. apply distinct_NoDup. reflexivity.
  - unfold initMultiTheater. apply (mapM_Forall2 _ (newTheater rand) (seq 0 NUM_THEATERS)).
    intros t m Ht. apply newTheater_placed. now apply in_seq in Ht.
Qed.

End Placement.

(* ------------------------------------------------------------------ *)
(** ** Speeds and steps *)

Lemma eqb_neq_sym (s t : string) : String.eqb s t = false -> String.eqb t s = false.
Proof. rewrite String.eqb_sym. auto. Qed.

Lemma speed_of_bounds (s : string) (dist : R) : 1.8 <= speed_of s dist <= 5.25.
Proof.
  unfold speed_of.
  repeat match goal with
         | |- context [if ?c then _ else _] => destruct c
         end; lra.
Qed.

(** The velocity returned for a present target has the speed of the table
    along some angle. *)
Lemma getStrategyBehavior_speed (rand : nat -> R) (agent target : Agent.t)
    (s : string) (time : option R) (n : nat) :
  exists angle,
    fst (getStrategyBehavior rand agent (Some target) s time n)
    = mkBehavior (cos angle * speed_of s (distance agent target))
                 (sin angle * speed_of s (distance agent target)).
Proof.
  unfold speed_of.
  destruct (String.eqb s "flank") eqn:E1.
  { apply String.eqb_eq in E1. subst s. steer. eexists. reflexivity. }
  destruct (String.eqb s "pincer") eqn:E2.
  { apply String.eqb_eq in E2. subst s. steer. eexists. reflexivity. }
  destruct (String.eqb s "dispersed") eqn:E3.
  { apply String.eqb_eq in E3. subst s. steer. eexists. reflexivity. }
  destruct (String.eqb s "concentrated") eqn:E4.
  { apply String.eqb_eq in E4. subst s. steer. eexists. reflexivity. }
  destruct (String.eqb s "hitrun") eqn:E5.
  { apply String.eqb_eq in E5. subst s. steer. unfold distance.
    destruct (Rltb _ 80); eexists; reflexivity. }
  unfold getStrategyBehavior. rewrite E1, E2, E3, E4, E5.
  cbn [find strategies direct_assault Strategy.approach].
  rewrite (eqb_neq_sym _ _ E1), (eqb_neq_sym _ _ E2), (eqb_neq_sym _ _ E3),
    (eqb_neq_sym _ _ E4), (eqb_neq_sym _ _ E5).
  destruct (String.eqb "direct" s);
    cbn [nth Strategy.speed]; unfold bind, ret; cbn [fst snd];
    eexists; reflexivity.
Qed.

Lemma behavior_norm (angle speed : R) :
  (cos angle * speed) * (cos angle * speed) + (sin angle * speed) * (sin angle * speed)
  = speed * speed.
Proof.
  pose proof (sin2_cos2 angle) as H. unfold Rsqr in H.
  replace (cos angle * speed * (cos angle * speed) + sin angle * speed * (sin angle * speed))
    with ((sin angle * sin angle + cos angle * cos angle) * (speed * speed)) by ring.
  rewrite H. ring.
Qed.

Lemma clamp_step (x v : R) :
  0 <= x <= GRID_SIZE -> (clamp (x + v) - x) * (clamp (x + v) - x) <= v * v.
Proof.
  unfold clamp, JsMath.max, JsMath.min, GRID_SIZE, Rmax, Rmin. intro H.
  destruct (Rle_dec 400 (x + v)); destruct (Rle_dec 0 _); nra.
Qed.

Lemma within_refl (d : R) (a : Agent.t) : within d a a.
Proof. unfold within. nra. Qed.

Lemma within_damaged (d : R) (a b c : Agent.t) :
  within d a b -> damaged b c -> within d a c.
Proof.
  unfold within. intros H D. destruct (damaged_position _ _ D) as [-> ->]. exact H.
Qed.

Lemma Forall2_compose {A} (R S T : A -> A -> Prop) (xs ys zs : list A) :
  (forall a b c, R a b -> S b c -> T a c) ->
  Forall2 R xs ys -> Forall2 S ys zs -> Forall2 T xs zs.
Proof.
  intros H F. revert zs. induction F as [|a b xs ys Hab _ IH]; intros zs G.
  - inversion G. constructor.
  - inversion G as [|? c ? zs' Hbc Hrest]; subst. constructor; [eauto|now apply IH].
Qed.

Section Steps.

Variable rand : nat -> R.
Variable policy : Policy.t.
Variable logistics : Logistics.t.
Variable currentStrategy : string.

Lemma moveStandardMode_within (prevAgents : list Agent.t) (agent : Agent.t) (n : nat) :
  in_arena agent ->
  within 5.25 agent (fst (moveStandardMode rand currentStrategy prevAgents agent n)).
Proof.
  intros [Hx Hy]. rewrite moveStandardMode_cases.
  destruct (Agent.is_active_blue agent); [|apply within_refl].
  destruct (findNearest agent _) as [target|]; [|apply within_refl].
  destruct (getStrategyBehavior_speed rand agent target currentStrategy None n)
    as [angle E].
  destruct (getStrategyBehavior _ _ _ _ _ _) as [b n']. cbn [fst] in *. subst b.
  unfold within. rewrite with_motion_x, with_motion_y. cbn [vx vy].
  pose proof (speed_of_bounds currentStrategy (distance agent target)) as Hs.
  set (s := speed_of currentStrategy (distance agent target)) in *.
  pose proof (clamp_step (Agent.x agent) (cos angle * s) Hx).
  pose proof (clamp_step (Agent.y agent) (sin angle * s) Hy).
  pose proof (behavior_norm angle s). nra.
Qed.

Lemma moveMultiTheater_within (snapshot : list Agent.t) (agent : Agent.t) (n : nat) :
  0 <= Logistics.transportCapacity logistics ->
  in_arena agent ->
  within (5.25 * aggressionMod policy * (Logistics.transportCapacity logistics / 100))
         agent
         (fst (moveMultiTheater rand policy logistics currentStrategy snapshot agent n)).
Proof.
  intros Ht [Hx Hy]. rewrite moveMultiTheater_cases.
  assert (Hm : 0 < aggressionMod policy).
  { unfold aggressionMod. destruct (Policy.roe policy); lra. }
  set (m := aggressionMod policy) in *.
  set (t := Logistics.transportCapacity logistics / 100).
  assert (Ht' : 0 <= t) by (unfold t; lra).
  destruct (Agent.is_active_blue agent); [|apply within_refl].
  destruct (findNearest agent _) as [target|]; [|apply within_refl].
  destruct (getStrategyBehavior_speed rand agent target currentStrategy None n)
    as [angle E].
  destruct (getStrategyBehavior _ _ _ _ _ _) as [b n']. cbn [fst] in *. subst b.
  unfold within. rewrite with_motion_x, with_motion_y. cbn [vx vy].
  pose proof (speed_of_bounds currentStrategy (distance agent target)) as Hs.
  set (s := speed_of currentStrategy (distance agent target)) in *.
  pose proof (clamp_step (Agent.x agent) (cos angle * s * m * t) Hx) as Cx.
  pose proof (clamp_step (Agent.y agent) (sin angle * s * m * t) Hy) as Cy.
  pose proof (behavior_norm angle (s * m * t)) as N.
  replace (cos angle * (s * m * t)) with (cos angle * s * m * t) in N by ring.
  replace (sin angle * (s * m * t)) with (sin angle * s * m * t) in N by ring.
  assert (s * m * t <= 5.25 * m * t) by (apply Rmult_le_compat_r; nra).
  assert (0 <= s * m * t) by (apply Rmult_le_pos; nra).
  assert ((s * m * t) * (s * m * t) <= (5.25 * m * t) * (5.25 * m * t)) by nra.
  lra.
Qed.

(** X13.  The velocity returned by the steering model for a present target
    has exactly the speed of the steering table, between 1.8 and 5.25, under
    every strategy identifier and every random draw.  Hence one tick of
    standard mode moves no agent of a roster inside the arena by more than
    5.25, and one tick of multi-theater mode by more than
    5.25 x aggressionMod x transportCapacity/100. *)
Theorem step_bounded (prevAgents : list Agent.t) (theater : Theater.t) (n : nat) :
  (forall agent target time,
      let b := fst (getStrategyBehavior rand agent (Some target) currentStrategy time n) in
      let speed := speed_of currentStrategy (distance agent target) in
      vx b * vx b + vy b * vy b = speed * speed /\ 1.8 <= speed <= 5.25) /\
  (Forall in_arena prevAgents ->
   Forall2 (within 5.25) prevAgents
           (fst (updateStandardMode rand currentStrategy prevAgents n))) /\
  (0 <= Logistics.transportCapacity logistics ->
   Forall in_arena (Theater.agents theater) ->
   Forall2 (within (5.25 * aggressionMod policy
                    * (Logistics.transportCapacity logistics / 100)))
           (Theater.agents theater)
           (Theater.agents
              (fst (updateTheater rand policy logistics currentStrategy theater n)))).
Proof.
  split; [|split].
  - intros agent target time. cbv zeta.
    destruct (getStrategyBehavior_speed rand agent target currentStrategy time n)
      as [angle ->]. cbn [vx vy].
    split; [apply behavior_norm|apply speed_of_bounds].
  - intro H. rewrite Forall_forall in H. unfold updateStandardMode, bind.
    pose proof (mapM_Forall2 (within 5.25)
                  (moveStandardMode rand currentStrategy prevAgents) prevAgents
                  (fun a m Ha => moveStandardMode_within prevAgents a m (H a Ha)) n)
      as Hm.
    destruct (mapM _ prevAgents n) as [updatedAgents n']. cbn [fst] in *.
    apply (Forall2_compose (within 5.25) damaged (within 5.25) _ updatedAgents);
      [apply within_damaged|exact Hm|].
    apply Forall2_map_damaged. auto.
  - intros Ht H. rewrite Forall_forall in H. unfold updateTheater, bind.
    pose proof (mapM_Forall2 _
                  (moveMultiTheater rand policy logistics currentStrategy
                     (Theater.agents theater)) (Theater.agents theater)
                  (fun a m Ha => moveMultiTheater_within (Theater.agents theater) a m
                                   Ht (H a Ha)) n) as Hm.
    destruct (mapM _ (Theater.agents theater) n) as [updatedAgents n1]. cbn [fst] in Hm.
    pose proof (mapM_Forall2 damaged
                  (damageMultiTheater rand policy logistics updatedAgents) updatedAgents
                  (fun a m _ => damageMultiTheater_damaged rand policy logistics
                                  updatedAgents a m) n1) as Hd.
    destruct (mapM _ updatedAgents n1) as [finalAgents n2].
    unfold ret. cbn [fst Theater.agents] in *.
    eapply (Forall2_compose _ damaged _ _ updatedAgents);
      [apply within_damaged|exact Hm|exact Hd].
Qed.

End Steps.

(* ------------------------------------------------------------------ *)
(** ** Random draws of a tick *)

Lemma mapM_draws_filter {A B} (p : A -> bool) (f : A -> Rand B) (xs : list A) :
  (forall a n, snd (f a n) = (n + (if p a then 1 else 0))%nat) ->
  forall n, snd (mapM f xs n) = (n + List.length (filter p xs))%nat.
Proof.
  intro H. induction xs as [|a rest IH]; intro n; simpl; [lia|].
  unfold bind. pose proof (H a n) as Ha. destruct (f a n) as [b n1].
  specialize (IH n1). destruct (mapM f rest n1) as [bs n2]. simpl in *.
  destruct (p a); simpl; lia.
Qed.

(** Under a strategy other than "dispersed" the steering model draws
    nothing and does not depend on the random source. *)
Section Draws.

Variable rand : nat -> R.

Lemma moveStandardMode_dispersed_draws (prevAgents : list Agent.t) (agent : Agent.t)
    (n : nat) :
  snd (moveStandardMode rand "dispersed" prevAgents agent n)
  = (n + (if Agent.is_active_blue agent
                && negb (Nat.eqb (count_live_red prevAgents) 0)
          then 1 else 0))%nat.
Proof.
  rewrite moveStandardMode_cases. unfold count_live_red.
  destruct (Agent.is_active_blue agent); [|simpl; lia].
  destruct (filter Agent.is_live_red prevAgents) as [|first rest] eqn:E.
  - simpl. lia.
  - unfold findNearest. steer. unfold Math_random.
    cbn [snd List.length Nat.eqb negb andb]. lia.
Qed.

(** X14.  A tick of standard mode under a strategy other than "dispersed"
    draws no random number and its result does not depend on the random
    source.  Under "dispersed" it draws exactly one number per active blue
    agent when the roster has a living red agent, and none otherwise. *)
Theorem standard_tick_draws (rand' : nat -> R) (s : string)
    (prevAgents : list Agent.t) (n n' : nat) :
  (String.eqb s "dispersed" = false ->
   updateStandardMode rand s prevAgents n
   = (fst (updateStandardMode rand' s prevAgents n'), n)) /\
  snd (updateStandardMode rand "dispersed" prevAgents n)
  = (n + (if Nat.eqb (count_live_red prevAgents) 0 then 0
          else count_active_blue prevAgents))%nat.
Proof.
  split.
  - intro E. unfold updateStandardMode, bind.
    rewrite (mapM_pure (moveStandardMode rand s prevAgents)
               (fun a => fst (moveStandardMode rand' s prevAgents a n')))
      by (intros a m; now apply moveStandardMode_no_draw).
    rewrite (mapM_pure (moveStandardMode rand' s prevAgents)
               (fun a => fst (moveStandardMode rand' s prevAgents a n')))
      by (intros a m; now apply moveStandardMode_no_draw).
    reflexivity.
  - unfold updateStandardMode, bind.
    pose proof (mapM_draws_filter
                  (fun a => Agent.is_active_blue a
                            && negb (Nat.eqb (count_live_red prevAgents) 0))
                  (moveStandardMode rand "dispersed" prevAgents) prevAgents
                  (moveStandardMode_dispersed_draws prevAgents) n) as H.
    destruct (mapM _ prevAgents n) as [u n1]. unfold ret. cbn [snd] in *.
    rewrite H. f_equal. unfold count_active_blue.
    destruct (Nat.eqb (count_live_red prevAgents) 0); cbn [negb].
    + rewrite (filter_none _ prevAgents); [reflexivity|].
      apply Forall_forall. intros a _. apply andb_false_r.
    + f_equal. apply filter_ext. intro a. apply andb_true_r.
Qed.

End Draws.

(* ------------------------------------------------------------------ *)
(** ** The leaderboard holds the best of all evaluations *)








(** An invariant of the loop that follows the elements already visited. *)
Lemma foldM_prefix {A B} (I : list A -> B -> Prop) (f : B -> A -> Rand B)
    (xs : list A) (b0 : B) :
  I [] b0 ->
  (forall done a b n, I done b -> I (done ++ [a]) (fst (f b a n))) ->
  forall n, I xs (fst (foldM f xs b0 n)).
Proof.
  intros H0 Hstep.
  assert (G : forall todo done b n, I done b -> I (done ++ todo) (fst (foldM f todo b n))).
  { induction todo as [|a rest IH]; intros done b n Hb; simpl.
    - now rewrite app_nil_r.
    - unfold bind. pose proof (Hstep done a b n Hb) as Hf.
      destruct (f b a n) as [b' n']. cbn [fst] in Hf.
      replace (done ++ a :: rest) with ((done ++ [a]) ++ rest)
        by (now rewrite <- app_assoc).
      now apply IH. }
  intro n. apply (G xs [] b0 n H0).
Qed.


Lemma distance_step_valid (redTargets blueAgents : list Agent.t) (acc : R * nat) :
  snd (fold_left (Periodic.distance_step redTargets) blueAgents acc)
  = (snd acc + match redTargets with
               | [] => 0
               | _ :: _ => List.length blueAgents
               end)%nat.
Proof.
  revert acc. induction blueAgents as [|a rest IH]; intro acc; cbn [fold_left].
  - destruct redTargets; simpl; lia.
  - rewrite IH. unfold Periodic.distance_step.
    destruct redTargets as [|first others]; [simpl; lia|].
    unfold findNearest. cbn [snd List.length]. lia.
Qed.

Lemma clamp_percent_integer (z : Z) :
  exists k : Z, JsMath.min 100 (JsMath.max 0 (IZR z)) = IZR k /\ (0 <= k <= 100)%Z.
Proof.
  unfold JsMath.min, JsMath.max, Rmin, Rmax.
  destruct (Rle_dec 0 (IZR z)) as [H0|H0].
  - destruct (Rle_dec 100 (IZR z)) as [H1|H1].
    + exists 100%Z. split; [reflexivity|lia].
    + exists z. split; [reflexivity|]. apply le_IZR in H0.
      assert (IZR z < 100) by lra. apply lt_IZR in H. lia.
  - destruct (Rle_dec 100 0); [lra|]. exists 0%Z. split; [reflexivity|lia].
Qed.

Section Evaluations.

Variable rand : nat -> R.

(** One call of the periodic evaluation, case by case. *)
Lemma periodic_evaluate_cases (call : evaluation_call) (st : evaluation) (n : nat) :
  if recordable call then
    exists (k : Z) (strategyName : string),
      (0 <= k <= 100)%Z /\
      Periodic.evaluateCurrentStrategy rand call st n
      = (mkEvaluation (S (exploredCOAs st))
           (leaderboard_push 10 (bestCOAs st)
              (COA.mk (call_now call)
                      ("COA-" ++ nat_to_string (exploredCOAs st))%string
                      (Some strategyName) (IZR k) (call_timeElapsed call))),
         S n)
  else Periodic.evaluateCurrentStrategy rand call st n = (st, n).
Proof.
  unfold recordable, Periodic.evaluateCurrentStrategy, count_active_blue, count_live_red.
  set (agents := allAgents (call_mode call) (call_theaters call) (call_agents call)).
  destruct (Nat.eqb (List.length (filter Agent.is_active_blue agents)) 0) eqn:Eb;
    [reflexivity|].
  cbn [negb andb].
  pose proof (distance_step_valid (filter Agent.is_live_red agents)
                (filter Agent.is_active_blue agents) (0, 0%nat)) as V.
  destruct (fold_left _ _ (0, 0%nat)) as [totalDistance validAgents].
  cbn [snd] in V. subst validAgents.
  destruct (filter Agent.is_live_red agents) as [|first others].
  - reflexivity.
  - cbn [List.length Nat.eqb negb Nat.add]. rewrite Eb.
    unfold bind, Math_random, ret.
    match goal with
    | |- context [JsMath.min 100 (JsMath.max 0 (IZR ?z))] =>
        destruct (clamp_percent_integer z) as (k & -> & Hk)
    end.
    eexists k, _. split; [exact Hk|reflexivity].
Qed.

Lemma continuous_evaluate_eq (call : evaluation_call) (st : evaluation) (n : nat) :
  Continuous.evaluateCurrentStrategy rand call st n
  = (mkEvaluation (S (exploredCOAs st))
       (leaderboard_push 50 (bestCOAs st)
          (COA.mk (Z.of_nat (exploredCOAs st + 1)) (call_strategy call) None
             ((rand n * 0.5
               + Policy.forceLevel (call_policy call) / 100 * 0.3
               + Logistics.supplyRate (call_logistics call) / 100 * 0.2) * 100)
             (call_timeElapsed call))),
     S n).
Proof. reflexivity. Qed.





End Evaluations.

(* ------------------------------------------------------------------ *)
(** ** The scores on the leaderboard *)

Lemma sort_by_score_In (l : list COA.t) (x : COA.t) :
  In x (sort_by_score l) -> In x l.
Proof.
  unfold sort_by_score.
  assert (G : forall acc,
             In x (fold_left (fun sorted c => insert_by_score c sorted) l acc) ->
             In x acc \/ In x l).
  { induction l as [|c rest IH]; intros acc H; simpl in *; [now left|].
    destruct (IH _ H) as [H1|H1]; [|now right; right].
    destruct (insert_by_score_In _ _ _ H1) as [->|H2]; [right; now left|now left]. }
  intro H. destruct (G [] H) as [[]|H']. exact H'.
Qed.

Lemma leaderboard_push_Forall (P : COA.t -> Prop) (k : nat) (prev : list COA.t)
    (c : COA.t) :
  Forall P prev -> P c -> Forall P (leaderboard_push k prev c).
Proof.
  intros Hp Hc. apply Forall_forall. intros x Hx.
  unfold leaderboard_push in Hx. apply In_firstn, sort_by_score_In in Hx.
  apply in_app_or in Hx. destruct Hx as [Hx|[<-|[]]]; [|exact Hc].
  rewrite Forall_forall in Hp. now apply Hp.
Qed.

Lemma foldM_invariant_In {A B} (I : B -> Prop) (f : B -> A -> Rand B) (xs : list A) :
  (forall b a n, In a xs -> I b -> I (fst (f b a n))) ->
  forall b n, I b -> I (fst (foldM f xs b n)).
Proof.
  induction xs as [|a rest IH]; intros H b n Hb; simpl; [assumption|].
  unfold bind. pose proof (H b a n (or_introl eq_refl) Hb) as Hf.
  destruct (f b a n) as [b' n']. apply IH; [|exact Hf].
  intros b0 a0 n0 Hin. apply H. now right.
Qed.

Section Scores.

Variable rand : nat -> R.

Lemma periodic_scores (calls : list evaluation_call) (n : nat) :
  Forall (fun c => exists k : Z, COA.score c = IZR k /\ (0 <= k <= 100)%Z)
         (bestCOAs (fst (Periodic.run rand calls n))).
Proof.
  unfold Periodic.run. apply foldM_invariant; [|constructor].
  intros st call m H. pose proof (periodic_evaluate_cases rand call st m) as C.
  destruct (recordable call).
  - destruct C as (k & s & Hk & ->). cbn [fst bestCOAs].
    apply leaderboard_push_Forall; [exact H|]. exists k. now split.
  - now rewrite C.
Qed.

Hypothesis rand_range : forall n, 0 <= rand n < 1.

(** X16.  The scores on the leaderboard.  In the periodic variant every
    score is an integer between 0 and 100, whatever the inputs.  In the
    continuous variant, when every call is made with a force level and a
    supply rate between 0 and 100, every score is in [0, 100]: the
    unclamped composite cannot leave that range. *)
Theorem leaderboard_scores (calls : list evaluation_call) (n : nat) :
  Forall (fun c => exists k : Z, COA.score c = IZR k /\ (0 <= k <= 100)%Z)
         (bestCOAs (fst (Periodic.run rand calls n))) /\
  (Forall (fun call =>
             0 <= Policy.forceLevel (call_policy call) <= 100 /\
             0 <= Logistics.supplyRate (call_logistics call) <= 100) calls ->
   Forall (fun c => 0 <= COA.score c <= 100)
          (bestCOAs (fst (Continuous.run rand calls n)))).
Proof.
  split; [apply periodic_scores|]. intro H.
  rewrite Forall_forall in H.
  unfold Continuous.run. apply foldM_invariant_In; [|constructor].
  intros st call m Hin Hst. rewrite continuous_evaluate_eq. cbn [fst bestCOAs].
  apply leaderboard_push_Forall; [exact Hst|]. cbn [COA.score].
  destruct (H call Hin) as [Hf Hs]. pose proof (rand_range m). lra.
Qed.

End Scores.

(* ------------------------------------------------------------------ *)
(** ** Ranges of the mission metrics *)

Lemma floor_nonneg (x : R) : 0 <= x -> (0 <= JsMath.floor x)%Z.
Proof.
  intro H. unfold JsMath.floor. destruct (base_Int_part x) as [_ Hhi].
  assert (-1 < IZR (Int_part x)) by lra.
  apply lt_IZR in H0. lia.
Qed.

Lemma floor_le (x : R) : IZR (JsMath.floor x) <= x.
Proof. unfold JsMath.floor. apply base_Int_part. Qed.

Lemma floor_IZR (z : Z) : JsMath.floor (IZR z) = z.
Proof.
  unfold JsMath.floor. destruct (base_Int_part (IZR z)) as [Hlo Hhi].
  apply le_IZR in Hlo.
  assert (IZR z - 1 < IZR (Int_part (IZR z))) by lra.
  rewrite <- minus_IZR in H. apply lt_IZR in H. lia.
Qed.

Lemma spec_successProbability_bounds (b r : nat) (fl sr cr : R) (roe : roe_t) :
  0 <= spec_successProbability b r fl sr cr roe <= 100.
Proof.
  unfold spec_successProbability.
  match goal with
  | |- context [Rlt_dec ?q 0] =>
      destruct (Rlt_dec q 0); [lra|]; destruct (Rlt_dec 100 q); lra
  end.
Qed.

Lemma forceRatio_nonneg (b r : nat) : 0 <= INR b / Rmax 1 (INR r).
Proof.
  apply Rmult_le_pos; [apply pos_INR|].
  apply Rlt_le, Rinv_0_lt_compat.
  apply Rlt_le_trans with 1; [lra|apply Rmax_l].
Qed.

Lemma spec_successProbability_mono (b r : nat) (fl fl' sr cr : R) (roe : roe_t) :
  0 <= sr + cr -> fl <= fl' ->
  spec_successProbability b r fl sr cr roe
  <= spec_successProbability b r fl' sr cr roe.
Proof.
  intros Hl Hf. unfold spec_successProbability.
  pose proof (forceRatio_nonneg b r) as Hr.
  set (ratio := INR b / Rmax 1 (INR r)) in *.
  assert (Hbase : 0 <= 50 + (ratio - 1) * 30) by lra.
  set (base := 50 + (ratio - 1) * 30) in *.
  assert (Hm : base * (fl / 100 * ((sr + cr) / 200))
               <= base * (fl' / 100 * ((sr + cr) / 200))).
  { apply Rmult_le_compat_l; [exact Hbase|].
    apply Rmult_le_compat_r; lra. }
  destruct roe;
    repeat match goal with
           | |- context [Rlt_dec ?a ?b] => destruct (Rlt_dec a b)
           end; lra.
Qed.

(** X17.  The success probability always lies in [0, 100]; it is 0 when the
    force level is 0 and when supply rate and comms reliability are both 0,
    and it does not decrease when the force level is raised (with a
    non-negative supply rate plus comms reliability).  The predicted
    casualties are 0 at force level 100 and a non-negative integer of at
    most 30% of the active blue agents for a force level in [0, 100].  The
    resource consumption is [100 - supplyRate] for an integer supply rate. *)
Theorem metrics_ranges (mode : mode_t) (theaters : list Theater.t)
    (agents : list Agent.t) (roe : roe_t) (intent : string) (risk : R)
    (logistics : Logistics.t) (forceLevel forceLevel' : R) :
  let metrics fl :=
    updateMissionMetrics mode theaters agents (Policy.mk fl roe intent risk) logistics in
  let logisticsSum :=
    Logistics.supplyRate logistics + Logistics.commsReliability logistics in
  0 <= MissionMetrics.successProbability (metrics forceLevel) <= 100 /\
  MissionMetrics.successProbability (metrics 0) = 0 /\
  (logisticsSum = 0 -> MissionMetrics.successProbability (metrics forceLevel) = 0) /\
  (0 <= logisticsSum -> forceLevel <= forceLevel' ->
   MissionMetrics.successProbability (metrics forceLevel)
   <= MissionMetrics.successProbability (metrics forceLevel')) /\
  MissionMetrics.predictedCasualties (metrics 100) = 0%Z /\
  (0 <= forceLevel <= 100 ->
   (0 <= MissionMetrics.predictedCasualties (metrics forceLevel))%Z /\
   IZR (MissionMetrics.predictedCasualties (metrics forceLevel))
   <= 0.3 * INR (activeBlueCount mode theaters agents)) /\
  (forall supply : Z,
      MissionMetrics.resourceConsumption
        (updateMissionMetrics mode theaters agents
           (Policy.mk forceLevel roe intent risk)
           (Logistics.mk (IZR supply) (Logistics.maintenanceLevel logistics)
              (Logistics.commsReliability logistics)
              (Logistics.transportCapacity logistics)))
      = (100 - supply)%Z).
Proof.
  cbv beta zeta. rewrite !successProbability_refines.
  cbn [Policy.forceLevel Policy.roe].
  split; [apply spec_successProbability_bounds|].
  split.
  { unfold spec_successProbability.
    match goal with
    | |- context [Rlt_dec ?q 0] =>
        replace q with 0 by (destruct roe; unfold Rdiv; ring)
    end.
    destruct (Rlt_dec 0 0); [lra|]. destruct (Rlt_dec 100 0); lra. }
  split.
  { intro H. unfold spec_successProbability.
    match goal with
    | |- context [Rlt_dec ?q 0] =>
        replace q with 0 by (destruct roe; rewrite H; unfold Rdiv; ring)
    end.
    destruct (Rlt_dec 0 0); [lra|]. destruct (Rlt_dec 100 0); lra. }
  split; [apply spec_successProbability_mono|].
  unfold updateMissionMetrics.
  cbn [MissionMetrics.predictedCasualties MissionMetrics.resourceConsumption
       Policy.forceLevel Logistics.supplyRate].
  fold (activeBlueCount mode theaters agents).
  split; [|split].
  - replace (INR (activeBlueCount mode theaters agents) * (1 - 100 / 100) * 0.3)
      with (IZR 0) by (simpl; field).
    apply floor_IZR.
  - intro H. pose proof (pos_INR (activeBlueCount mode theaters agents)) as Hb.
    split.
    + apply floor_nonneg. apply Rmult_le_pos; [apply Rmult_le_pos|]; lra.
    + eapply Rle_trans; [apply floor_le|]. nra.
  - intro supply. rewrite <- (floor_IZR (100 - supply)). f_equal.
    now rewrite minus_IZR.
Qed.

(* ------------------------------------------------------------------ *)
(** ** The damage of one pass *)

Lemma flatDamage_total (agent : Agent.t) (blueAgents : list Agent.t) (acc : R) :
  fold_left (flatDamage agent) blueAgents acc
  = acc + 2 * INR (List.length
                     (filter (fun b => Rltb (distance agent b) ENGAGEMENT_DISTANCE)
                             blueAgents)).
Proof.
  revert acc. induction blueAgents as [|b rest IH]; intro acc; cbn [fold_left filter].
  - simpl. ring.
  - rewrite IH. unfold flatDamage, HIT_DAMAGE.
    destruct (Rltb (distance agent b) ENGAGEMENT_DISTANCE); [|reflexivity].
    cbn [List.length]. rewrite S_INR. ring.
Qed.

Lemma rollDamage_total (rand : nat -> R) (policy : Policy.t) (logistics : Logistics.t)
    (agent : Agent.t) (blueAgents : list Agent.t) (acc : R) (n : nat) :
  let inRange :=
    filter (fun b => Rltb (distance agent b) ENGAGEMENT_DISTANCE) blueAgents in
  exists hits : nat,
    (hits <= List.length inRange)%nat /\
    foldM (rollDamage rand policy logistics agent) blueAgents acc n
    = (acc + hitDamage policy * INR hits, (n + List.length inRange)%nat).
Proof.
  cbv zeta. revert acc n.
  induction blueAgents as [|b rest IH]; intros acc n; cbn [foldM filter].
  - exists 0%nat. split; [simpl; lia|]. unfold ret. simpl. f_equal; [ring|lia].
  - unfold bind, rollDamage at 1.
    destruct (Rltb (distance agent b) ENGAGEMENT_DISTANCE).
    + unfold bind, Math_random, ret.
      destruct (Rltb (rand n) _).
      * destruct (IH (acc + hitDamage policy) (S n)) as (hits & Hh & ->).
        exists (S hits). cbn [List.length]. split; [lia|].
        rewrite S_INR. f_equal; [ring|lia].
      * destruct (IH acc (S n)) as (hits & Hh & ->).
        exists hits. cbn [List.length]. split; [lia|]. f_equal. lia.
    + unfold ret. apply IH.
Qed.

(** X18.  The damage a living red agent takes in one pass.  In standard
    mode its health drops by exactly 2 for every active blue agent of the
    roster within the engagement distance, floored at 0.  In multi-theater
    mode one number is drawn for each such blue agent, and the health drops
    by the damage of one hit for each draw below [commsReliability / 100]:
    by at most one hit per such blue agent. *)
Theorem damage_amount (rand : nat -> R) (policy : Policy.t) (logistics : Logistics.t)
    (updatedAgents : list Agent.t) (agent : Agent.t) (h : R) (n : nat) :
  Agent.attrs_of agent = RedAttrs h -> 0 < h ->
  let k := List.length (attackers updatedAgents agent) in
  Agent.health (damageStandardMode updatedAgents agent)
  = Some (JsMath.max 0 (h - 2 * INR k)) /\
  exists hits : nat,
    (hits <= k)%nat /\
    Agent.health (fst (damageMultiTheater rand policy logistics updatedAgents agent n))
    = Some (JsMath.max 0 (h - hitDamage policy * INR hits)) /\
    snd (damageMultiTheater rand policy logistics updatedAgents agent n)
    = (n + k)%nat.
Proof.
  intros Ha Hh. cbv zeta. unfold attackers. split.
  - unfold damageStandardMode. rewrite Ha. rltb. rewrite flatDamage_total.
    set (k := List.length _). clearbody k. rewrite Rplus_0_l.
    destruct (Rltb 0 (2 * INR k)) eqn:E.
    + unfold Agent.with_health, Agent.health. rewrite Ha. reflexivity.
    + apply Rltb_false in E. pose proof (pos_INR k).
      unfold Agent.health. rewrite Ha. f_equal.
      unfold JsMath.max. rewrite Rmax_right; lra.
  - unfold damageMultiTheater. rewrite Ha. rltb. unfold bind.
    destruct (rollDamage_total rand policy logistics agent
                (filter Agent.is_active_blue updatedAgents) 0 n)
      as (hits & Hle & ->).
    exists hits. split; [exact Hle|]. rewrite Rplus_0_l.
    pose proof (hitDamage_pos policy) as Hp.
    destruct (Rltb 0 (hitDamage policy * INR hits)) eqn:E.
    + unfold ret. cbn [fst snd]. unfold Agent.with_health, Agent.health. rewrite Ha.
      split; reflexivity.
    + apply Rltb_false in E. unfold ret. cbn [fst snd].
      unfold Agent.health. rewrite Ha. split; [|reflexivity]. f_equal.
      pose proof (pos_INR hits).
      assert (0 <= hitDamage policy * INR hits) by (apply Rmult_le_pos; lra).
      unfold JsMath.max. rewrite Rmax_right; lra.
Qed.

(* ------------------------------------------------------------------ *)
(** ** The first contact *)

Lemma distance_ge_dx (a b : Agent.t) : Agent.x a - Agent.x b <= distance a b.
Proof.
  unfold distance, JsMath.hypot.
  set (dx := Agent.x b - Agent.x a). set (dy := Agent.y b - Agent.y a).
  apply Rle_trans with (Rabs dx).
  - unfold dx. rewrite <- Rabs_Ropp. apply Rle_trans with (- (Agent.x b - Agent.x a)).
    + lra.
    + apply Rle_abs.
  - rewrite <- sqrt_Rsqr_abs. apply sqrt_le_1_alt. unfold Rsqr. nra.
Qed.

Lemma damageStandardMode_out_of_range (updatedAgents : list Agent.t) (agent : Agent.t) :
  Forall (fun b => ENGAGEMENT_DISTANCE <= distance agent b)
         (filter Agent.is_active_blue updatedAgents) ->
  damageStandardMode updatedAgents agent = agent.
Proof.
  intro H. unfold damageStandardMode.
  destruct (Agent.attrs_of agent) as [|h]; [reflexivity|].
  destruct (Rltb 0 h); [|reflexivity].
  rewrite flatDamage_total, filter_none.
  - cbn [List.length INR]. rltb. reflexivity.
  - revert H. apply Forall_impl. intros b Hb. now apply Rltb_false.
Qed.

Lemma within_dx (d : R) (a b : Agent.t) :
  0 <= d -> within d a b -> Agent.x b <= Agent.x a + d.
Proof.
  unfold within. intros Hd H.
  set (dx := Agent.x b - Agent.x a) in *. set (dy := Agent.y b - Agent.y a) in *.
  destruct (Rle_dec dx d) as [L|L]; [unfold dx in L; lra|]. exfalso.
  assert (d * d < dx * dx) by nra.
  assert (0 <= dy * dy) by nra. lra.
Qed.

Lemma approaching_later (j : nat) (a : Agent.t) : approaching j a -> approaching (S j) a.
Proof.
  unfold approaching. intros [Ha H]. split; [exact Ha|]. rewrite S_INR.
  destruct (Agent.attrs_of a); [lra|exact H].
Qed.

Section FirstContact.

Variable rand : nat -> R.

Lemma moveStandardMode_approaching (s : string) (prevAgents : list Agent.t)
    (agent : Agent.t) (j n : nat) :
  approaching j agent ->
  approaching (S j) (fst (moveStandardMode rand s prevAgents agent n)).
Proof.
  intro H. pose proof H as [Ha Hx].
  pose proof (moveStandardMode_within rand s prevAgents agent n Ha) as W.
  pose proof (within_dx 5.25 _ _ ltac:(lra) W) as Wx. clear W.
  rewrite moveStandardMode_cases in *.
  destruct (Agent.is_active_blue agent) eqn:Hb; [|now apply approaching_later].
  destruct (findNearest agent _); [|now apply approaching_later].
  destruct (getStrategyBehavior _ _ _ _ _ _) as [b n']. cbn [fst] in *.
  split; [apply with_motion_in_arena|].
  unfold Agent.is_active_blue in Hb. unfold Agent.with_motion in *.
  destruct (Agent.attrs_of agent) as [vx0 vy0 act fuel ammo|h]; [|discriminate].
  cbn [Agent.attrs_of Agent.x] in *. rewrite S_INR. lra.
Qed.

(** While the blue agents are west of 245, the damage pass of standard mode
    changes nothing. *)
Lemma damageStandardMode_approaching (updatedAgents : list Agent.t) (j : nat)
    (agent : Agent.t) :
  120 + 5.25 * INR j <= 245 ->
  Forall (approaching j) updatedAgents ->
  approaching j agent ->
  damageStandardMode updatedAgents agent = agent.
Proof.
  intros Hj Hall [_ Hx].
  destruct (Agent.attrs_of agent) as [|h] eqn:Ea;
    [unfold damageStandardMode; now rewrite Ea|].
  apply damageStandardMode_out_of_range.
  apply Forall_forall. intros b Hb. apply filter_In in Hb. destruct Hb as [Hin Hact].
  rewrite Forall_forall in Hall. destruct (Hall b Hin) as [_ Hbx].
  unfold Agent.is_active_blue in Hact.
  destruct (Agent.attrs_of b); [|discriminate].
  pose proof (distance_ge_dx agent b). unfold ENGAGEMENT_DISTANCE. lra.
Qed.

Lemma updateStandardMode_approaching (s : string) (prevAgents : list Agent.t)
    (j n : nat) :
  120 + 5.25 * INR (S j) <= 245 ->
  Forall (approaching j) prevAgents ->
  Forall (approaching (S j)) (fst (updateStandardMode rand s prevAgents n)).
Proof.
  intros Hj H. unfold updateStandardMode, bind.
  pose proof (mapM_Forall2 (fun a b => approaching j a -> approaching (S j) b)
                (moveStandardMode rand s prevAgents) prevAgents
                (fun a m _ => moveStandardMode_approaching s prevAgents a j m) n) as Hm.
  destruct (mapM _ prevAgents n) as [updatedAgents n']. cbn [fst] in *.
  assert (Hu : Forall (approaching (S j)) updatedAgents).
  { revert Hm H. apply Forall2_Forall_r. auto. }
  unfold ret. cbn [fst]. rewrite map_same; [exact Hu|].
  intros a Ha. apply (damageStandardMode_approaching updatedAgents (S j)); try assumption.
  rewrite Forall_forall in Hu. now apply Hu.
Qed.

Hypothesis rand_range : forall n, 0 <= rand n < 1.

Lemma placed_standard_approaching (a : Agent.t) : placed_standard a -> approaching 0 a.
Proof.
  unfold placed_standard, approaching, in_arena, GRID_SIZE. intros [Hy H].
  destruct (Agent.attrs_of a) as [vx0 vy0 act fuel ammo|h].
  - destruct H as (_ & _ & _ & _ & _ & Hx). simpl. repeat split; lra.
  - destruct H as [Hh Hx]. repeat split; lra.
Qed.

(** X19.  In standard mode no red agent loses health during the first 23
    ticks of a run, under any strategy: the blue agents start west of 120,
    the red agents east of 280, and a tick moves a blue agent by at most
    5.25, so that no blue agent is within the engagement distance before
    the 24th tick. *)
Theorem no_damage_before_contact (ticks : list tick_settings) (n : nat) :
  (List.length ticks <= 23)%nat ->
  Forall (fun a => match Agent.attrs_of a with
                   | RedAttrs h => h = 100
                   | BlueAttrs _ _ _ _ _ => True
                   end)
         (fst (simulateStandardMode rand ticks n)).
Proof.
  intro Hlen. unfold simulateStandardMode, bind.
  pose proof (proj1 (initStandardMode_placed rand rand_range n)) as H0.
  destruct (initStandardMode rand n) as [agents n0]. cbn [fst] in H0.
  assert (G : (List.length ticks <= 23)%nat ->
              Forall (approaching (List.length ticks))
                     (fst (runStandardMode rand ticks agents n0))).
  { unfold runStandardMode.
    apply (foldM_prefix
             (fun done w => (List.length done <= 23)%nat ->
                            Forall (approaching (List.length done)) w)).
    - intros _. revert H0. apply Forall_impl. exact placed_standard_approaching.
    - intros done t w m IH Hd. rewrite length_app in *. cbn [List.length] in *.
      replace (List.length done + 1)%nat with (S (List.length done)) in * by lia.
      apply updateStandardMode_approaching; [|apply IH; lia].
      assert (INR (S (List.length done)) <= 23).
      { replace 23 with (INR 23) by (simpl; lra). apply le_INR. lia. }
      lra. }
  specialize (G Hlen). revert G. apply Forall_impl.
  intros a [_ H]. destruct (Agent.attrs_of a); [exact I|apply H].
Qed.

End FirstContact.

(* ------------------------------------------------------------------ *)
(** ** The control loop *)

Lemma nth_strategy_in_table (i : nat) :
  In (Strategy.approach (nth i strategies direct_assault))
     (map Strategy.approach strategies).
Proof.
  apply in_map. destruct (nth_in_or_default i strategies direct_assault) as [H|H].
  - exact H.
  - rewrite H. now left.
Qed.

Section Loop.

Variable rand : nat -> R.
Variable mode : mode_t.

(** One run of the callback: either the timer is not above the drawn
    threshold and only the clock advances, or the strategy is switched. *)
Lemma interval_callback_cases (inputs : tick_inputs) (s : App.state) (n : nat) :
  let s' := fst (interval_callback rand mode inputs s n) in
  let threshold := 3 + rand n * (5 - 3) in
  App.timeElapsed s' = App.timeElapsed s + 0.1 /\
  App.missionMetrics s'
  = updateMissionMetrics mode (App.theaters s) (App.agents s)
      (input_policy inputs) (input_logistics inputs) /\
  ((App.strategyTimer s <= threshold /\
    App.strategyTimer s' = App.strategyTimer s + 0.1 /\
    App.currentStrategy s' = App.currentStrategy s /\
    App.evaluation s' = App.evaluation s) \/
   (threshold < App.strategyTimer s /\
    App.strategyTimer s' = 0 /\
    In (App.currentStrategy s') (map Strategy.approach strategies) /\
    App.evaluation s'
    = fst (Periodic.evaluateCurrentStrategy rand
             (mkCall (App.currentStrategy s') mode (App.theaters s) (App.agents s)
                     (input_policy inputs) (input_logistics inputs)
                     (App.timeElapsed s) (input_now inputs))
             (App.evaluation s) (S (S n))))).
Proof.
  cbv zeta. unfold interval_callback, bind, Math_random, ret.
  unfold STRATEGY_SWITCH_TIME_min, STRATEGY_SWITCH_TIME_max.
  destruct (Rltb (3 + rand n * (5 - 3)) (App.strategyTimer s)) eqn:E.
  - apply Rltb_true in E.
    destruct (Periodic.evaluateCurrentStrategy rand _ (App.evaluation s) (S (S n)))
      as [ev n1] eqn:Eev.
    destruct mode;
      [destruct (updateMultiTheater _ _ _ _ _ _) as [w n2]
      |destruct (updateStandardMode _ _ _ _) as [w n2]];
      cbn [fst snd App.timeElapsed App.missionMetrics App.strategyTimer
           App.currentStrategy App.evaluation];
      (split; [reflexivity|]; split; [reflexivity|]; right;
       split; [exact E|]; split; [reflexivity|];
       split; [apply nth_strategy_in_table|now rewrite Eev]).
  - apply Rltb_false in E.
    destruct mode;
      [destruct (updateMultiTheater _ _ _ _ _ _) as [w n2]
      |destruct (updateStandardMode _ _ _ _) as [w n2]];
      cbn [fst snd App.timeElapsed App.missionMetrics App.strategyTimer
           App.currentStrategy App.evaluation];
      (split; [reflexivity|]; split; [reflexivity|]; left;
       repeat split; try reflexivity; exact E).
Qed.

(** The world after one run of the callback: one tick of the mode, under
    the strategy that was current before the run; the roster of the other
    mode is not touched. *)
Lemma interval_callback_world (inputs : tick_inputs) (s : App.state) (n : nat) :
  let s' := fst (interval_callback rand mode inputs s n) in
  match mode with
  | standard_mode =>
      App.theaters s' = App.theaters s /\
      exists m, App.agents s'
                = fst (updateStandardMode rand (App.currentStrategy s) (App.agents s) m)
  | multi_theater =>
      App.agents s' = App.agents s /\
      exists m, App.theaters s'
                = fst (updateMultiTheater rand (input_policy inputs)
                         (input_logistics inputs) (App.currentStrategy s)
                         (App.theaters s) m)
  end.
Proof.
  cbv zeta. unfold interval_callback, bind, Math_random, ret.
  destruct (Rltb _ (App.strategyTimer s)).
  - destruct (Periodic.evaluateCurrentStrategy rand _ (App.evaluation s) (S (S n)))
      as [ev n1].
    destruct mode.
    + destruct (updateMultiTheater _ _ _ _ _ n1) as [w n2] eqn:E.
      cbn [fst snd App.agents App.theaters]. split; [reflexivity|].
      exists n1. now rewrite E.
    + destruct (updateStandardMode _ _ _ n1) as [w n2] eqn:E.
      cbn [fst snd App.agents App.theaters]. split; [reflexivity|].
      exists n1. now rewrite E.
  - destruct mode.
    + destruct (updateMultiTheater _ _ _ _ _ (S n)) as [w n2] eqn:E.
      cbn [fst snd App.agents App.theaters]. split; [reflexivity|].
      exists (S n). now rewrite E.
    + destruct (updateStandardMode _ _ _ (S n)) as [w n2] eqn:E.
      cbn [fst snd App.agents App.theaters]. split; [reflexivity|].
      exists (S n). now rewrite E.
Qed.

Lemma handleInitializeMode_clock (s : App.state) (n : nat) :
  let s0 := fst (handleInitializeMode rand mode s n) in
  App.timeElapsed s0 = 0 /\ App.strategyTimer s0 = 0 /\
  App.currentStrategy s0 = App.currentStrategy s /\
  App.evaluation s0 = resetEvaluation /\
  App.missionMetrics s0 = App.missionMetrics s.
Proof.
  cbv zeta. unfold handleInitializeMode, bind, ret.
  destruct mode;
    [destruct (initMultiTheater rand n)|destruct (initStandardMode rand n)];
    repeat split.
Qed.

Hypothesis rand_range : forall n, 0 <= rand n < 1.

(** X20.  The control loop of the periodic variant.  A run of the callback
    advances the clock by 0.1 and never switches the strategy while the
    timer is at most 3, and always switches it, resetting the timer to 0,
    once the timer has reached 5.  Hence at every tick of a run the clock
    is 0.1 times the number of ticks, the strategy timer is in [0, 5.1) and
    at most the clock, the current strategy is the one the run started with
    or one of the six of the table, at most one COA has been recorded per
    tick, and the leaderboard is sorted with at most 10 entries. *)
Theorem control_loop_clock (s : App.state) (ticks : list tick_inputs) (n : nat) :
  (forall inputs st m,
      let st' := fst (interval_callback rand mode inputs st m) in
      App.timeElapsed st' = App.timeElapsed st + 0.1 /\
      (App.strategyTimer st <= 3 ->
       App.strategyTimer st' = App.strategyTimer st + 0.1 /\
       App.currentStrategy st' = App.currentStrategy st /\
       App.evaluation st' = App.evaluation st) /\
      (5 <= App.strategyTimer st ->
       App.strategyTimer st' = 0 /\
       In (App.currentStrategy st') (map Strategy.approach strategies))) /\
  let final := fst (run_loop rand mode s ticks n) in
  App.timeElapsed final = 0.1 * INR (List.length ticks) /\
  0 <= App.strategyTimer final < 5.1 /\
  App.strategyTimer final <= App.timeElapsed final /\
  (App.currentStrategy final = App.currentStrategy s \/
   In (App.currentStrategy final) (map Strategy.approach strategies)) /\
  (exploredCOAs (App.evaluation final) <= List.length ticks)%nat /\
  StronglySorted score_desc (bestCOAs (App.evaluation final)) /\
  (List.length (bestCOAs (App.evaluation final)) <= 10)%nat.
Proof.
  split.
  - intros inputs st m. cbv zeta.
    destruct (interval_callback_cases inputs st m) as (Ht & _ & C).
    pose proof (rand_range m) as Hr.
    split; [exact Ht|]. split; intro H.
    + destruct C as [(_ & H1 & H2 & H3)|(Hsw & _)]; [now repeat split|lra].
    + destruct C as [(Hno & _)|(_ & H1 & H2 & _)]; [lra|now split].
  - cbv zeta. unfold run_loop, bind.
    destruct (handleInitializeMode_clock s n) as (T0 & S0 & C0 & E0 & _).
    destruct (handleInitializeMode rand mode s n) as [s0 n0]. cbn [fst] in *.
    apply (foldM_prefix
             (fun done st =>
                App.timeElapsed st = 0.1 * INR (List.length done) /\
                0 <= App.strategyTimer st < 5.1 /\
                App.strategyTimer st <= App.timeElapsed st /\
                (App.currentStrategy st = App.currentStrategy s \/
                 In (App.currentStrategy st) (map Strategy.approach strategies)) /\
                (exploredCOAs (App.evaluation st) <= List.length done)%nat /\
                leaderboard_ok 10 (bestCOAs (App.evaluation st)))).
    + rewrite T0, S0, C0, E0. cbn [List.length INR exploredCOAs bestCOAs resetEvaluation].
      repeat split; try lra; try lia; [now left|constructor|simpl; lia].
    + intros done inputs st m (HT & HS & HL & HC & HE & HB).
      destruct (interval_callback_cases inputs st m) as (Ht & _ & C).
      pose proof (rand_range m) as Hr.
      rewrite length_app. cbn [List.length]. rewrite plus_INR. cbn [INR].
      split; [rewrite Ht, HT; ring|].
      destruct C as [(Hno & H1 & H2 & H3)|(Hsw & H1 & H2 & H3)].
      * rewrite H1, H2, H3, Ht. repeat split; try lra; try lia; try assumption.
        -- apply HB.
        -- apply HB.
      * rewrite H1, Ht, H3. split; [lra|]. split; [lra|]. split; [now right|].
        split.
        -- pose proof (periodic_evaluate_cases rand
                         (mkCall (App.currentStrategy
                                    (fst (interval_callback rand mode inputs st m)))
                                 mode (App.theaters st) (App.agents st)
                                 (input_policy inputs) (input_logistics inputs)
                                 (App.timeElapsed st) (input_now inputs))
                         (App.evaluation st) (S (S m))) as P.
           destruct (recordable _).
           ++ destruct P as (k & name & _ & ->). cbn [fst exploredCOAs]. lia.
           ++ rewrite P. cbn [fst]. lia.
        -- apply periodic_evaluate_ok. exact HB.
Qed.

Lemma handleInitializeMode_world (s : App.state) (n : nat) :
  let s0 := fst (handleInitializeMode rand mode s n) in
  match mode with
  | standard_mode =>
      App.theaters s0 = App.theaters s /\
      App.agents s0 = fst (initStandardMode rand n)
  | multi_theater =>
      App.agents s0 = App.agents s /\
      App.theaters s0 = fst (initMultiTheater rand n)
  end.
Proof.
  cbv zeta. unfold handleInitializeMode, bind, ret.
  destruct mode;
    [destruct (initMultiTheater rand n)|destruct (initStandardMode rand n)];
    split; reflexivity.
Qed.

End Loop.

Section LoopWorld.

Variable rand : nat -> R.
Hypothesis rand_range : forall n, 0 <= rand n < 1.

(** X21.  The world of the control loop.  In standard mode, at every tick
    of a run of the loop the roster has its 26 agents, all inside the
    arena, with exactly 20 active blue agents, at most 6 living red agents
    and every health in [0, 100], and the theaters are as they were before
    the run.  In multi-theater mode every agent of every theater is inside
    the arena, every theater has 8 to 12 active blue and at most 4 living
    red agents, and the flat roster is as it was before the run. *)
Theorem control_loop_world (s : App.state) (ticks : list tick_inputs) (n : nat) :
  (let final := fst (run_loop rand standard_mode s ticks n) in
   App.theaters final = App.theaters s /\
   List.length (App.agents final) = 26%nat /\
   count_active_blue (App.agents final) = 20%nat /\
   (count_live_red (App.agents final) <= 6)%nat /\
   Forall in_arena (App.agents final) /\
   Forall health_in_range (App.agents final)) /\
  (let final := fst (run_loop rand multi_theater s ticks n) in
   App.agents final = App.agents s /\
   Forall theater_counts (App.theaters final) /\
   Forall theater_in_arena (App.theaters final)).
Proof.
  assert (M : forall a nvx nvy nx ny,
             Agent.is_active_blue a = true -> health_in_range a ->
             health_in_range (Agent.with_motion a nvx nvy (clamp nx) (clamp ny))).
  { intros a nvx nvy nx ny _. unfold health_in_range. now rewrite with_motion_health. }
  assert (D : forall a a', damaged a a' -> health_in_range a -> health_in_range a').
  { intros a a' H. now apply health_step_in_range, damaged_health_step. }
  split; cbv zeta; unfold run_loop, bind.
  - pose proof (handleInitializeMode_world rand standard_mode s n) as [W0 A0].
    destruct (handleInitializeMode rand standard_mode s n) as [s0 n0]. cbn [fst] in *.
    destruct (initStandardMode_shape rand n) as (blues & reds & E & Lb & Lr & Fb & Fr).
    destruct (fresh_roster_counts blues reds Fb Fr) as [Cb Cr].
    apply (foldM_invariant
             (fun st =>
                App.theaters st = App.theaters s /\
                List.length (App.agents st) = 26%nat /\
                count_active_blue (App.agents st) = 20%nat /\
                (count_live_red (App.agents st) <= 6)%nat /\
                Forall in_arena (App.agents st) /\
                Forall health_in_range (App.agents st))).
    + intros st inputs m (HW & HL & HB & HR & HA & HH).
      destruct (interval_callback_world rand standard_mode inputs st m) as [W [m' ->]].
      destruct (evolves_counts _ _
                  (updateStandardMode_evolves rand (App.currentStrategy st)
                     (App.agents st) m')) as (L1 & B1 & R1).
      rewrite W, L1, B1. repeat split; try assumption; try lia.
      * apply updateStandardMode_keeps; try assumption.
        -- intros. apply with_motion_in_arena.
        -- exact damaged_in_arena.
      * apply updateStandardMode_keeps; assumption.
    + rewrite A0, W0, E, length_app, Cb, Cr, <- E.
      repeat split; try lia.
      * apply (initStandardMode_keeps rand in_arena).
        -- apply newStandardBlue_in_arena, rand_range.
        -- apply newStandardRed_in_arena, rand_range.
      * apply (initStandardMode_keeps rand health_in_range);
          intros; unfold health_in_range; simpl; lra.
  - pose proof (handleInitializeMode_world rand multi_theater s n) as [A0 W0].
    destruct (handleInitializeMode rand multi_theater s n) as [s0 n0]. cbn [fst] in *.
    apply (foldM_invariant
             (fun st =>
                App.agents st = App.agents s /\
                Forall theater_counts (App.theaters st) /\
                Forall theater_in_arena (App.theaters st))).
    + intros st inputs m (HA & HC & HI).
      destruct (interval_callback_world rand multi_theater inputs st m) as [A [m' ->]].
      rewrite A. split; [exact HA|]. split.
      * pose proof (updateMultiTheater_evolves rand (input_policy inputs)
                      (input_logistics inputs) (App.currentStrategy st)
                      (App.theaters st) m') as F.
        revert F HC. apply Forall2_Forall_r. exact theater_evolves_counts.
      * apply (updateMultiTheater_keeps rand in_arena); try assumption.
        -- intros. apply with_motion_in_arena.
        -- exact damaged_in_arena.
    + rewrite A0, W0. split; [reflexivity|]. split.
      * unfold initMultiTheater. apply mapM_Forall.
        apply newTheater_counts. exact rand_range.
      * unfold initMultiTheater. apply mapM_Forall. intros t m.
        apply (newTheater_keeps rand in_arena).
        -- apply newTheaterBlue_in_arena, rand_range.
        -- apply newTheaterRed_in_arena, rand_range.
Qed.

End LoopWorld.

(* ------------------------------------------------------------------ *)
(** ** Instances with every draw equal to 1/2 *)

Lemma half_range : forall n : nat, 0 <= half n < 1.
Proof. intro n. unfold half. lra. Qed.

(** The counts after two ticks. *)
Lemma roster_counts_along_run_witness :
  (forall n : nat, 0 <= half n < 1) /\
  List.length (fst (simulateStandardMode half two_ticks 0%nat)) = 26%nat /\
  count_active_blue (fst (simulateStandardMode half two_ticks 0%nat)) = 20%nat /\
  map Theater.id (fst (simulateMultiTheater half two_ticks 0%nat)) = [0; 1; 2; 3]%nat.
Proof.
  split; [exact half_range|].
  split; [exact (proj1 (proj1 (roster_counts_along_run half half_range two_ticks 0%nat)))|].
  split; [exact (proj1 (proj2 (proj1
                   (roster_counts_along_run half half_range two_ticks 0%nat))))|].
  exact (proj1 (proj2 (roster_counts_along_run half half_range two_ticks 0%nat))).
Defined.

(** The identifiers and the 52 draws of the initialisation of standard
    mode. *)
Lemma initial_rosters_witness :
  (forall n : nat, 0 <= half n < 1) /\
  map Agent.id (fst (initStandardMode half 0%nat)) = standard_ids 20 6 /\
  snd (initStandardMode half 0%nat) = 52%nat.
Proof.
  split; [exact half_range|].
  split; [exact (proj1 (proj1 (initial_rosters half half_range 0%nat)))|].
  exact (proj2 (proj2 (proj2 (proj1 (initial_rosters half half_range 0%nat))))).
Defined.

(** Two evaluations at full force and full supply. *)
Lemma leaderboard_scores_witness :
  let calls :=
    [ mkCall "direct" standard_mode [] [blue_at "b0" 0 0; red_at "r0" 100 0 100]
             (Policy.mk 100 standard "balanced" 50) (Logistics.mk 100 100 100 100)
             0 1000;
      mkCall "flank" standard_mode [] [blue_at "b0" 0 0; red_at "r0" 100 0 100]
             (Policy.mk 60 aggressive "balanced" 50) (Logistics.mk 80 100 90 150)
             3.5 4500 ] in
  (forall n : nat, 0 <= half n < 1) /\
  Forall (fun call =>
            0 <= Policy.forceLevel (call_policy call) <= 100 /\
            0 <= Logistics.supplyRate (call_logistics call) <= 100) calls /\
  Forall (fun c => exists k : Z, COA.score c = IZR k /\ (0 <= k <= 100)%Z)
         (bestCOAs (fst (Periodic.run half calls 0%nat))) /\
  Forall (fun c => 0 <= COA.score c <= 100)
         (bestCOAs (fst (Continuous.run half calls 0%nat))).
Proof.
  cbv zeta.
  match goal with
  | |- _ /\ Forall ?P ?calls /\ _ =>
      assert (H : Forall P calls) by (repeat constructor; simpl; lra)
  end.
  split; [exact half_range|]. split; [exact H|].
  split.
  - exact (proj1 (leaderboard_scores half half_range _ 0%nat)).
  - exact (proj2 (leaderboard_scores half half_range _ 0%nat) H).
Defined.

(** A red agent at full health with one blue agent ten units away. *)
Lemma damage_amount_witness :
  let roster := [blue_at "b0" 90 0; red_at "r0" 100 0 100] in
  let agent := red_at "r0" 100 0 100 in
  Agent.attrs_of agent = RedAttrs 100 /\
  0 < 100 /\
  Agent.health (damageStandardMode roster agent)
  = Some (JsMath.max 0 (100 - 2 * INR (List.length (attackers roster agent)))).
Proof.
  cbv zeta.
  assert (H : 0 < 100) by lra.
  split; [reflexivity|]. split; [exact H|].
  exact (proj1 (damage_amount half (Policy.mk 100 standard "balanced" 50)
                  (Logistics.mk 100 100 100 100)
                  [blue_at "b0" 90 0; red_at "r0" 100 0 100]
                  (red_at "r0" 100 0 100) 100 0%nat eq_refl H)).
Defined.

(** Two ticks after the initialisation. *)
Lemma no_damage_before_contact_witness :
  (forall n : nat, 0 <= half n < 1) /\
  (List.length two_ticks <= 23)%nat /\
  Forall (fun a => match Agent.attrs_of a with
                   | RedAttrs h => h = 100
                   | BlueAttrs _ _ _ _ _ => True
                   end)
         (fst (simulateStandardMode half two_ticks 0%nat)).
Proof.
  assert (H : (List.length two_ticks <= 23)%nat) by (simpl; lia).
  split; [exact half_range|]. split; [exact H|].
  exact (no_damage_before_contact half half_range two_ticks 0%nat H).
Defined.

(** Two runs of the callback from the first render, in standard mode. *)
Lemma control_loop_clock_witness :
  (forall n : nat, 0 <= half n < 1) /\
  App.timeElapsed (fst (run_loop half standard_mode first_render two_runs 0%nat))
  = 0.1 * INR (List.length two_runs).
Proof.
  split; [exact half_range|].
  exact (proj1 (proj2 (control_loop_clock half standard_mode half_range
                         first_render two_runs 0%nat))).
Defined.

(** Two runs of the callback from the first render, in both modes. *)
Lemma control_loop_world_witness :
  (forall n : nat, 0 <= half n < 1) /\
  List.length (App.agents (fst (run_loop half standard_mode first_render two_runs 0%nat)))
  = 26%nat /\
  Forall theater_in_arena
         (App.theaters (fst (run_loop half multi_theater first_render two_runs 0%nat))).
Proof.
  split; [exact half_range|].
  split.
  - exact (proj1 (proj2 (proj1 (control_loop_world half half_range
                                  first_render two_runs 0%nat)))).
  - exact (proj2 (proj2 (proj2 (control_loop_world half half_range
                                  first_render two_runs 0%nat)))).
Defined.
